(** * caddy-simpletrace: W3C trace-context propagation for Caddy

    A shallow embedding of [simpletrace.go] and the properties of its
    trace-context engine: header parsing, identifier generation, the
    sampled-flag codec, the outgoing header and the log-field vocabularies.

    Go strings are byte strings: they are modelled by [string] (a list of
    8-bit [ascii]), [len] by [String.length].  Library calls of the Go
    standard library and of Caddy are modelled in their own modules
    ([strings], [hex], [utf8], [fmt], [rand], [http], [zap], [caddyhttp],
    [caddyfile]); the functions of the repository follow under
    "package simpletrace".  The entropy source is an input of the model:
    every function that calls [rand.Read] takes the source and the number
    of calls made so far, and returns the new number with its result.
    What a failing source does to the running process depends on the Go
    release the handler is built with: [process] has the same functions as
    calls that may not return. *)

From Stdlib Require Import NArith ZArith Ascii String.
From stdpp Require Import base list gmap strings.

Open Scope N_scope.

(** ** Bytes and character classes *)

Definition byte_of (c : ascii) : N := N_of_ascii c.

Definition in_range (lo hi x : N) : bool := (lo <=? x) && (x <=? hi).

(** ['0'..'9'] and ['a'..'f']: the alphabet [hex.EncodeToString] and [%x]
    print with. *)
Definition is_lower_hex (c : ascii) : bool :=
  in_range 48 57 (byte_of c) || in_range 97 102 (byte_of c).

(** ['0'..'9'], ['a'..'f'] and ['A'..'F']. *)
Definition is_hex (c : ascii) : bool :=
  is_lower_hex c || in_range 65 70 (byte_of c).

Fixpoint string_forallb (p : ascii -> bool) (s : string) : bool :=
  match s with
  | EmptyString => true
  | String c r => p c && string_forallb p r
  end.

(** [n] characters, each of class [p]. *)
Definition fixed_width (p : ascii -> bool) (n : nat) (s : string) : bool :=
  Nat.eqb (String.length s) n && string_forallb p s.

Definition dash : ascii := "-"%char.

Definition no_dash (s : string) : bool :=
  string_forallb (fun c => negb (Ascii.eqb c dash)) s.

(** ** package strings *)
Module strings.

(** [strings.Split(s, sep)] for a one-byte separator: the substrings
    between the separators; [Count(s, sep) + 1] of them, so a single
    (possibly empty) field when [sep] does not occur. *)
Fixpoint Split (s : string) (sep : ascii) : list string :=
  match s with
  | EmptyString => [EmptyString]
  | String c r =>
      if Ascii.eqb c sep then EmptyString :: Split r sep
      else match Split r sep with
           | [] => [String c EmptyString]
           | f :: fs => String c f :: fs
           end
  end.

(** [strings.Count(s, sep)] for a one-byte separator. *)
Fixpoint Count (s : string) (sep : ascii) : nat :=
  match s with
  | EmptyString => 0%nat
  | String c r => ((if Ascii.eqb c sep then 1 else 0) + Count r sep)%nat
  end.

(** [strings.Join(elems, sep)] for a one-byte separator. *)
Fixpoint Join (elems : list string) (sep : ascii) : string :=
  match elems with
  | [] => EmptyString
  | [e] => e
  | e :: es => e +:+ String sep (Join es sep)
  end.

End strings.

(** ** package encoding/hex *)
Module hex.

Definition hextable : string := "0123456789abcdef".

Definition digit (i : N) : ascii :=
  match String.get (N.to_nat i) hextable with
  | Some c => c
  | None => "0"%char
  end.

(** [hex.EncodeToString]: two characters per byte,
    [hextable[v>>4]] then [hextable[v&0x0f]]. *)
Fixpoint EncodeToString (src : list Byte.byte) : string :=
  match src with
  | [] => EmptyString
  | v :: r =>
      String (digit (N.shiftr (Byte.to_N v) 4))
        (String (digit (N.land (Byte.to_N v) 15)) (EncodeToString r))
  end.

End hex.

(** ** package unicode/utf8 *)
Module utf8.

Definition RuneError : N := 0xFFFD.

Definition cont (b : N) : bool := in_range 0x80 0xBF b.

(** The range accepted for the second byte, by first byte (the
    [acceptRanges] table). *)
Definition accept2 (b0 b1 : N) : bool :=
  if b0 =? 0xE0 then in_range 0xA0 0xBF b1
  else if b0 =? 0xED then in_range 0x80 0x9F b1
  else if b0 =? 0xF0 then in_range 0x90 0xBF b1
  else if b0 =? 0xF4 then in_range 0x80 0x8F b1
  else cont b1.

Definition low (bits b : N) : N := N.land b (N.ones bits).

(** The runes of a string, as repeated [utf8.DecodeRuneInString] yields
    them: a byte that does not start a well-formed encoding is
    [RuneError] of width 1. *)
Fixpoint runes (s : string) : list N :=
  match s with
  | EmptyString => []
  | String c0 s1 =>
    let b0 := byte_of c0 in
    if b0 <? 0x80 then b0 :: runes s1 else
    match s1 with
    | String c1 s2 =>
      let b1 := byte_of c1 in
      if in_range 0xC2 0xDF b0 && accept2 b0 b1
      then N.lor (N.shiftl (low 5 b0) 6) (low 6 b1) :: runes s2 else
      match s2 with
      | String c2 s3 =>
        let b2 := byte_of c2 in
        if in_range 0xE0 0xEF b0 && accept2 b0 b1 && cont b2
        then N.lor (N.shiftl (low 4 b0) 12)
               (N.lor (N.shiftl (low 6 b1) 6) (low 6 b2)) :: runes s3 else
        match s3 with
        | String c3 s4 =>
          let b3 := byte_of c3 in
          if in_range 0xF0 0xF4 b0 && accept2 b0 b1 && cont b2 && cont b3
          then N.lor (N.shiftl (low 3 b0) 18)
                 (N.lor (N.shiftl (low 6 b1) 12)
                    (N.lor (N.shiftl (low 6 b2) 6) (low 6 b3))) :: runes s4
          else RuneError :: runes s1
        | EmptyString => RuneError :: runes s1
        end
      | EmptyString => RuneError :: runes s1
      end
    | EmptyString => RuneError :: runes s1
    end
  end.

End utf8.

(** ** package fmt *)
Module fmt.

(** *** Scanning: [Sscanf(str, "%<width>x", &v)] for an unsigned [v] *)

(** The [space] table of [fmt/scan.go]. *)
Definition isSpace (r : N) : bool :=
  in_range 0x0009 0x000d r || (r =? 0x0020) || (r =? 0x0085) || (r =? 0x00a0)
  || (r =? 0x1680) || in_range 0x2000 0x200a r || in_range 0x2028 0x2029 r
  || (r =? 0x202f) || (r =? 0x205f) || (r =? 0x3000).

Definition peek_newline (rs : list N) : bool :=
  match rs with
  | r :: _ => r =? 10
  | [] => false
  end.

(** [ss.SkipSpace] as [Sscanf] runs it (newlines are not spaces there):
    [None] is the scan error "unexpected newline". *)
Fixpoint SkipSpace (rs : list N) : option (list N) :=
  match rs with
  | [] => Some []
  | r :: rest =>
      if (r =? 13) && peek_newline rest then SkipSpace rest
      else if r =? 10 then None
      else if isSpace r then SkipSpace rest
      else Some rs
  end.

Definition hexadecimalDigits : string := "0123456789aAbBcCdDeEfF".

Definition in_digits (digits : string) (r : N) : bool :=
  existsb (N.eqb r) (utf8.runes digits).

(** [for s.accept(digits) {}] under the width limit: the runes taken
    into the token, at most [w] of them. *)
Fixpoint accept_while (digits : string) (w : nat) (rs : list N) : list N :=
  match w, rs with
  | S w', r :: rest =>
      if in_digits digits r then r :: accept_while digits w' rest else []
  | _, _ => []
  end.

(** [ss.scanNumber]: at least one digit is required; end of input (or a
    width of zero) and a first rune that is no digit are scan errors. *)
Definition scanNumber (digits : string) (w : nat) (rs : list N)
  : option (list N) :=
  match accept_while digits w rs with
  | [] => None
  | tok => Some tok
  end.

Definition hex_value (r : N) : N :=
  if in_range 48 57 r then r - 48
  else if in_range 97 102 r then r - 87
  else r - 55.

(** [strconv.ParseUint(tok, 16, 64)] on a token of hexadecimal digits;
    [None] is the range error. *)
Definition ParseUint16 (tok : list N) : option N :=
  let i := fold_left (fun acc r => 16 * acc + hex_value r) tok 0 in
  if i <? 2 ^ 64 then Some i else None.

(** [ss.scanUint('x', bitSize)] behind [doScanf]'s handling of the verb
    [%<w>x]: leading space is discarded and is not counted in the width,
    up to [w] digits make the token, and whatever follows the token is
    left unread: [Sscanf] does not ask for the input to be used up.
    [Some v] is [err == nil] with [v] stored; [None] is [err != nil]. *)
Definition Sscanf_x (w : nat) (bitSize : N) (str : string) : option N :=
  rs ← SkipSpace (utf8.runes str);
  rs' ← SkipSpace rs;
  tok ← scanNumber hexadecimalDigits w rs';
  i ← ParseUint16 tok;
  if i =? i mod 2 ^ bitSize then Some i else None.

(** *** Printing: [Sprintf("%0<w>x", n)] *)

Fixpoint hex_digits (fuel : nat) (n : N) (acc : string) : string :=
  match fuel with
  | O => acc
  | S fuel' =>
      let acc' := String (hex.digit (n mod 16)) acc in
      if n / 16 =? 0 then acc' else hex_digits fuel' (n / 16) acc'
  end.

(** [strconv.FormatUint(n, 16)]. *)
Definition FormatHex (n : N) : string :=
  hex_digits (S (N.to_nat (N.log2 n))) n EmptyString.

Fixpoint zeros (k : nat) : string :=
  match k with
  | O => EmptyString
  | S k' => String "0"%char (zeros k')
  end.

Definition Sprintf_0x (w : nat) (n : N) : string :=
  let d := FormatHex n in
  zeros (w - String.length d) +:+ d.

End fmt.

(** ** package crypto/rand *)
Module rand.

(** The entropy source as the handler sees it: whether the [k]-th call
    of [rand.Read] fails, and the [i]-th byte it delivers when it does
    not. *)
Record Reader := {
  fails : nat -> bool;
  byte_at : nat -> nat -> Byte.byte;
}.

(** [rand.Read(b)], the [k]-th call, where the error of the source is
    returned to the caller (Go up to 1.23): the buffer after the call and
    whether [err != nil].  On success the whole of [b] is overwritten
    ([n == len(b)] if and only if [err == nil]).  What a build with a
    later release does with a failing source is [Read_in] below. *)
Definition Read (R : Reader) (k : nat) (b : list Byte.byte)
  : list Byte.byte * bool :=
  if fails R k then (b, true)
  else (imap (fun i _ => byte_at R k i) b, false).

(** The Go release the handler is built with, as far as [rand.Read]
    goes. *)
Inductive Release :=
| upto_go1_23
| from_go1_24.

(** [rand.Read(b)] as a call of the running process.  Up to Go 1.23 it
    returns what the source gives, error included.  From Go 1.24 on it
    never returns an error: when the source fails the process is ended
    ([fatal("crypto/rand: failed to read random data ...")]), and the call
    does not return ([None]). *)
Definition Read_in (g : Release) (R : Reader) (k : nat) (b : list Byte.byte)
  : option (list Byte.byte * bool) :=
  match g with
  | upto_go1_23 => Some (Read R k b)
  | from_go1_24 => if fails R k then None else Some (Read R k b)
  end.

End rand.

(** ** package net/http (textproto keys, [http.Header]) *)
Module http.

Definition is_upper (c : ascii) : bool := in_range 65 90 (byte_of c).
Definition is_lower (c : ascii) : bool := in_range 97 122 (byte_of c).

Definition to_upper (c : ascii) : ascii :=
  if is_lower c then ascii_of_N (byte_of c - 32) else c.
Definition to_lower (c : ascii) : ascii :=
  if is_upper c then ascii_of_N (byte_of c + 32) else c.

(** The token characters of RFC 7230. *)
Definition validHeaderFieldByte (c : ascii) : bool :=
  is_upper c || is_lower c || in_range 48 57 (byte_of c)
  || existsb (Ascii.eqb c) (list_ascii_of_string "!#$%&'*+-.^_`|~").

Fixpoint canonical (upper : bool) (s : string) : string :=
  match s with
  | EmptyString => EmptyString
  | String c r =>
      String (if upper then to_upper c else to_lower c)
        (canonical (Ascii.eqb c dash) r)
  end.

(** [textproto.CanonicalMIMEHeaderKey]: first letter and letters after a
    hyphen in upper case, the rest in lower case; a key with a byte that
    is not a token character is returned unchanged. *)
Definition CanonicalMIMEHeaderKey (s : string) : string :=
  if string_forallb validHeaderFieldByte s then canonical true s else s.

(** [http.Header] is [map[string][]string]. *)
Abbreviation Header := (gmap string (list string)) (only parsing).

(** [h.Get(key)]: the first value of the canonical key, [""] when there
    is none. *)
Definition Get (h : Header) (key : string) : string :=
  match h !! CanonicalMIMEHeaderKey key with
  | Some (v :: _) => v
  | _ => EmptyString
  end.

(** [h.Set(key, value)]: the canonical key holds [value] alone. *)
Definition Set_ (h : Header) (key value : string) : Header :=
  <[CanonicalMIMEHeaderKey key := [value]]> h.

End http.

(** ** package go.uber.org/zap *)
Module zap.

(** A [zapcore.Field] as the handler builds it: [zap.String(key, val)] or
    [zap.Bool(key, val)]. *)
Inductive Field :=
| String (key : string) (val : string)
| Bool (key : string) (val : bool).

Definition Key (f : Field) : string :=
  match f with
  | String key _ => key
  | Bool key _ => key
  end.

End zap.

(** ** package caddyhttp *)
Module caddyhttp.

(** [ExtraLogFields]: the fields a handler adds to the access log of its
    request. *)
Abbreviation ExtraLogFields := (list zap.Field) (only parsing).

(** [e.Add(field)]. *)
Definition Add (e : ExtraLogFields) (field : zap.Field) : ExtraLogFields :=
  e ++ [field].

End caddyhttp.

(** Go's [error]: [None] is [nil]. *)
Definition error := option string.

(** ** package caddyconfig/caddyfile: the token dispenser *)
Module caddyfile.

(** A token of one Caddyfile (same file, same import chain). *)
Record Token := { Text : string; Line : nat }.

Record Dispenser := {
  tokens : list Token;
  cursor : Z;
  nesting : Z;
}.

(** [NewDispenser(tokens)]: the cursor starts before the first token. *)
Definition NewDispenser (toks : list Token) : Dispenser :=
  {| tokens := toks; cursor := -1; nesting := 0 |}.

Definition len (d : Dispenser) : Z := Z.of_nat (length (tokens d)).

Definition move (d : Dispenser) (by_ : Z) : Dispenser :=
  {| tokens := tokens d; cursor := cursor d + by_; nesting := nesting d |}.

Definition nest (d : Dispenser) (by_ : Z) : Dispenser :=
  {| tokens := tokens d; cursor := cursor d; nesting := nesting d + by_ |}.

(** [d.tokens[i]] when [i] is in range. *)
Definition at_ (d : Dispenser) (i : Z) : option Token :=
  if (i <? 0)%Z then None else tokens d !! Z.to_nat i.

(** [d.Next()]: the next token is loaded if there is one. *)
Definition Next (d : Dispenser) : bool * Dispenser :=
  if (cursor d <? len d - 1)%Z then (true, move d 1) else (false, d).

(** [d.Val()]: the text of the current token, [""] off the tokens. *)
Definition Val (d : Dispenser) : string :=
  match at_ d (cursor d) with
  | Some t => Text t
  | None => EmptyString
  end.

Definition NumLineBreaks (t : Token) : nat :=
  strings.Count (Text t) (ascii_of_N 10).

(** [t2] starts on a later line than [t1] ends on. *)
Definition isNextOnNewLine (t1 t2 : Token) : bool :=
  (Line t1 + NumLineBreaks t1 <? Line t2)%nat.

(** [d.nextOnSameLine()]: the next token is loaded if it is on the line of
    the current one. *)
Definition nextOnSameLine (d : Dispenser) : bool * Dispenser :=
  if (cursor d <? 0)%Z then (true, move d 1)
  else if (len d - 1 <=? cursor d)%Z then (false, d)
  else match at_ d (cursor d), at_ d (cursor d + 1) with
       | Some curr, Some next =>
           if isNextOnNewLine curr next then (false, d) else (true, move d 1)
       | _, _ => (false, d)
       end.

(** [d.NextArg()]: the next token of the line is loaded; an opening brace
    is no argument, the cursor is rolled back. *)
Definition NextArg (d : Dispenser) : bool * Dispenser :=
  let '(same, d1) := nextOnSameLine d in
  if negb same then (false, d1)
  else if String.eqb (Val d1) "{" then (false, move d1 (-1))
  else (true, d1).

(** [d.Val() == tok && !d.nextOnSameLine()], with the cursor move of
    [nextOnSameLine] when the left operand holds. *)
Definition val_at_line_end (d : Dispenser) (tok : string)
  : bool * Dispenser :=
  if String.eqb (Val d) tok then
    let '(same, d1) := nextOnSameLine d in (negb same, d1)
  else (false, d).

(** [d.NextBlock(initialNestingLevel)]: inside a block the next token is
    loaded and the braces at line ends are counted; outside, a block must
    open on the line of the current token. *)
Definition NextBlock (d : Dispenser) (initialNestingLevel : Z)
  : bool * Dispenser :=
  if (initialNestingLevel <? nesting d)%Z then
    let '(more, d1) := Next d in
    if negb more then (false, d1)
    else
      let '(closing, d2) := val_at_line_end d1 "}" in
      let d4 :=
        if closing then nest d2 (-1)
        else
          let '(opening, d3) := val_at_line_end d2 "{" in
          if opening then nest d3 1 else d3 in
      ((initialNestingLevel <? nesting d4)%Z, d4)
  else
    let '(same, d1) := nextOnSameLine d in
    if negb same then (false, d1)
    else if negb (String.eqb (Val d1) "{") then (false, move d1 (-1))
    else
      let d2 := (Next d1).2 in
      if String.eqb (Val d2) "}" then (false, d2)
      else (true, nest d2 1).

(** The messages of [d.ArgErr()] and [d.Errf(...)], without the
    file-and-line prefix the dispenser puts in front. *)
Definition ArgErr (d : Dispenser) : error :=
  if String.eqb (Val d) "{"
  then Some "unexpected token '{', expecting argument"
  else Some ("wrong argument count or unexpected line ending after '"
             +:+ Val d +:+ "'").

Definition Errf (msg : string) : error := Some msg.

End caddyfile.

(** ** package simpletrace *)

(** [SimpleTrace]: the handler's configuration. *)
Record SimpleTrace := {
  Format : string;
  ProjectID : string;
}.

(** What the handler reads and writes of an [*http.Request]: its header
    and the [*caddyhttp.ExtraLogFields] held by its context under
    [caddyhttp.ExtraLogFieldsCtxKey] ([None] when the context has no such
    value). *)
Record Request := {
  Header : http.Header;
  ExtraLogFields : option caddyhttp.ExtraLogFields;
}.

(** The local variables of [ServeHTTP] once the trace context is
    derived. *)
Record TraceContext := {
  traceID : string;
  spanID : string;
  parentSpanID : string;
  flags : string;
  sampled : bool;
}.

(** [parseSampledFlag]: the sampled bit (bit 0) of the flags byte. *)
Definition parseSampledFlag (flags : string) : bool :=
  if negb (Nat.eqb (String.length flags) 2) then false
  else
    match fmt.Sscanf_x 2 8 flags with
    | None => false
    | Some flagByte => N.land flagByte 0x01 =? 0x01
    end.

(** [make([]byte, n)]. *)
Definition make_bytes (n : nat) : list Byte.byte := replicate n Byte.x00.

(** [generateTraceID]: 16 random bytes in hexadecimal; the identifier and
    the number of [rand.Read] calls made so far. *)
Definition generateTraceID (R : rand.Reader) (k : nat) : string * nat :=
  let b := make_bytes 16 in
  let '(b, err) := rand.Read R k b in
  if err then (fmt.Sprintf_0x 32 0, S k)
  else (hex.EncodeToString b, S k).

(** [generateSpanID]: 8 random bytes in hexadecimal. *)
Definition generateSpanID (R : rand.Reader) (k : nat) : string * nat :=
  let b := make_bytes 8 in
  let '(b, err) := rand.Read R k b in
  if err then (fmt.Sprintf_0x 16 0, S k)
  else (hex.EncodeToString b, S k).

Section SimpleTraceHandler.

(** [http.ResponseWriter], handed through to the next handler. *)
Variable ResponseWriter : Type.

(** [caddyhttp.Handler]: [next.ServeHTTP(w, r)]. *)
Definition Handler : Type := ResponseWriter -> Request -> error.

(** What a call of [ServeHTTP] computes and does. *)
Record Served := {
  context : TraceContext;
  newTraceParent : string;
  logFields : list zap.Field;
  (** [rand.Read] calls made, counted on from the [k] given *)
  reads : nat;
  (** the request handed to [next] and the error returned; [None] when
      the type assertion on the context value panics *)
  returned : option (Request * error);
}.

(** [ServeHTTP]; [R] and [k] are the entropy source and the number of
    [rand.Read] calls made before. *)
Definition ServeHTTP (st : SimpleTrace) (w : ResponseWriter) (r : Request)
    (next : Handler) (R : rand.Reader) (k : nat) : Served :=
  let traceParent := http.Get (Header r) "traceparent" in
  let '(ctx, k') :=
    if negb (String.eqb traceParent "") then
      let parts := strings.Split traceParent dash in
      if Nat.eqb (length parts) 4 && String.eqb (nth 0 parts "") "00" then
        let traceID := nth 1 parts "" in
        let parentSpanID := nth 2 parts "" in
        let flags := nth 3 parts "" in
        let sampled := parseSampledFlag flags in
        let '(spanID, k1) := generateSpanID R k in
        (Build_TraceContext traceID spanID parentSpanID flags sampled, k1)
      else
        let '(traceID, k1) := generateTraceID R k in
        let '(spanID, k2) := generateSpanID R k1 in
        (Build_TraceContext traceID spanID "" "01" true, k2)
    else
      let '(traceID, k1) := generateTraceID R k in
      let '(spanID, k2) := generateSpanID R k1 in
      (Build_TraceContext traceID spanID "" "01" true, k2) in
  let newTraceParent :=
    "00-" +:+ traceID ctx +:+ "-" +:+ spanID ctx +:+ "-" +:+ flags ctx in
  let format := Format st in
  let format := if String.eqb format "" then "otel" else format in
  let parent (key : string) : list zap.Field :=
    if negb (String.eqb (parentSpanID ctx) "")
    then [zap.String key (parentSpanID ctx)] else [] in
  let logFields :=
    if String.eqb format "stackdriver" || String.eqb format "gcp" then
      let traceField :=
        if negb (String.eqb (ProjectID st) "")
        then "projects/" +:+ ProjectID st +:+ "/traces/" +:+ traceID ctx
        else traceID ctx in
      [ zap.String "logging.googleapis.com/trace" traceField;
        zap.String "logging.googleapis.com/spanId" (spanID ctx);
        zap.Bool "logging.googleapis.com/trace_sampled" (sampled ctx) ]
      ++ parent "parent_span_id"
    else if String.eqb format "tempo" then
      [ zap.String "traceID" (traceID ctx);
        zap.String "spanID" (spanID ctx);
        zap.Bool "traceSampled" (sampled ctx) ]
      ++ parent "parentSpanID"
    else if String.eqb format "ecs" then
      [ zap.String "trace.id" (traceID ctx);
        zap.String "span.id" (spanID ctx);
        zap.Bool "trace.sampled" (sampled ctx) ]
      ++ parent "span.parent_id"
    else if String.eqb format "datadog" || String.eqb format "dd" then
      [ zap.String "dd.trace_id" (traceID ctx);
        zap.String "dd.span_id" (spanID ctx);
        zap.Bool "dd.sampled" (sampled ctx) ]
      ++ parent "dd.parent_id"
    else
      [ zap.String "trace_id" (traceID ctx);
        zap.String "span_id" (spanID ctx);
        zap.Bool "trace_sampled" (sampled ctx) ]
      ++ parent "parent_span_id" in
  let returned :=
    match ExtraLogFields r with
    | None => None
    | Some extra =>
        let extra := fold_left caddyhttp.Add logFields extra in
        let r' := {| Header := http.Set_ (Header r) "traceparent" newTraceParent;
                     ExtraLogFields := Some extra |} in
        Some (r', next w r')
    end in
  {| context := ctx; newTraceParent := newTraceParent;
     logFields := logFields; reads := k'; returned := returned |}.

(** [caddy.Replacer.ReplaceAll(input, empty)] of the replacer made by
    [caddy.NewReplacer()]: placeholders such as [{env.NAME}] are replaced
    from the process environment. *)
Variable ReplaceAll : string -> string -> string.

(** [Provision]: the configuration after provisioning and the error
    returned. *)
Definition Provision (st : SimpleTrace) : SimpleTrace * error :=
  let st := {| Format := Format st;
               ProjectID := ReplaceAll (ProjectID st) "" |} in
  let st :=
    if String.eqb (ProjectID st) ""
       && (String.eqb (Format st) "stackdriver" || String.eqb (Format st) "gcp")
    then {| Format := Format st;
            ProjectID := ReplaceAll "{env.GOOGLE_CLOUD_PROJECT}" "" |}
    else st in
  (st, None).

End SimpleTraceHandler.

(** How a loop of [UnmarshalCaddyfile] ends: its condition turned false,
    or the function returned from inside it. *)
Inductive loop_exit :=
| LoopDone
| Return (err : error).

(** [for d.NextBlock(0) { switch d.Val() { ... } }].  Every turn moves the
    cursor on, so [fuel] above the number of tokens is never used up;
    [None] is fuel used up. *)
Fixpoint for_NextBlock (fuel : nat) (st : SimpleTrace) (d : caddyfile.Dispenser)
  : option (SimpleTrace * caddyfile.Dispenser * loop_exit) :=
  match fuel with
  | O => None
  | S fuel' =>
      let '(inside, d) := caddyfile.NextBlock d 0 in
      if negb inside then Some (st, d, LoopDone)
      else if String.eqb (caddyfile.Val d) "format" then
        let '(arg, d) := caddyfile.NextArg d in
        if negb arg then Some (st, d, Return (caddyfile.ArgErr d))
        else
          for_NextBlock fuel'
            {| Format := caddyfile.Val d; ProjectID := ProjectID st |} d
      else if String.eqb (caddyfile.Val d) "project_id" then
        let '(arg, d) := caddyfile.NextArg d in
        if negb arg then Some (st, d, Return (caddyfile.ArgErr d))
        else
          for_NextBlock fuel'
            {| Format := Format st; ProjectID := caddyfile.Val d |} d
      else
        Some (st, d,
              Return (caddyfile.Errf
                        ("unknown subdirective: " +:+ caddyfile.Val d)))
  end.

(** [for d.Next() { for d.NextBlock(0) { ... } }]. *)
Fixpoint for_Next (fuel : nat) (st : SimpleTrace) (d : caddyfile.Dispenser)
  : option (SimpleTrace * caddyfile.Dispenser * error) :=
  match fuel with
  | O => None
  | S fuel' =>
      let '(more, d) := caddyfile.Next d in
      if negb more then Some (st, d, None)
      else
        match for_NextBlock (S (length (caddyfile.tokens d))) st d with
        | None => None
        | Some (st, d, Return err) => Some (st, d, err)
        | Some (st, d, LoopDone) => for_Next fuel' st d
        end
  end.

(** [UnmarshalCaddyfile]: the configuration and dispenser after the call,
    and the error returned. *)
Definition UnmarshalCaddyfile (st : SimpleTrace) (d : caddyfile.Dispenser)
  : option (SimpleTrace * caddyfile.Dispenser * error) :=
  for_Next (S (length (caddyfile.tokens d))) st d.

(** [parseCaddyfile]: a zero [SimpleTrace] unmarshalled from the
    directive's tokens. *)
Definition parseCaddyfile (d : caddyfile.Dispenser)
  : option (SimpleTrace * error) :=
  match UnmarshalCaddyfile {| Format := ""; ProjectID := "" |} d with
  | Some (st, _, err) => Some (st, err)
  | None => None
  end.

(** ** The specification's vocabulary table and Field Mapper *)

Arguments ServeHTTP {ResponseWriter} st w r next R k.
Arguments Provision ReplaceAll st : simpl never.

(** The field names of a vocabulary: a row of the specification's
    table. *)
Record Vocabulary := {
  trace_key : string;
  span_key : string;
  sampled_key : string;
  parent_key : string;
}.

Definition generic : Vocabulary :=
  {| trace_key := "trace_id"; span_key := "span_id";
     sampled_key := "trace_sampled"; parent_key := "parent_span_id" |}.

Definition cloud_logging : Vocabulary :=
  {| trace_key := "logging.googleapis.com/trace";
     span_key := "logging.googleapis.com/spanId";
     sampled_key := "logging.googleapis.com/trace_sampled";
     parent_key := "parent_span_id" |}.

Definition tempo_style : Vocabulary :=
  {| trace_key := "traceID"; span_key := "spanID";
     sampled_key := "traceSampled"; parent_key := "parentSpanID" |}.

Definition common_schema : Vocabulary :=
  {| trace_key := "trace.id"; span_key := "span.id";
     sampled_key := "trace.sampled"; parent_key := "span.parent_id" |}.

Definition vendor_agent : Vocabulary :=
  {| trace_key := "dd.trace_id"; span_key := "dd.span_id";
     sampled_key := "dd.sampled"; parent_key := "dd.parent_id" |}.

(** The format names that select the cloud-logging vocabulary, and those
    that select another vocabulary of their own. *)
Definition cloud_names : list string := ["stackdriver"; "gcp"].
Definition vendor_names : list string := ["tempo"; "ecs"; "datadog"; "dd"].

Definition selected (format : string) : Vocabulary :=
  if bool_decide (format ∈ cloud_names) then cloud_logging
  else if bool_decide (format = "tempo") then tempo_style
  else if bool_decide (format = "ecs") then common_schema
  else if bool_decide (format ∈ ["datadog"; "dd"]) then vendor_agent
  else generic.

(** The vocabulary of a configuration: an empty format is ["otel"]. *)
Definition vocabulary (st : SimpleTrace) : Vocabulary :=
  selected (if bool_decide (Format st = "") then "otel" else Format st).

(** The specification's Field Mapper: trace id (through the vocabulary's
    transform), span id and sampled always, the parent span id when there
    is one. *)
Definition map_fields (v : Vocabulary) (transform : string -> string)
    (c : TraceContext) : list zap.Field :=
  [ zap.String (trace_key v) (transform (traceID c));
    zap.String (span_key v) (spanID c);
    zap.Bool (sampled_key v) (sampled c) ]
  ++ (if bool_decide (parentSpanID c = "") then []
      else [zap.String (parent_key v) (parentSpanID c)]).

(** The resource-path transform of the cloud-logging vocabulary. *)
Definition resource_path (project_id trace_id : string) : string :=
  if bool_decide (project_id = "") then trace_id
  else "projects/" +:+ project_id +:+ "/traces/" +:+ trace_id.

Definition transform_of (st : SimpleTrace) : string -> string :=
  if bool_decide (Format st ∈ cloud_names) then resource_path (ProjectID st)
  else fun trace_id => trace_id.

(** Whether the header is taken up: four fields, the first of them
    ["00"] (lines 64 and 68). *)
Definition well_formed (s : string) : Prop :=
  exists t p f, strings.Split s dash = ["00"; t; p; f].

(** ** Requests, headers and concrete surroundings *)

(** The parent-span field names of all vocabularies. *)
Definition parent_keys : list string :=
  map parent_key [generic; cloud_logging; tempo_style; common_schema; vendor_agent].

(** A request whose header is not taken up: no [traceparent], an empty
    one, not four fields, or a first field that is not ["00"]. *)
Definition malformed (r : Request) : Prop :=
  let s := http.Get (Header r) "traceparent" in
  Header r !! "Traceparent" = None
  \/ s = ""
  \/ length (strings.Split s dash) <> 4%nat
  \/ nth 0 (strings.Split s dash) "" <> "00".

(** The wire shape [00-<32 hex>-<16 hex>-<2 hex>], for a class of
    hexadecimal characters. *)
Definition wire_shape (hexchar : ascii -> bool) (s : string) : bool :=
  match strings.Split s dash with
  | [v; t; p; f] =>
      String.eqb v "00" && fixed_width hexchar 32 t
      && fixed_width hexchar 16 p && fixed_width hexchar 2 f
  | _ => false
  end.

(** Concrete surroundings: an entropy source that always fails, one that
    delivers the bytes of a list over and over, a next handler that
    returns [nil], requests with and without a [traceparent]. *)
Definition no_entropy : rand.Reader :=
  {| rand.fails := fun _ => true; rand.byte_at := fun _ _ => Byte.x00 |}.

Definition entropy_of (bs : list Byte.byte) : rand.Reader :=
  {| rand.fails := fun _ => false;
     rand.byte_at := fun _ i => nth i bs Byte.x00 |}.

(** The bytes [a1 b2 c3 d4 e5 f6 07 18], then zeros. *)
Definition some_entropy : rand.Reader :=
  entropy_of [Byte.xa1; Byte.xb2; Byte.xc3; Byte.xd4;
              Byte.xe5; Byte.xf6; Byte.x07; Byte.x18].

Definition next_ok : Handler unit := fun _ _ => None.

Definition request_with (traceparent : string) : Request :=
  {| Header := {[ "Traceparent" := [traceparent] ]};
     ExtraLogFields := Some [] |}.

Definition request_without : Request :=
  {| Header := ∅; ExtraLogFields := Some [] |}.

Definition tok (text : string) (line : nat) : caddyfile.Token :=
  {| caddyfile.Text := text; caddyfile.Line := line |}.

(** The tokens of the three lines
    [simpletrace {], [<key> <value>] and [}]. *)
Definition directive (key value : string) : list caddyfile.Token :=
  [ tok "simpletrace" 1; tok "{" 1; tok key 2; tok value 2; tok "}" 3 ].

(** The dispenser over [toks] with the cursor at [c], nested [n] deep. *)
Definition dispenser_at (toks : list caddyfile.Token) (c n : Z)
  : caddyfile.Dispenser :=
  {| caddyfile.tokens := toks; caddyfile.cursor := c; caddyfile.nesting := n |}.

(** A replacer over an empty environment: nothing to replace in a text
    without placeholders, a placeholder gives the [empty] text. *)
Definition ReplaceAll_no_env (input empty : string) : string :=
  if String.eqb input "{env.GOOGLE_CLOUD_PROJECT}" then empty else input.

(** ** The scan of a two-byte flags field *)

Definition all_ascii : list ascii := map ascii_of_nat (seq 0 256).

(** What [Sscanf] makes of two bytes under [%02x]: two hexadecimal
    digits are a byte; one digit followed by anything else is that digit's
    value; a blank (tab, vertical tab, form feed, carriage return, space)
    followed by a digit is skipped. *)
Definition is_blank (c : ascii) : bool :=
  existsb (N.eqb (byte_of c)) [9; 11; 12; 13; 32].

Definition scanned_two (c1 c2 : ascii) : option N :=
  if is_hex c1 then
    Some (if is_hex c2
          then 16 * fmt.hex_value (byte_of c1) + fmt.hex_value (byte_of c2)
          else fmt.hex_value (byte_of c1))
  else if is_blank c1 && is_hex c2 then Some (fmt.hex_value (byte_of c2))
  else None.

Definition option_N_eqb (a b : option N) : bool :=
  match a, b with
  | Some x, Some y => x =? y
  | None, None => true
  | _, _ => false
  end.

(** ** Positions of the dispenser *)

(** The cursor is on a token. *)
Definition on_token (d : caddyfile.Dispenser) : Prop :=
  (0 <= caddyfile.cursor d <= caddyfile.len d - 1)%Z.

(** [d'] is [d] with the cursor moved on by [n] tokens at least, still on
    a token. *)
Definition moved_on (n : Z) (d d' : caddyfile.Dispenser) : Prop :=
  caddyfile.tokens d' = caddyfile.tokens d
  /\ (caddyfile.cursor d + n <= caddyfile.cursor d' <= caddyfile.len d - 1)%Z.

(** ** The earlier revision of the handler

    The repository also holds the handler as it was before the [format]
    option: one switch, [UseStackdriverFormat], set by the [stackdriver]
    subdirective with an optional project id.  [parseSampledFlag],
    [generateTraceID] and [generateSpanID] are the same functions in both
    revisions. *)
Module v1.

Record SimpleTrace := {
  UseStackdriverFormat : bool;
  ProjectID : string;
}.

(** [ServeHTTP] of the earlier revision. *)
Definition ServeHTTP {ResponseWriter : Type} (st : SimpleTrace)
    (w : ResponseWriter) (r : Request) (next : Handler ResponseWriter)
    (R : rand.Reader) (k : nat) : Served :=
  let traceParent := http.Get (Header r) "traceparent" in
  let '(ctx, k') :=
    if negb (String.eqb traceParent "") then
      let parts := strings.Split traceParent dash in
      if Nat.eqb (length parts) 4 && String.eqb (nth 0 parts "") "00" then
        let traceID := nth 1 parts "" in
        let parentSpanID := nth 2 parts "" in
        let flags := nth 3 parts "" in
        let sampled := parseSampledFlag flags in
        let '(spanID, k1) := generateSpanID R k in
        (Build_TraceContext traceID spanID parentSpanID flags sampled, k1)
      else
        let '(traceID, k1) := generateTraceID R k in
        let '(spanID, k2) := generateSpanID R k1 in
        (Build_TraceContext traceID spanID "" "01" true, k2)
    else
      let '(traceID, k1) := generateTraceID R k in
      let '(spanID, k2) := generateSpanID R k1 in
      (Build_TraceContext traceID spanID "" "01" true, k2) in
  let newTraceParent :=
    "00-" +:+ traceID ctx +:+ "-" +:+ spanID ctx +:+ "-" +:+ flags ctx in
  let parent (key : string) : list zap.Field :=
    if negb (String.eqb (parentSpanID ctx) "")
    then [zap.String key (parentSpanID ctx)] else [] in
  let logFields :=
    if UseStackdriverFormat st then
      let traceField :=
        if negb (String.eqb (ProjectID st) "")
        then "projects/" +:+ ProjectID st +:+ "/traces/" +:+ traceID ctx
        else traceID ctx in
      [ zap.String "logging.googleapis.com/trace" traceField;
        zap.String "logging.googleapis.com/spanId" (spanID ctx);
        zap.Bool "logging.googleapis.com/trace_sampled" (sampled ctx) ]
      ++ parent "parent_span_id"
    else
      [ zap.String "trace_id" (traceID ctx);
        zap.String "span_id" (spanID ctx);
        zap.Bool "trace_sampled" (sampled ctx) ]
      ++ parent "parent_span_id" in
  let returned :=
    match ExtraLogFields r with
    | None => None
    | Some extra =>
        let extra := fold_left caddyhttp.Add logFields extra in
        let r' := {| Header := http.Set_ (Header r) "traceparent" newTraceParent;
                     ExtraLogFields := Some extra |} in
        Some (r', next w r')
    end in
  {| context := ctx; newTraceParent := newTraceParent;
     logFields := logFields; reads := k'; returned := returned |}.

(** [for d.NextBlock(0) { switch d.Val() { ... } }] of the earlier
    revision: [stackdriver] takes its argument if there is one. *)
Fixpoint for_NextBlock (fuel : nat) (st : SimpleTrace) (d : caddyfile.Dispenser)
  : option (SimpleTrace * caddyfile.Dispenser * loop_exit) :=
  match fuel with
  | O => None
  | S fuel' =>
      let '(inside, d) := caddyfile.NextBlock d 0 in
      if negb inside then Some (st, d, LoopDone)
      else if String.eqb (caddyfile.Val d) "stackdriver" then
        let st := {| UseStackdriverFormat := true; ProjectID := ProjectID st |} in
        let '(arg, d) := caddyfile.NextArg d in
        if arg then
          for_NextBlock fuel'
            {| UseStackdriverFormat := UseStackdriverFormat st;
               ProjectID := caddyfile.Val d |} d
        else for_NextBlock fuel' st d
      else
        Some (st, d,
              Return (caddyfile.Errf
                        ("unknown subdirective: " +:+ caddyfile.Val d)))
  end.

Fixpoint for_Next (fuel : nat) (st : SimpleTrace) (d : caddyfile.Dispenser)
  : option (SimpleTrace * caddyfile.Dispenser * error) :=
  match fuel with
  | O => None
  | S fuel' =>
      let '(more, d) := caddyfile.Next d in
      if negb more then Some (st, d, None)
      else
        match for_NextBlock (S (length (caddyfile.tokens d))) st d with
        | None => None
        | Some (st, d, Return err) => Some (st, d, err)
        | Some (st, d, LoopDone) => for_Next fuel' st d
        end
  end.

(** [UnmarshalCaddyfile] of the earlier revision. *)
Definition UnmarshalCaddyfile (st : SimpleTrace) (d : caddyfile.Dispenser)
  : option (SimpleTrace * caddyfile.Dispenser * error) :=
  for_Next (S (length (caddyfile.tokens d))) st d.

(** [parseCaddyfile] of the earlier revision. *)
Definition parseCaddyfile (d : caddyfile.Dispenser)
  : option (SimpleTrace * error) :=
  match UnmarshalCaddyfile {| UseStackdriverFormat := false; ProjectID := "" |} d with
  | Some (st, _, err) => Some (st, err)
  | None => None
  end.

End v1.

(** The configuration of the present revision that stands for one of the
    earlier revision. *)
Definition upgrade (st : v1.SimpleTrace) : SimpleTrace :=
  {| Format := if v1.UseStackdriverFormat st then "stackdriver" else "";
     ProjectID := v1.ProjectID st |}.

(** A replacer over an environment in which [GOOGLE_CLOUD_PROJECT] is
    [project]. *)
Definition ReplaceAll_env (project : string) (input empty : string) : string :=
  if String.eqb input "{env.GOOGLE_CLOUD_PROJECT}" then project else input.

(** ** Blocks of subdirectives *)

(** What [UnmarshalCaddyfile] does with a line [<key> <value>] whose key
    is [format] or [project_id]. *)
Definition assign (st : SimpleTrace) (line : string * string) : SimpleTrace :=
  if String.eqb line.1 "format"
  then {| Format := line.2; ProjectID := ProjectID st |}
  else {| Format := Format st; ProjectID := line.2 |}.

Definition good_line (line : string * string) : Prop :=
  (line.1 = "format" \/ line.1 = "project_id") /\ line.2 <> "{".

(** The tokens of the lines [<key> <value>], one line each, from line
    [ln] on. *)
Fixpoint line_tokens (ln : nat) (lines : list (string * string))
  : list caddyfile.Token :=
  match lines with
  | [] => []
  | (key, value) :: rest =>
      tok key ln :: tok value ln :: line_tokens (S ln) rest
  end.

(** The tokens of [simpletrace {], the lines, and what follows them. *)
Definition block (lines : list (string * string))
    (closing : list caddyfile.Token) : list caddyfile.Token :=
  tok "simpletrace" 1 :: tok "{" 1 :: line_tokens 2 lines ++ closing.

(** ** What a configuration can hold *)

(** [value] is [initial] or the text of one of the tokens. *)
Definition from_tokens (toks : list caddyfile.Token) (initial value : string)
  : Prop :=
  value = initial \/ exists t, t ∈ toks /\ value = caddyfile.Text t.

(** The errors of [UnmarshalCaddyfile]: none, a missing argument after
    [format] or [project_id], or an unknown subdirective that is the text
    of one of the tokens. *)
Definition config_error (toks : list caddyfile.Token) (err : error) : Prop :=
  err = None
  \/ err = Some "wrong argument count or unexpected line ending after 'format'"
  \/ err = Some "wrong argument count or unexpected line ending after 'project_id'"
  \/ exists t, t ∈ toks /\ caddyfile.Text t <> "format"
       /\ caddyfile.Text t <> "project_id"
       /\ err = Some ("unknown subdirective: " +:+ caddyfile.Text t).

(** ** The handler in its process

    [generateTraceID], [generateSpanID] and [ServeHTTP] once more, as
    calls that may not return: [None] is the end of the process inside
    [rand.Read] (see [rand.Read_in]).  The functions above give what these
    calls return when they return. *)
Module process.

(** [generateTraceID], built with release [g]. *)
Definition generateTraceID (g : rand.Release) (R : rand.Reader) (k : nat)
  : option (string * nat) :=
  let b := make_bytes 16 in
  match rand.Read_in g R k b with
  | None => None
  | Some (b, err) =>
      if err then Some (fmt.Sprintf_0x 32 0, S k)
      else Some (hex.EncodeToString b, S k)
  end.

(** [generateSpanID], built with release [g]. *)
Definition generateSpanID (g : rand.Release) (R : rand.Reader) (k : nat)
  : option (string * nat) :=
  let b := make_bytes 8 in
  match rand.Read_in g R k b with
  | None => None
  | Some (b, err) =>
      if err then Some (fmt.Sprintf_0x 16 0, S k)
      else Some (hex.EncodeToString b, S k)
  end.

(** [ServeHTTP], built with release [g]: the process may end where the
    identifiers are generated (lines 75, 78-79 and 85-86), before the
    header is set and before [next] is called. *)
Definition ServeHTTP {ResponseWriter : Type} (g : rand.Release)
    (st : SimpleTrace) (w : ResponseWriter) (r : Request)
    (next : Handler ResponseWriter) (R : rand.Reader) (k : nat)
  : option Served :=
  let traceParent := http.Get (Header r) "traceparent" in
  let derived :=
    if negb (String.eqb traceParent "") then
      let parts := strings.Split traceParent dash in
      if Nat.eqb (length parts) 4 && String.eqb (nth 0 parts "") "00" then
        let traceID := nth 1 parts "" in
        let parentSpanID := nth 2 parts "" in
        let flags := nth 3 parts "" in
        let sampled := parseSampledFlag flags in
        match generateSpanID g R k with
        | None => None
        | Some (spanID, k1) =>
            Some (Build_TraceContext traceID spanID parentSpanID flags sampled, k1)
        end
      else
        match generateTraceID g R k with
        | None => None
        | Some (traceID, k1) =>
            match generateSpanID g R k1 with
            | None => None
            | Some (spanID, k2) =>
                Some (Build_TraceContext traceID spanID "" "01" true, k2)
            end
        end
    else
      match generateTraceID g R k with
      | None => None
      | Some (traceID, k1) =>
          match generateSpanID g R k1 with
          | None => None
          | Some (spanID, k2) =>
              Some (Build_TraceContext traceID spanID "" "01" true, k2)
          end
      end in
  match derived with
  | None => None
  | Some (ctx, k') =>
      let newTraceParent :=
        "00-" +:+ traceID ctx +:+ "-" +:+ spanID ctx +:+ "-" +:+ flags ctx in
      let format := Format st in
      let format := if String.eqb format "" then "otel" else format in
      let parent (key : string) : list zap.Field :=
        if negb (String.eqb (parentSpanID ctx) "")
        then [zap.String key (parentSpanID ctx)] else [] in
      let logFields :=
        if String.eqb format "stackdriver" || String.eqb format "gcp" then
          let traceField :=
            if negb (String.eqb (ProjectID st) "")
            then "projects/" +:+ ProjectID st +:+ "/traces/" +:+ traceID ctx
            else traceID ctx in
          [ zap.String "logging.googleapis.com/trace" traceField;
            zap.String "logging.googleapis.com/spanId" (spanID ctx);
            zap.Bool "logging.googleapis.com/trace_sampled" (sampled ctx) ]
          ++ parent "parent_span_id"
        else if String.eqb format "tempo" then
          [ zap.String "traceID" (traceID ctx);
            zap.String "spanID" (spanID ctx);
            zap.Bool "traceSampled" (sampled ctx) ]
          ++ parent "parentSpanID"
        else if String.eqb format "ecs" then
          [ zap.String "trace.id" (traceID ctx);
            zap.String "span.id" (spanID ctx);
            zap.Bool "trace.sampled" (sampled ctx) ]
          ++ parent "span.parent_id"
        else if String.eqb format "datadog" || String.eqb format "dd" then
          [ zap.String "dd.trace_id" (traceID ctx);
            zap.String "dd.span_id" (spanID ctx);
            zap.Bool "dd.sampled" (sampled ctx) ]
          ++ parent "dd.parent_id"
        else
          [ zap.String "trace_id" (traceID ctx);
            zap.String "span_id" (spanID ctx);
            zap.Bool "trace_sampled" (sampled ctx) ]
          ++ parent "parent_span_id" in
      let returned :=
        match ExtraLogFields r with
        | None => None
        | Some extra =>
            let extra := fold_left caddyhttp.Add logFields extra in
            let r' := {| Header := http.Set_ (Header r) "traceparent" newTraceParent;
                         ExtraLogFields := Some extra |} in
            Some (r', next w r')
        end in
      Some {| context := ctx; newTraceParent := newTraceParent;
              logFields := logFields; reads := k'; returned := returned |}
  end.

End process.

(** * Properties *)

(** ** Strings and [strings.Split] *)

Lemma fixed_width_spec (p : ascii -> bool) (n : nat) (s : string) :
  fixed_width p n s = true <->
  String.length s = n /\ string_forallb p s = true.
Proof.
  unfold fixed_width. rewrite andb_true_iff, Nat.eqb_eq. reflexivity.
Qed.

Lemma string_forallb_impl (p q : ascii -> bool) (s : string) :
  (forall c, p c = true -> q c = true) ->
  string_forallb p s = true -> string_forallb q s = true.
Proof.
  intros I. induction s as [|c s IH]; simpl; [reflexivity|].
  rewrite !andb_true_iff. intros [Hc Hs]. auto.
Qed.

Lemma Split_not_nil (s : string) (sep : ascii) : strings.Split s sep <> [].
Proof.
  destruct s as [|c r]; simpl; [discriminate|].
  destruct (Ascii.eqb c sep); [discriminate|].
  destruct (strings.Split r sep); discriminate.
Qed.

(** Splitting loses nothing: joining the fields gives the string back. *)
Lemma Join_Split (s : string) (sep : ascii) :
  strings.Join (strings.Split s sep) sep = s.
Proof.
  induction s as [|c r IH]; simpl; [reflexivity|].
  destruct (Ascii.eqb c sep) eqn:E.
  - apply Ascii.eqb_eq in E. subst c.
    pose proof (Split_not_nil r sep) as Hn.
    destruct (strings.Split r sep) as [|f fs]; [congruence|].
    change (strings.Join (EmptyString :: f :: fs) sep)
      with (String sep (strings.Join (f :: fs) sep)).
    now rewrite IH.
  - pose proof (Split_not_nil r sep) as Hn.
    destruct (strings.Split r sep) as [|f fs]; [congruence|].
    destruct fs as [|g gs]; simpl in *; now rewrite <- IH.
Qed.

Lemma Split_length (s : string) (sep : ascii) :
  length (strings.Split s sep) = S (strings.Count s sep).
Proof.
  induction s as [|c r IH]; simpl; [reflexivity|].
  destruct (Ascii.eqb c sep); simpl; [now rewrite IH|].
  pose proof (Split_not_nil r sep) as Hn.
  destruct (strings.Split r sep) as [|f fs]; [congruence|].
  simpl in *. exact IH.
Qed.

(** No field holds the separator. *)
Lemma Split_fields (s : string) (sep : ascii) :
  Forall (fun f => string_forallb (fun c => negb (Ascii.eqb c sep)) f = true)
         (strings.Split s sep).
Proof.
  induction s as [|c r IH]; simpl.
  - repeat constructor.
  - destruct (Ascii.eqb c sep) eqn:E.
    + constructor; [reflexivity | exact IH].
    + destruct (strings.Split r sep) as [|f fs].
      * repeat constructor. simpl. now rewrite E.
      * inversion IH; subst. constructor; [|assumption].
        simpl. rewrite E. simpl. assumption.
Qed.

Lemma Split_app (a r : string) (sep : ascii) :
  string_forallb (fun c => negb (Ascii.eqb c sep)) a = true ->
  strings.Split (a +:+ String sep r) sep = a :: strings.Split r sep.
Proof.
  induction a as [|c a IH]; simpl; intros H.
  - now rewrite Ascii.eqb_refl.
  - apply andb_true_iff in H as [Hc Ha].
    apply negb_true_iff in Hc. rewrite Hc, (IH Ha). reflexivity.
Qed.

Lemma Split_single (a : string) (sep : ascii) :
  string_forallb (fun c => negb (Ascii.eqb c sep)) a = true ->
  strings.Split a sep = [a].
Proof.
  induction a as [|c a IH]; simpl; intros H; [reflexivity|].
  apply andb_true_iff in H as [Hc Ha].
  apply negb_true_iff in Hc. rewrite Hc, (IH Ha). reflexivity.
Qed.

Lemma Split_dash (a r : string) :
  no_dash a = true ->
  strings.Split (a +:+ "-" +:+ r) dash = a :: strings.Split r dash.
Proof. intros H. exact (Split_app a r dash H). Qed.

(** The four-field header is split into its fields, whatever they hold
    (dashes apart). *)
Lemma Split_traceparent (v t p f : string) :
  no_dash v = true -> no_dash t = true -> no_dash p = true ->
  no_dash f = true ->
  strings.Split (v +:+ "-" +:+ t +:+ "-" +:+ p +:+ "-" +:+ f) dash
  = [v; t; p; f].
Proof.
  intros Hv Ht Hp Hf.
  rewrite (Split_dash v _ Hv), (Split_dash t _ Ht), (Split_dash p _ Hp).
  rewrite (Split_single f dash Hf). reflexivity.
Qed.

(** Conversely, a string with the four fields [v], [t], [p], [f] is
    [v-t-p-f]. *)
Lemma Split_four_inv (s v t p f : string) :
  strings.Split s dash = [v; t; p; f] ->
  s = v +:+ "-" +:+ t +:+ "-" +:+ p +:+ "-" +:+ f
  /\ no_dash v = true /\ no_dash t = true /\ no_dash p = true
  /\ no_dash f = true.
Proof.
  intros H. split.
  - rewrite <- (Join_Split s dash), H. reflexivity.
  - pose proof (Split_fields s dash) as F. rewrite H in F.
    inversion F as [|? ? Hv F1]; subst.
    inversion F1 as [|? ? Ht F2]; subst.
    inversion F2 as [|? ? Hp F3]; subst.
    inversion F3 as [|? ? Hf _]; subst.
    unfold no_dash. auto.
Qed.

Lemma hex_not_dash (c : ascii) : is_hex c = true -> negb (Ascii.eqb c dash) = true.
Proof.
  destruct (Ascii.eqb c dash) eqn:E; [|reflexivity].
  apply Ascii.eqb_eq in E. subst c. vm_compute. discriminate.
Qed.

Lemma lower_hex_is_hex (c : ascii) : is_lower_hex c = true -> is_hex c = true.
Proof. unfold is_hex. intros ->. reflexivity. Qed.

Lemma lower_hex_no_dash (s : string) :
  string_forallb is_lower_hex s = true -> no_dash s = true.
Proof.
  apply string_forallb_impl. intros c H.
  apply hex_not_dash, lower_hex_is_hex, H.
Qed.

(** ** The identifier generator *)

Lemma encode_byte_lower_hex (v : Byte.byte) :
  is_lower_hex (hex.digit (N.shiftr (Byte.to_N v) 4))
  && is_lower_hex (hex.digit (N.land (Byte.to_N v) 15)) = true.
Proof. destruct v; vm_compute; reflexivity. Qed.

Lemma EncodeToString_length (src : list Byte.byte) :
  String.length (hex.EncodeToString src) = (2 * length src)%nat.
Proof. induction src as [|v r IH]; simpl; [reflexivity | rewrite IH; lia]. Qed.

Lemma EncodeToString_lower_hex (src : list Byte.byte) :
  string_forallb is_lower_hex (hex.EncodeToString src) = true.
Proof.
  induction src as [|v r IH]; [reflexivity|].
  cbn [hex.EncodeToString string_forallb].
  rewrite IH, andb_true_r. apply encode_byte_lower_hex.
Qed.

(** [rand.Read] fills the buffer: its length is left as it was. *)
Lemma Read_length (R : rand.Reader) (k : nat) (b : list Byte.byte) :
  length (rand.Read R k b).1 = length b.
Proof.
  unfold rand.Read. destruct (rand.fails R k); simpl; [reflexivity|].
  apply length_imap.
Qed.

Lemma generateTraceID_reads (R : rand.Reader) (k : nat) :
  (generateTraceID R k).2 = S k.
Proof.
  unfold generateTraceID. destruct (rand.Read R k _) as [b err].
  now destruct err.
Qed.

Lemma generateSpanID_reads (R : rand.Reader) (k : nat) :
  (generateSpanID R k).2 = S k.
Proof.
  unfold generateSpanID. destruct (rand.Read R k _) as [b err].
  now destruct err.
Qed.

(** A generated trace id is 32 lower-case hexadecimal characters, with or
    without entropy. *)
Lemma generateTraceID_shape (R : rand.Reader) (k : nat) :
  fixed_width is_lower_hex 32 (generateTraceID R k).1 = true.
Proof.
  unfold generateTraceID.
  pose proof (Read_length R k (make_bytes 16)) as L.
  destruct (rand.Read R k _) as [b err]. simpl in L.
  destruct err; [vm_compute; reflexivity|].
  apply fixed_width_spec. cbn [fst]. split.
  - rewrite EncodeToString_length, L. reflexivity.
  - apply EncodeToString_lower_hex.
Qed.

(** A generated span id is 16 lower-case hexadecimal characters. *)
Lemma generateSpanID_shape (R : rand.Reader) (k : nat) :
  fixed_width is_lower_hex 16 (generateSpanID R k).1 = true.
Proof.
  unfold generateSpanID.
  pose proof (Read_length R k (make_bytes 8)) as L.
  destruct (rand.Read R k _) as [b err]. simpl in L.
  destruct err; [vm_compute; reflexivity|].
  apply fixed_width_spec. cbn [fst]. split.
  - rewrite EncodeToString_length, L. reflexivity.
  - apply EncodeToString_lower_hex.
Qed.

(** The generated span id belongs to every class of characters that has
    the lower-case hexadecimal digits. *)
Lemma generateSpanID_in_class (hexchar : ascii -> bool) (R : rand.Reader) (k : nat) :
  (forall c, is_lower_hex c = true -> hexchar c = true) ->
  fixed_width hexchar 16 (generateSpanID R k).1 = true.
Proof.
  intros I. pose proof (generateSpanID_shape R k) as H.
  apply fixed_width_spec in H as [L F]. apply fixed_width_spec. split; [exact L|].
  exact (string_forallb_impl _ _ _ I F).
Qed.

(** Without entropy the identifiers are the all-zero strings. *)
Lemma generateTraceID_fallback (R : rand.Reader) (k : nat) :
  rand.fails R k = true ->
  generateTraceID R k = ("00000000000000000000000000000000", S k).
Proof.
  intros F. unfold generateTraceID, rand.Read. rewrite F. reflexivity.
Qed.

Lemma generateSpanID_fallback (R : rand.Reader) (k : nat) :
  rand.fails R k = true ->
  generateSpanID R k = ("0000000000000000", S k).
Proof.
  intros F. unfold generateSpanID, rand.Read. rewrite F. reflexivity.
Qed.

Lemma generateTraceID_random (R : rand.Reader) (k : nat) :
  rand.fails R k = false ->
  generateTraceID R k
  = (hex.EncodeToString (map (rand.byte_at R k) (seq 0 16)), S k).
Proof.
  intros F. unfold generateTraceID, rand.Read. rewrite F. reflexivity.
Qed.

(** With entropy they are the hexadecimal form of the bytes read. *)
Lemma generateSpanID_random (R : rand.Reader) (k : nat) :
  rand.fails R k = false ->
  generateSpanID R k
  = (hex.EncodeToString (map (rand.byte_at R k) (seq 0 8)), S k).
Proof.
  intros F. unfold generateSpanID, rand.Read. rewrite F. reflexivity.
Qed.

(** ** The sampled flag *)

Lemma in_all_ascii (c : ascii) : In c all_ascii.
Proof.
  unfold all_ascii. rewrite <- (ascii_nat_embedding c).
  apply in_map, in_seq. pose proof (nat_ascii_bounded c). lia.
Qed.

Lemma Sscanf_x_two (c1 c2 : ascii) :
  fmt.Sscanf_x 2 8 (String c1 (String c2 EmptyString)) = scanned_two c1 c2.
Proof.
  assert (forallb (fun a => forallb (fun b =>
            option_N_eqb (fmt.Sscanf_x 2 8 (String a (String b EmptyString)))
                         (scanned_two a b)) all_ascii) all_ascii = true) as H
    by (vm_compute; reflexivity).
  rewrite forallb_forall in H. specialize (H c1 (in_all_ascii c1)).
  rewrite forallb_forall in H. specialize (H c2 (in_all_ascii c2)).
  destruct (fmt.Sscanf_x 2 8 _), (scanned_two c1 c2); simpl in H;
    try discriminate; [|reflexivity].
  apply N.eqb_eq in H. now subst.
Qed.

(** Any length but 2 is not sampled. *)
Lemma parseSampledFlag_length (flags : string) :
  String.length flags <> 2%nat -> parseSampledFlag flags = false.
Proof.
  intros H. unfold parseSampledFlag.
  apply Nat.eqb_neq in H. now rewrite H.
Qed.

(** Two bytes are sampled when [Sscanf] scans a value out of them whose
    bit 0 is set. *)
Lemma parseSampledFlag_two (c1 c2 : ascii) :
  parseSampledFlag (String c1 (String c2 EmptyString))
  = match scanned_two c1 c2 with
    | Some flagByte => N.land flagByte 1 =? 1
    | None => false
    end.
Proof. unfold parseSampledFlag. now rewrite Sscanf_x_two. Qed.

(** On a well-formed flags field, two hexadecimal digits, the result is
    bit 0 of the byte they encode. *)
Lemma parseSampledFlag_hex_byte (c1 c2 : ascii) :
  is_hex c1 = true -> is_hex c2 = true ->
  parseSampledFlag (String c1 (String c2 EmptyString))
  = N.testbit (16 * fmt.hex_value (byte_of c1) + fmt.hex_value (byte_of c2)) 0.
Proof.
  intros H1 H2. rewrite parseSampledFlag_two. unfold scanned_two.
  rewrite H1, H2. set (v := _ + _).
  rewrite N.bit0_odd. change 1 with (N.ones 1). rewrite N.land_ones.
  change (2 ^ 1) with 2. rewrite <- N.bit0_mod, N.bit0_odd.
  destruct (N.odd v); reflexivity.
Qed.

(** A flags field that starts with neither a hexadecimal digit nor a
    blank is not sampled. *)
Lemma parseSampledFlag_no_digit (c1 c2 : ascii) :
  is_hex c1 = false -> is_blank c1 = false ->
  parseSampledFlag (String c1 (String c2 EmptyString)) = false.
Proof.
  intros H1 H2. rewrite parseSampledFlag_two. unfold scanned_two.
  now rewrite H1, H2.
Qed.

(** The examples of the specification. *)
Lemma parseSampledFlag_examples :
  parseSampledFlag "01" = true /\ parseSampledFlag "00" = false
  /\ parseSampledFlag "ff" = true /\ parseSampledFlag "0" = false
  /\ parseSampledFlag "zz" = false.
Proof. vm_compute. repeat split. Qed.

(** C4, the code against the claim.  The claim has [parseSampledFlag]
    return false for every string that is not two hexadecimal digits;
    the code returns true for ["1z"] and for [" 1"]: neither is
    hexadecimal, yet [Sscanf] stops at the [z] after scanning [1], and
    skips the blank before it, without an error. *)
Theorem C4_parseSampledFlag_hex_prefix :
  string_forallb is_hex "1z" = false /\ parseSampledFlag "1z" = true
  /\ string_forallb is_hex " 1" = false /\ parseSampledFlag " 1" = true.
Proof. vm_compute. repeat split. Qed.

(** ** The handler, part by part *)

Lemma eqb_decide (a b : string) : String.eqb a b = bool_decide (a = b).
Proof.
  destruct (String.eqb a b) eqn:E.
  - apply String.eqb_eq in E. now rewrite bool_decide_eq_true_2.
  - apply String.eqb_neq in E. now rewrite bool_decide_eq_false_2.
Qed.

(** Settles the name tests of a goal: by computation once the format is
    a literal, from the disequalities in the context otherwise. *)
Ltac by_names :=
  repeat match goal with
         | |- context [bool_decide ?P] =>
             first
               [ rewrite (bool_decide_eq_true_2 P)
                   by (rewrite ?elem_of_cons, ?elem_of_nil; intuition congruence)
               | rewrite (bool_decide_eq_false_2 P)
                   by (rewrite ?elem_of_cons, ?elem_of_nil; intuition congruence) ]
         end;
  repeat match goal with
         | |- context [String.eqb ?a ?b] =>
             first
               [ rewrite (proj2 (String.eqb_eq a b)) by congruence
               | rewrite (proj2 (String.eqb_neq a b)) by congruence ]
         end;
  cbn [negb orb andb].

Lemma fold_Add (fields extra : list zap.Field) :
  fold_left caddyhttp.Add fields extra = extra ++ fields.
Proof.
  revert extra. induction fields as [|f fields IH]; intros extra; simpl.
  - now rewrite app_nil_r.
  - rewrite IH. unfold caddyhttp.Add. now rewrite <- app_assoc.
Qed.

Lemma Get_Set (h : http.Header) (key value : string) :
  http.Get (http.Set_ h key value) key = value.
Proof. unfold http.Get, http.Set_. now rewrite lookup_insert_eq. Qed.

Section Views.

Context {ResponseWriter : Type}.
Variables (st : SimpleTrace) (w : ResponseWriter) (r : Request).
Variables (next : Handler ResponseWriter) (R : rand.Reader) (k : nat).

Let sv := ServeHTTP st w r next R k.
Let traceParent := http.Get (Header r) "traceparent".

(** The outgoing header is built from the context (lines 91-92). *)
Lemma ServeHTTP_newTraceParent :
  newTraceParent sv
  = "00-" +:+ traceID (context sv) +:+ "-" +:+ spanID (context sv)
    +:+ "-" +:+ flags (context sv).
Proof.
  subst sv. unfold ServeHTTP.
  match goal with |- context [let '(_, _) := ?X in _] => destruct X end.
  reflexivity.
Qed.

(** The request goes on to [next] with the header and the log fields set,
    unless its context has no [ExtraLogFields]. *)
Lemma ServeHTTP_returned :
  returned sv =
  match ExtraLogFields r with
  | None => None
  | Some extra =>
      let r' := {| Header := http.Set_ (Header r) "traceparent" (newTraceParent sv);
                   ExtraLogFields := Some (extra ++ logFields sv) |} in
      Some (r', next w r')
  end.
Proof.
  subst sv. unfold ServeHTTP.
  match goal with |- context [let '(_, _) := ?X in _] => destruct X end.
  cbn [returned newTraceParent logFields].
  destruct (ExtraLogFields r) as [extra|]; [|reflexivity].
  now rewrite fold_Add.
Qed.

(** The switch on the format is the Field Mapper on the selected
    vocabulary. *)
Lemma ServeHTTP_logFields :
  logFields sv
  = map_fields (vocabulary st) (transform_of st) (context sv).
Proof.
  subst sv. unfold ServeHTTP.
  match goal with |- context [let '(_, _) := ?X in _] => destruct X as [c k'] end.
  cbn [logFields context].
  unfold map_fields, vocabulary, selected, transform_of, resource_path,
    cloud_names.
  rewrite (eqb_decide (parentSpanID c) ""), (eqb_decide (ProjectID st) "").
  rewrite (eqb_decide (Format st) "").
  destruct (bool_decide (parentSpanID c = "")), (bool_decide (ProjectID st = ""));
    (destruct (decide (Format st = "")) as [E0|E0];
     [ rewrite E0; by_names; reflexivity |]);
    rewrite (bool_decide_eq_false_2 _ E0);
    set (F := Format st) in *; clearbody F;
    (destruct (decide (F = "stackdriver")) as [->|N1]; [by_names; reflexivity|]);
    (destruct (decide (F = "gcp")) as [->|N2]; [by_names; reflexivity|]);
    (destruct (decide (F = "tempo")) as [->|N3]; [by_names; reflexivity|]);
    (destruct (decide (F = "ecs")) as [->|N4]; [by_names; reflexivity|]);
    (destruct (decide (F = "datadog")) as [->|N5]; [by_names; reflexivity|]);
    (destruct (decide (F = "dd")) as [->|N6]; [by_names; reflexivity|]);
    by_names; reflexivity.
Qed.

Lemma guard_true (s t p f : string) :
  strings.Split s dash = ["00"; t; p; f] ->
  negb (String.eqb s "") = true
  /\ Nat.eqb (length (strings.Split s dash)) 4
     && String.eqb (nth 0 (strings.Split s dash) "") "00" = true.
Proof.
  intros H. split.
  - destruct s; [discriminate H | reflexivity].
  - rewrite H. reflexivity.
Qed.

Lemma guard_false (s : string) :
  ~ well_formed s ->
  negb (String.eqb s "") = false
  \/ Nat.eqb (length (strings.Split s dash)) 4
     && String.eqb (nth 0 (strings.Split s dash) "") "00" = false.
Proof.
  intros H. right.
  destruct (_ && _) eqn:E; [|reflexivity].
  exfalso. apply H.
  apply andb_true_iff in E as [E4 E0].
  apply Nat.eqb_eq in E4. apply String.eqb_eq in E0.
  destruct (strings.Split s dash) as [|v [|t [|p [|f [|]]]]] eqn:ES;
    try discriminate.
  simpl in E0. subst v. now exists t, p, f.
Qed.

(** The accepted header: its fields are taken as they are, a span id is
    generated (lines 69-75). *)
Lemma ServeHTTP_adopts (t p f : string) :
  strings.Split traceParent dash = ["00"; t; p; f] ->
  context sv
  = {| traceID := t; spanID := (generateSpanID R k).1; parentSpanID := p;
       flags := f; sampled := parseSampledFlag f |}
  /\ reads sv = S k.
Proof.
  intros H. destruct (guard_true _ _ _ _ H) as [G1 G2].
  subst sv. unfold ServeHTTP. fold traceParent.
  rewrite G1, G2, H. cbn [nth].
  pose proof (generateSpanID_reads R k) as Hk.
  destruct (generateSpanID R k) as [sid k1]. simpl in Hk. subst k1.
  split; reflexivity.
Qed.

(** Any other header, or none: trace id and span id are generated, the
    flags are ["01"] (lines 76-89). *)
Lemma ServeHTTP_generates :
  ~ well_formed traceParent ->
  context sv
  = {| traceID := (generateTraceID R k).1;
       spanID := (generateSpanID R (S k)).1; parentSpanID := "";
       flags := "01"; sampled := true |}
  /\ reads sv = S (S k).
Proof.
  intros H.
  assert (forall (b1 b2 : bool) (X Y : TraceContext * nat),
            b1 = false \/ b2 = false ->
            (if b1 then if b2 then X else Y else Y) = Y) as pick.
  { intros [] [] X Y [E|E]; congruence. }
  subst sv. unfold ServeHTTP. fold traceParent.
  rewrite (pick _ _ _ _ (guard_false _ H)).
  pose proof (generateTraceID_reads R k) as Hk.
  destruct (generateTraceID R k) as [tid k1]. simpl in Hk. subst k1.
  pose proof (generateSpanID_reads R (S k)) as Hk.
  destruct (generateSpanID R (S k)) as [sid k2]. simpl in Hk. subst k2.
  split; reflexivity.
Qed.

End Views.

(** Whether a header is taken up can be told. *)
Lemma classic_well_formed (s : string) : well_formed s \/ ~ well_formed s.
Proof.
  unfold well_formed.
  destruct (strings.Split s dash) as [|v [|t [|p [|f [|]]]]];
    try (right; intros (? & ? & ? & ?); discriminate).
  destruct (decide (v = "00")) as [->|N].
  - left. now exists t, p, f.
  - right. intros (? & ? & ? & H). congruence.
Qed.

Lemma malformed_not_well_formed (r : Request) :
  malformed r -> ~ well_formed (http.Get (Header r) "traceparent").
Proof.
  unfold malformed, well_formed, http.Get.
  change (http.CanonicalMIMEHeaderKey "traceparent") with "Traceparent".
  intros [H|[H|[H|H]]] (t & p & f & S4).
  - rewrite H in S4. discriminate S4.
  - rewrite H in S4. discriminate S4.
  - rewrite S4 in H. now apply H.
  - rewrite S4 in H. now apply H.
Qed.

(** The outgoing header of a request whose header is not taken up. *)
Lemma regenerated_header {ResponseWriter : Type}
    (st : SimpleTrace) (w : ResponseWriter) (r : Request)
    (next : Handler ResponseWriter) (R : rand.Reader) (k : nat) :
  malformed r ->
  newTraceParent (ServeHTTP st w r next R k)
  = "00-" +:+ (generateTraceID R k).1 +:+ "-"
    +:+ (generateSpanID R (S k)).1 +:+ "-01"
  /\ parentSpanID (context (ServeHTTP st w r next R k)) = "".
Proof.
  intros M.
  destruct (ServeHTTP_generates st w r next R k
              (malformed_not_well_formed r M)) as [C _].
  pose proof (ServeHTTP_newTraceParent st w r next R k) as N.
  rewrite C in N. rewrite C. split; [exact N | reflexivity].
Qed.

(** A header rebuilt from a 32-character trace id, a generated span id and
    2-character flags has the wire shape. *)
Lemma rebuilt_wire_shape (hexchar : ascii -> bool) (t f : string)
    (R : rand.Reader) (k : nat) :
  (forall c, is_lower_hex c = true -> hexchar c = true) ->
  no_dash t = true -> no_dash f = true ->
  fixed_width hexchar 32 t = true -> fixed_width hexchar 2 f = true ->
  wire_shape hexchar
    ("00-" +:+ t +:+ "-" +:+ (generateSpanID R k).1 +:+ "-" +:+ f) = true.
Proof.
  intros I Nt Nf Ht Hf. unfold wire_shape.
  pose proof (generateSpanID_shape R k) as Hs.
  apply fixed_width_spec in Hs as [_ Hs]. apply lower_hex_no_dash in Hs.
  change ("00-" +:+ ?x) with ("00" +:+ "-" +:+ x).
  rewrite (Split_traceparent "00" t _ f eq_refl Nt Hs Nf).
  rewrite Ht, Hf, (generateSpanID_in_class hexchar R k I). reflexivity.
Qed.

(** The flags of a header taken up come out again as they are, whatever
    they are, and sampled is what [parseSampledFlag] makes of them: false
    for every length but 2. *)
Lemma flags_verbatim {ResponseWriter : Type}
    (st : SimpleTrace) (w : ResponseWriter) (r : Request)
    (next : Handler ResponseWriter) (R : rand.Reader) (k : nat)
    (t p f : string) :
  strings.Split (http.Get (Header r) "traceparent") dash = ["00"; t; p; f] ->
  let sv := ServeHTTP st w r next R k in
  flags (context sv) = f
  /\ newTraceParent sv
     = "00-" +:+ t +:+ "-" +:+ (generateSpanID R k).1 +:+ "-" +:+ f
  /\ sampled (context sv) = parseSampledFlag f
  /\ (String.length f <> 2%nat -> sampled (context sv) = false).
Proof.
  intros H sv.
  destruct (ServeHTTP_adopts st w r next R k t p f H) as [C _].
  pose proof (ServeHTTP_newTraceParent st w r next R k) as N.
  fold sv in C, N. rewrite C in N. rewrite C.
  cbn [traceID spanID flags sampled] in *.
  split_and!; auto using parseSampledFlag_length.
Qed.

(** ** The vocabularies *)

Lemma selected_cases (format : string) :
  selected format ∈ [cloud_logging; tempo_style; common_schema; vendor_agent; generic].
Proof.
  unfold selected.
  repeat match goal with
         | |- context [bool_decide ?P] => destruct (bool_decide P)
         end; set_solver.
Qed.

Lemma vocabulary_cases (st : SimpleTrace) :
  vocabulary st ∈ [cloud_logging; tempo_style; common_schema; vendor_agent; generic].
Proof. apply selected_cases. Qed.

Lemma base_keys_not_parent (v : Vocabulary) :
  v ∈ [cloud_logging; tempo_style; common_schema; vendor_agent; generic] ->
  (trace_key v ∉ parent_keys) /\ (span_key v ∉ parent_keys)
  /\ (sampled_key v ∉ parent_keys) /\ (parent_key v ∈ parent_keys).
Proof.
  intros H. repeat (apply elem_of_cons in H as [->|H]);
    [..|now apply elem_of_nil in H];
    (split_and!;
     [ cbn; repeat (apply not_elem_of_cons; split; [discriminate|]);
       apply not_elem_of_nil ..
     | cbn; rewrite !elem_of_cons; auto 10 ]).
Qed.

Lemma vocabulary_generic (st : SimpleTrace) :
  Format st ∉ cloud_names ++ vendor_names ->
  vocabulary st = generic
  /\ (forall trace_id, transform_of st trace_id = trace_id).
Proof.
  intros H. unfold cloud_names, vendor_names in H. cbn [app] in H.
  rewrite !not_elem_of_cons in H. destruct H as (N1 & N2 & N3 & N4 & N5 & N6 & _).
  unfold vocabulary, transform_of, selected, cloud_names.
  destruct (decide (Format st = "")) as [E|E].
  - rewrite E. by_names. split; reflexivity.
  - rewrite (bool_decide_eq_false_2 _ E). by_names. split; reflexivity.
Qed.

Lemma vocabulary_cloud (st : SimpleTrace) :
  Format st ∈ cloud_names ->
  vocabulary st = cloud_logging
  /\ transform_of st = resource_path (ProjectID st).
Proof.
  intros H. unfold vocabulary, transform_of, selected.
  rewrite (bool_decide_eq_true_2 _ H).
  assert (Format st <> "") as E
    by (intros E; rewrite E in H; unfold cloud_names in H;
        rewrite !elem_of_cons, elem_of_nil in H; intuition discriminate).
  rewrite (bool_decide_eq_false_2 _ E), (bool_decide_eq_true_2 _ H).
  split; reflexivity.
Qed.

Lemma transform_other (st : SimpleTrace) (trace_id : string) :
  Format st ∉ cloud_names -> transform_of st trace_id = trace_id.
Proof.
  intros H. unfold transform_of. now rewrite (bool_decide_eq_false_2 _ H).
Qed.

Lemma names_decide (name : string) :
  bool_decide (name ∈ cloud_names ++ vendor_names) = false ->
  name ∉ cloud_names ++ vendor_names.
Proof. apply bool_decide_eq_false_1. Qed.

(** The generic field names for a format that names no other
    vocabulary. *)
Lemma logFields_generic {ResponseWriter : Type}
    (st : SimpleTrace) (w : ResponseWriter) (r : Request)
    (next : Handler ResponseWriter) (R : rand.Reader) (k : nat) :
  Format st ∉ cloud_names ++ vendor_names ->
  let sv := ServeHTTP st w r next R k in
  logFields sv
  = [ zap.String "trace_id" (traceID (context sv));
      zap.String "span_id" (spanID (context sv));
      zap.Bool "trace_sampled" (sampled (context sv)) ]
    ++ (if bool_decide (parentSpanID (context sv) = "") then []
        else [zap.String "parent_span_id" (parentSpanID (context sv))]).
Proof.
  intros H sv. unfold sv. rewrite ServeHTTP_logFields. fold sv.
  destruct (vocabulary_generic st H) as [-> T].
  unfold map_fields. now rewrite T.
Qed.

(** ** The trace context of a request *)

(** C1, as amended.  For every incoming [traceparent] that parses (four
    dash-separated fields, the first of them ["00"]), [ServeHTTP] adopts
    the parsed trace id and flags unchanged, sets the parent span id to the
    incoming span id, takes its own span id from the identifier generator
    alone (it is a function of the entropy source, never read from the
    header), builds the outgoing header as
    ["00-{trace_id}-{new_span_id}-{flags}"] and sets it on the request it
    hands on; and for an input of the shape [00-<32hex>-<16hex>-<2hex>]
    the outgoing header has that shape again (in lower-case hexadecimal
    when the input is, in hexadecimal of either case otherwise). *)
Theorem C1_adopted_header_rebuilt {ResponseWriter : Type}
    (st : SimpleTrace) (w : ResponseWriter) (r : Request)
    (next : Handler ResponseWriter) (R : rand.Reader) (k : nat)
    (t p f : string) :
  strings.Split (http.Get (Header r) "traceparent") dash = ["00"; t; p; f] ->
  let sv := ServeHTTP st w r next R k in
  traceID (context sv) = t
  /\ flags (context sv) = f
  /\ parentSpanID (context sv) = p
  /\ spanID (context sv) = (generateSpanID R k).1
  /\ newTraceParent sv
     = "00-" +:+ t +:+ "-" +:+ (generateSpanID R k).1 +:+ "-" +:+ f
  /\ (forall extra, ExtraLogFields r = Some extra ->
      exists r', returned sv = Some (r', next w r')
                 /\ http.Get (Header r') "traceparent" = newTraceParent sv)
  /\ (wire_shape is_lower_hex (http.Get (Header r) "traceparent") = true ->
      wire_shape is_lower_hex (newTraceParent sv) = true)
  /\ (wire_shape is_hex (http.Get (Header r) "traceparent") = true ->
      wire_shape is_hex (newTraceParent sv) = true).
Proof.
  intros H sv.
  destruct (ServeHTTP_adopts st w r next R k t p f H) as [C _].
  pose proof (ServeHTTP_newTraceParent st w r next R k) as N.
  pose proof (ServeHTTP_returned st w r next R k) as Ret.
  fold sv in C, N, Ret. rewrite C in N. cbn [traceID spanID flags] in N.
  rewrite C. cbn [traceID spanID flags parentSpanID].
  destruct (Split_four_inv _ _ _ _ _ H) as (_ & _ & Nt & _ & Nf).
  split_and!; try reflexivity; try assumption.
  - intros extra E. rewrite E in Ret. eexists. split; [exact Ret|].
    cbn [Header]. apply Get_Set.
  - unfold wire_shape at 1. rewrite H. intros S.
    apply andb_true_iff in S as [S Hf]. apply andb_true_iff in S as [S _].
    apply andb_true_iff in S as [_ Ht].
    rewrite N. apply rebuilt_wire_shape; auto.
  - unfold wire_shape at 1. rewrite H. intros S.
    apply andb_true_iff in S as [S Hf]. apply andb_true_iff in S as [S _].
    apply andb_true_iff in S as [_ Ht].
    rewrite N. apply rebuilt_wire_shape; auto using lower_hex_is_hex.
Qed.

(** C1, witness: the example header of the specification, generic
    vocabulary, entropy delivering the bytes [a1 b2 c3 d4 e5 f6 07 18]. *)
Lemma C1_adopted_header_rebuilt_witness :
  let r := request_with "00-4bf92f3577b34da6a3ce929d0e0e4736-00f067aa0ba902b7-01" in
  let R := entropy_of [Byte.xa1; Byte.xb2; Byte.xc3; Byte.xd4;
                       Byte.xe5; Byte.xf6; Byte.x07; Byte.x18] in
  let sv := ServeHTTP {| Format := ""; ProjectID := "" |} tt r next_ok R 0 in
  parentSpanID (context sv) = "00f067aa0ba902b7"
  /\ newTraceParent sv
     = "00-4bf92f3577b34da6a3ce929d0e0e4736-a1b2c3d4e5f60718-01".
Proof.
  intros r R sv.
  destruct (C1_adopted_header_rebuilt {| Format := ""; ProjectID := "" |} tt r
              next_ok R 0 "4bf92f3577b34da6a3ce929d0e0e4736"
              "00f067aa0ba902b7" "01" eq_refl)
    as (_ & _ & P & _ & N & _).
  split; [exact P | exact N].
Defined.

(** C1, counterexample to the claim as stated (the generated span id "is
    never the incoming span id"): when the entropy source fails, the span
    id is the all-zero fallback, and an incoming header whose span id is
    all-zero parses; and when the source delivers the bytes
    [00 f0 67 aa 0b a9 02 b7], the span id is the incoming span id of the
    specification's example header.  In both runs the request's own span
    id equals its parent span id. *)
Lemma C1_span_id_equals_incoming :
  let st := {| Format := ""; ProjectID := "" |} in
  let sv1 := ServeHTTP st tt
               (request_with "00-4bf92f3577b34da6a3ce929d0e0e4736-0000000000000000-01")
               next_ok no_entropy 0 in
  let sv2 := ServeHTTP st tt
               (request_with "00-4bf92f3577b34da6a3ce929d0e0e4736-00f067aa0ba902b7-01")
               next_ok
               (entropy_of [Byte.x00; Byte.xf0; Byte.x67; Byte.xaa;
                            Byte.x0b; Byte.xa9; Byte.x02; Byte.xb7]) 0 in
  (parentSpanID (context sv1) = "0000000000000000"
   /\ spanID (context sv1) = "0000000000000000"
   /\ reads sv1 = 1%nat)
  /\ (parentSpanID (context sv2) = "00f067aa0ba902b7"
      /\ spanID (context sv2) = "00f067aa0ba902b7"
      /\ reads sv2 = 1%nat).
Proof. vm_compute. repeat split. Qed.

(** C2.  For every request whose [traceparent] header is absent, empty,
    has a field count other than 4, or a first field other than ["00"],
    [ServeHTTP] takes the trace id from a fresh call of the generator (32
    lower-case hexadecimal characters), the span id from the next call (16
    of them), sets the flags to ["01"] and sampled to true, and emits no
    parent span id field: three log fields, none under a parent key. *)
Theorem C2_malformed_header_regenerates {ResponseWriter : Type}
    (st : SimpleTrace) (w : ResponseWriter) (r : Request)
    (next : Handler ResponseWriter) (R : rand.Reader) (k : nat) :
  malformed r ->
  let sv := ServeHTTP st w r next R k in
  traceID (context sv) = (generateTraceID R k).1
  /\ fixed_width is_lower_hex 32 (traceID (context sv)) = true
  /\ spanID (context sv) = (generateSpanID R (S k)).1
  /\ fixed_width is_lower_hex 16 (spanID (context sv)) = true
  /\ flags (context sv) = "01"
  /\ sampled (context sv) = true
  /\ parentSpanID (context sv) = ""
  /\ newTraceParent sv
     = "00-" +:+ (generateTraceID R k).1 +:+ "-"
       +:+ (generateSpanID R (S k)).1 +:+ "-01"
  /\ length (logFields sv) = 3%nat
  /\ (forall fld, fld ∈ logFields sv -> zap.Key fld ∉ parent_keys).
Proof.
  intros M sv.
  destruct (ServeHTTP_generates st w r next R k
              (malformed_not_well_formed r M)) as [C _].
  pose proof (ServeHTTP_newTraceParent st w r next R k) as N.
  pose proof (ServeHTTP_logFields st w r next R k) as L.
  fold sv in C, N, L. rewrite C in N, L. rewrite C.
  cbn [traceID spanID flags parentSpanID sampled] in *.
  unfold map_fields in L. cbn [parentSpanID traceID spanID sampled] in L.
  rewrite (bool_decide_eq_true_2 ("" = "") eq_refl) in L.
  split_and!; try reflexivity.
  - apply generateTraceID_shape.
  - apply generateSpanID_shape.
  - exact N.
  - now rewrite L.
  - destruct (base_keys_not_parent _ (vocabulary_cases st))
      as (K1 & K2 & K3 & _).
    intros fld. rewrite L. cbn [app].
    rewrite !elem_of_cons, elem_of_nil.
    intros [->|[->|[->|[]]]]; assumption.
Qed.

(** C2, witness: a three-field header ([00-abc-def]) and no header, with
    a failing entropy source. *)
Lemma C2_malformed_header_regenerates_witness :
  let st := {| Format := ""; ProjectID := "" |} in
  flags (context (ServeHTTP st tt (request_with "00-abc-def") next_ok no_entropy 0)) = "01"
  /\ length (logFields (ServeHTTP st tt request_without next_ok no_entropy 0)) = 3%nat.
Proof.
  intros st. split.
  - refine (proj1 (proj2 (proj2 (proj2 (proj2
      (C2_malformed_header_regenerates st tt (request_with "00-abc-def")
         next_ok no_entropy 0 _)))))).
    right. right. left. vm_compute. discriminate.
  - refine (proj1 (proj2 (proj2 (proj2 (proj2 (proj2 (proj2 (proj2 (proj2
      (C2_malformed_header_regenerates st tt request_without
         next_ok no_entropy 0 _)))))))))).
    left. reflexivity.
Defined.

(** C3.  The header is taken up (one entropy read, for the span id,
    instead of two) if and only if splitting it on ["-"] gives exactly four
    fields of which the first is ["00"]; the three other fields are then
    adopted as they are; and nothing else is asked of them: whatever
    strings [t], [p], [f] without a dash are put after ["00"], the header
    is taken up. *)
Theorem C3_parse_acceptance {ResponseWriter : Type}
    (st : SimpleTrace) (w : ResponseWriter) (r : Request)
    (next : Handler ResponseWriter) (R : rand.Reader) (k : nat) :
  let s := http.Get (Header r) "traceparent" in
  let sv := ServeHTTP st w r next R k in
  (reads sv = S k <->
   length (strings.Split s dash) = 4%nat /\ nth 0 (strings.Split s dash) "" = "00")
  /\ (forall t p f, strings.Split s dash = ["00"; t; p; f] ->
      traceID (context sv) = t /\ parentSpanID (context sv) = p
      /\ flags (context sv) = f)
  /\ (forall t p f, no_dash t = true -> no_dash p = true -> no_dash f = true ->
      s = "00-" +:+ t +:+ "-" +:+ p +:+ "-" +:+ f ->
      reads sv = S k /\ traceID (context sv) = t
      /\ parentSpanID (context sv) = p /\ flags (context sv) = f).
Proof.
  intros s sv.
  assert (forall t p f, strings.Split s dash = ["00"; t; p; f] ->
            reads sv = S k /\ traceID (context sv) = t
            /\ parentSpanID (context sv) = p /\ flags (context sv) = f) as A.
  { intros t p f H.
    destruct (ServeHTTP_adopts st w r next R k t p f H) as [C K].
    fold sv in C, K. rewrite C. auto. }
  split_and!.
  - split.
    + intros K.
      destruct (strings.Split s dash) as [|v [|t [|p [|f [|]]]]] eqn:E;
        try (exfalso;
             assert (~ well_formed s) as NW
               by (intros (t' & p' & f' & E'); fold s in E'; congruence);
             destruct (ServeHTTP_generates st w r next R k NW) as [_ K'];
             fold sv in K'; lia).
      destruct (decide (v = "00")) as [->|NE]; [now split|].
      exfalso.
      assert (~ well_formed s) as NW
        by (intros (t' & p' & f' & E'); fold s in E'; congruence).
      destruct (ServeHTTP_generates st w r next R k NW) as [_ K'].
      fold sv in K'. lia.
    + intros [L V].
      destruct (strings.Split s dash) as [|v [|t [|p [|f [|]]]]] eqn:E;
        try discriminate L.
      simpl in V. subst v. exact (proj1 (A t p f eq_refl)).
  - intros t p f H. destruct (A t p f H) as (_ & ? & ? & ?). auto.
  - intros t p f Nt Np Nf E. apply A. rewrite E.
    change ("00-" +:+ ?x) with ("00" +:+ "-" +:+ x).
    now apply Split_traceparent.
Qed.

(** C3, witness: a header whose trace id is not hexadecimal and whose
    fields have no W3C width is taken up. *)
Lemma C3_parse_acceptance_witness :
  let sv := ServeHTTP {| Format := ""; ProjectID := "" |} tt
              (request_with "00-not hex!-x-abc") next_ok no_entropy 0 in
  reads sv = 1%nat /\ traceID (context sv) = "not hex!"
  /\ parentSpanID (context sv) = "x" /\ flags (context sv) = "abc".
Proof.
  intros sv.
  exact (proj2 (proj2 (C3_parse_acceptance {| Format := ""; ProjectID := "" |} tt
           (request_with "00-not hex!-x-abc") next_ok no_entropy 0))
           "not hex!" "x" "abc" eq_refl eq_refl eq_refl eq_refl).
Defined.

(** ** The entropy source fails: a process built with Go 1.24 or later *)

(** Whether the [k]-th call of [rand.Read] returns. *)
Lemma Read_in_returns (g : rand.Release) (R : rand.Reader) (k : nat)
    (b : list Byte.byte) :
  rand.Read_in g R k b
  = if match g with
       | rand.upto_go1_23 => false
       | rand.from_go1_24 => rand.fails R k
       end
    then None else Some (rand.Read R k b).
Proof. destruct g; [reflexivity|]. unfold rand.Read_in. now destruct (rand.fails R k). Qed.

(** The generators of the process against the generators above. *)
Lemma process_generateTraceID (g : rand.Release) (R : rand.Reader) (k : nat) :
  process.generateTraceID g R k
  = if match g with
       | rand.upto_go1_23 => false
       | rand.from_go1_24 => rand.fails R k
       end
    then None else Some (generateTraceID R k).
Proof.
  unfold process.generateTraceID, generateTraceID. rewrite Read_in_returns.
  destruct g; [|destruct (rand.fails R k); [reflexivity|]];
    cbv beta iota; destruct (rand.Read R k (make_bytes 16)) as [b []]; reflexivity.
Qed.

Lemma process_generateSpanID (g : rand.Release) (R : rand.Reader) (k : nat) :
  process.generateSpanID g R k
  = if match g with
       | rand.upto_go1_23 => false
       | rand.from_go1_24 => rand.fails R k
       end
    then None else Some (generateSpanID R k).
Proof.
  unfold process.generateSpanID, generateSpanID. rewrite Read_in_returns.
  destruct g; [|destruct (rand.fails R k); [reflexivity|]];
    cbv beta iota; destruct (rand.Read R k (make_bytes 8)) as [b []]; reflexivity.
Qed.

(** A call of [ServeHTTP] that returns has computed what [ServeHTTP]
    above gives. *)
Lemma process_ServeHTTP_Some {ResponseWriter : Type} (g : rand.Release)
    (st : SimpleTrace) (w : ResponseWriter) (r : Request)
    (next : Handler ResponseWriter) (R : rand.Reader) (k : nat) (sv : Served) :
  process.ServeHTTP g st w r next R k = Some sv ->
  sv = ServeHTTP st w r next R k.
Proof.
  unfold process.ServeHTTP, ServeHTTP.
  set (b1 := negb _). set (b2 := (_ && _)%bool).
  rewrite process_generateTraceID, (process_generateSpanID g R k).
  pose proof (generateTraceID_reads R k) as HT.
  destruct (generateTraceID R k) as [tid k1]. cbn [snd] in HT. subst k1.
  destruct (generateSpanID R k) as [sid k1].
  destruct g; [|destruct (rand.fails R k)]; cbv beta iota;
    rewrite ?process_generateSpanID;
    destruct (generateSpanID R (S k)) as [sid' k2];
    try destruct (rand.fails R (S k));
    destruct b1, b2; cbv beta iota zeta; intros E;
    first [discriminate E | injection E as <-; reflexivity].
Qed.

(** The process ends in [ServeHTTP] exactly when it is built with Go 1.24
    or later and one of the reads that [ServeHTTP] makes fails. *)
Lemma process_ServeHTTP_None {ResponseWriter : Type} (g : rand.Release)
    (st : SimpleTrace) (w : ResponseWriter) (r : Request)
    (next : Handler ResponseWriter) (R : rand.Reader) (k : nat) :
  process.ServeHTTP g st w r next R k = None <->
  g = rand.from_go1_24
  /\ exists j, (k <= j < reads (ServeHTTP st w r next R k))%nat
               /\ rand.fails R j = true.
Proof.
  unfold process.ServeHTTP, ServeHTTP.
  set (b1 := negb _). set (b2 := (_ && _)%bool).
  rewrite process_generateTraceID, (process_generateSpanID g R k).
  pose proof (generateTraceID_reads R k) as HT.
  destruct (generateTraceID R k) as [tid k1]. cbn [snd] in HT. subst k1.
  pose proof (generateSpanID_reads R k) as HS.
  destruct (generateSpanID R k) as [sid k1]. cbn [snd] in HS. subst k1.
  pose proof (generateSpanID_reads R (S k)) as HS.
  assert (forall j, (k <= j < S k)%nat -> j = k) as one by lia.
  assert (forall j, (k <= j < S (S k))%nat -> j = k \/ j = S k) as two by lia.
  destruct g; [|destruct (rand.fails R k) eqn:F0]; cbv beta iota;
    rewrite ?process_generateSpanID;
    destruct (generateSpanID R (S k)) as [sid' k2]; cbn [snd] in HS; subst k2.
  - split; [|now intros [? _]].
    destruct b1, b2; cbv beta iota zeta; discriminate.
  - split; [intros _; split; [reflexivity|]|].
    + exists k. split; [|exact F0].
      destruct b1, b2; cbv beta iota zeta; cbn [reads]; lia.
    + intros _. destruct b1, b2; reflexivity.
  - destruct (rand.fails R (S k)) eqn:F1.
    + destruct b1, b2; cbv beta iota zeta; cbn [reads];
        (split; [intros E; first [discriminate E | split; [reflexivity|];
                   exists (S k); split; [lia | exact F1]]
                | intros (_ & j & Hj & Fj);
                  first [reflexivity
                        | apply one in Hj; subst j; congruence]]).
    + destruct b1, b2; cbv beta iota zeta; cbn [reads];
        (split; [discriminate|]); intros (_ & j & Hj & Fj);
        first [apply one in Hj; subst j; congruence
              | apply two in Hj; destruct Hj; subst j; congruence].
Qed.

(** C8, the code against the claim.  The entropy source fails at the read
    the handler is about to make.  Built with Go 1.24 or later, [rand.Read]
    does not return: [generateTraceID] and [generateSpanID] give no
    identifier, the fallback (lines 229-232 and 240-243) is never run, and
    [ServeHTTP] ends with the process, for every request and
    configuration, before the header is set and before the next handler
    is called.  Built with an earlier release, the identifiers are the 32
    and 16 zeros and [ServeHTTP] goes on to the next handler with them, as
    the claim has it. *)
Theorem C8_entropy_failure_ends_process {ResponseWriter : Type}
    (st : SimpleTrace) (w : ResponseWriter) (r : Request)
    (next : Handler ResponseWriter) (R : rand.Reader) (k : nat) :
  rand.fails R k = true ->
  (process.generateTraceID rand.from_go1_24 R k = None
   /\ process.generateSpanID rand.from_go1_24 R k = None
   /\ process.ServeHTTP rand.from_go1_24 st w r next R k = None)
  /\ (process.generateTraceID rand.upto_go1_23 R k
      = Some ("00000000000000000000000000000000", S k)
      /\ process.generateSpanID rand.upto_go1_23 R k
         = Some ("0000000000000000", S k)
      /\ exists sv,
           process.ServeHTTP rand.upto_go1_23 st w r next R k = Some sv
           /\ (well_formed (http.Get (Header r) "traceparent") ->
               spanID (context sv) = "0000000000000000")
           /\ (~ well_formed (http.Get (Header r) "traceparent") ->
               traceID (context sv) = "00000000000000000000000000000000")
           /\ forall extra, ExtraLogFields r = Some extra ->
              exists r', returned sv = Some (r', next w r')
                /\ http.Get (Header r') "traceparent" = newTraceParent sv).
Proof.
  intros F. split; split_and!.
  - now rewrite process_generateTraceID, F.
  - now rewrite process_generateSpanID, F.
  - apply process_ServeHTTP_None. split; [reflexivity|].
    exists k. split; [|exact F].
    destruct (classic_well_formed (http.Get (Header r) "traceparent"))
      as [(t & p & f & H)|H].
    + rewrite (proj2 (ServeHTTP_adopts st w r next R k t p f H)). lia.
    + rewrite (proj2 (ServeHTTP_generates st w r next R k H)). lia.
  - rewrite process_generateTraceID. now rewrite generateTraceID_fallback.
  - rewrite process_generateSpanID. now rewrite generateSpanID_fallback.
  - destruct (process.ServeHTTP rand.upto_go1_23 st w r next R k) as [sv|] eqn:E.
    2: { apply process_ServeHTTP_None in E. destruct E as [E _]. discriminate E. }
    apply process_ServeHTTP_Some in E. exists sv. split; [reflexivity|].
    subst sv. split_and!.
    + intros (t & p & f & H).
      rewrite (proj1 (ServeHTTP_adopts st w r next R k t p f H)). cbn [spanID].
      now rewrite generateSpanID_fallback.
    + intros H.
      rewrite (proj1 (ServeHTTP_generates st w r next R k H)). cbn [traceID].
      now rewrite generateTraceID_fallback.
    + intros extra X.
      pose proof (ServeHTTP_returned st w r next R k) as Ret. cbv zeta in Ret.
      rewrite X in Ret. eexists. split; [exact Ret|]. cbn [Header]. apply Get_Set.
Qed.

(** C8, at a request without a header and the source that always fails:
    no identifier and no call of the next handler in a process built with
    Go 1.24 or later. *)
Lemma C8_entropy_failure_ends_process_witness :
  process.generateTraceID rand.from_go1_24 no_entropy 0 = None
  /\ process.generateSpanID rand.from_go1_24 no_entropy 0 = None
  /\ process.ServeHTTP rand.from_go1_24 {| Format := ""; ProjectID := "" |} tt
       request_without next_ok no_entropy 0 = None.
Proof.
  exact (proj1 (C8_entropy_failure_ends_process
                  {| Format := ""; ProjectID := "" |} tt request_without
                  next_ok no_entropy 0 eq_refl)).
Defined.

(** C9, the code against the claim.  The header ["00-a-b-1z"] is taken
    up; its flags field ["1z"] is no hexadecimal byte and comes out again
    as it is in the outgoing header, but sampled is reported true, not
    false (the same scan of a hexadecimal prefix as in C4). *)
Theorem C9_sampled_on_malformed_flags :
  let sv := ServeHTTP {| Format := ""; ProjectID := "" |} tt
              (request_with "00-a-b-1z") next_ok no_entropy 0 in
  flags (context sv) = "1z"
  /\ newTraceParent sv = "00-a-0000000000000000-1z"
  /\ string_forallb is_hex (flags (context sv)) = false
  /\ sampled (context sv) = true
  /\ zap.Bool "trace_sampled" true ∈ logFields sv.
Proof.
  intros sv. split_and!; [vm_compute; reflexivity ..|].
  apply list_elem_of_In. vm_compute. auto.
Qed.

(** ** The log fields *)

(** C6.  For every format that is empty or names no other vocabulary,
    the log fields carry the generic names [trace_id], [span_id],
    [trace_sampled] and, when there is a parent span id,
    [parent_span_id]; the mapping has no failure of its own: the request
    goes on to the next handler with these fields added, and the error
    returned is the next handler's. *)
Theorem C6_unknown_format_generic_names {ResponseWriter : Type}
    (st : SimpleTrace) (w : ResponseWriter) (r : Request)
    (next : Handler ResponseWriter) (R : rand.Reader) (k : nat) :
  Format st = "" \/ Format st ∉ cloud_names ++ vendor_names ->
  let sv := ServeHTTP st w r next R k in
  logFields sv
  = [ zap.String "trace_id" (traceID (context sv));
      zap.String "span_id" (spanID (context sv));
      zap.Bool "trace_sampled" (sampled (context sv)) ]
    ++ (if bool_decide (parentSpanID (context sv) = "") then []
        else [zap.String "parent_span_id" (parentSpanID (context sv))])
  /\ (forall extra, ExtraLogFields r = Some extra ->
      exists r', returned sv = Some (r', next w r')
                 /\ ExtraLogFields r' = Some (extra ++ logFields sv)).
Proof.
  intros H sv.
  assert (Format st ∉ cloud_names ++ vendor_names) as H'.
  { destruct H as [E|H]; [|exact H]. rewrite E.
    apply names_decide. vm_compute. reflexivity. }
  split; [now apply logFields_generic|].
  intros extra E. pose proof (ServeHTTP_returned st w r next R k) as Ret.
  fold sv in Ret. rewrite E in Ret. eexists. split; [exact Ret|]. reflexivity.
Qed.

(** C6, witness: the unknown format [bogus] and the unconfigured one. *)
Lemma C6_unknown_format_generic_names_witness :
  map zap.Key (logFields (ServeHTTP {| Format := "bogus"; ProjectID := "p" |} tt
                 (request_with "00-a-b-01") next_ok no_entropy 0))
  = ["trace_id"; "span_id"; "trace_sampled"; "parent_span_id"]
  /\ map zap.Key (logFields (ServeHTTP {| Format := ""; ProjectID := "" |} tt
                    request_without next_ok no_entropy 0))
     = ["trace_id"; "span_id"; "trace_sampled"].
Proof.
  split.
  - rewrite (proj1 (C6_unknown_format_generic_names
                      {| Format := "bogus"; ProjectID := "p" |} tt
                      (request_with "00-a-b-01") next_ok no_entropy 0
                      (or_intror (names_decide "bogus" eq_refl)))).
    reflexivity.
  - rewrite (proj1 (C6_unknown_format_generic_names
                      {| Format := ""; ProjectID := "" |} tt
                      request_without next_ok no_entropy 0
                      (or_introl eq_refl))).
    reflexivity.
Defined.

(** C7.  Under the cloud-logging vocabulary ([stackdriver], [gcp]) the
    trace field [logging.googleapis.com/trace] holds
    ["projects/{project_id}/traces/{trace_id}"] when the project
    identifier is not empty and the trace id as it is when it is empty;
    under every other vocabulary the trace field holds the trace id as it
    is. *)
Theorem C7_cloud_logging_trace_field {ResponseWriter : Type}
    (st : SimpleTrace) (w : ResponseWriter) (r : Request)
    (next : Handler ResponseWriter) (R : rand.Reader) (k : nat) :
  let sv := ServeHTTP st w r next R k in
  (Format st ∈ cloud_names -> ProjectID st <> "" ->
   logFields sv !! 0%nat
   = Some (zap.String "logging.googleapis.com/trace"
             ("projects/" +:+ ProjectID st +:+ "/traces/"
              +:+ traceID (context sv))))
  /\ (Format st ∈ cloud_names -> ProjectID st = "" ->
      logFields sv !! 0%nat
      = Some (zap.String "logging.googleapis.com/trace" (traceID (context sv))))
  /\ (Format st ∉ cloud_names ->
      logFields sv !! 0%nat
      = Some (zap.String (trace_key (vocabulary st)) (traceID (context sv)))).
Proof.
  intros sv. unfold sv. rewrite ServeHTTP_logFields. fold sv.
  unfold map_fields. cbn [app lookup list_lookup].
  split_and!.
  - intros C P. destruct (vocabulary_cloud st C) as [-> ->].
    unfold resource_path. now rewrite (bool_decide_eq_false_2 _ P).
  - intros C P. destruct (vocabulary_cloud st C) as [-> ->].
    unfold resource_path. now rewrite (bool_decide_eq_true_2 _ P).
  - intros C. now rewrite (transform_other st _ C).
Qed.

(** C7, witness: the second scenario of the specification (no header,
    cloud-logging vocabulary, project [my-project]), and [tempo] with the
    same project. *)
Lemma C7_cloud_logging_trace_field_witness :
  logFields (ServeHTTP {| Format := "stackdriver"; ProjectID := "my-project" |} tt
               request_without next_ok no_entropy 0) !! 0%nat
  = Some (zap.String "logging.googleapis.com/trace"
            "projects/my-project/traces/00000000000000000000000000000000")
  /\ logFields (ServeHTTP {| Format := "tempo"; ProjectID := "my-project" |} tt
                  request_without next_ok no_entropy 0) !! 0%nat
     = Some (zap.String "traceID" "00000000000000000000000000000000").
Proof.
  split.
  - refine (proj1 (C7_cloud_logging_trace_field
                     {| Format := "stackdriver"; ProjectID := "my-project" |} tt
                     request_without next_ok no_entropy 0) _ _).
    + apply list_elem_of_In. simpl. auto.
    + discriminate.
  - refine (proj2 (proj2 (C7_cloud_logging_trace_field
                     {| Format := "tempo"; ProjectID := "my-project" |} tt
                     request_without next_ok no_entropy 0)) _).
    intros H. apply list_elem_of_In in H. simpl in H.
    destruct H as [H|[H|[]]]; discriminate H.
Defined.

(** C10.  A header taken up with an empty parent-span field (as in
    ["00-abc--01"]) gives three log fields and none under a parent key,
    although parsing succeeded; and under every vocabulary there is a
    field under a parent key exactly when the parent span id is not the
    empty string: it is then the fourth field, under the vocabulary's
    parent key, holding the parent span id. *)
Theorem C10_parent_field_iff_nonempty {ResponseWriter : Type}
    (st : SimpleTrace) (w : ResponseWriter) (r : Request)
    (next : Handler ResponseWriter) (R : rand.Reader) (k : nat) :
  let sv := ServeHTTP st w r next R k in
  (forall t f,
     strings.Split (http.Get (Header r) "traceparent") dash = ["00"; t; ""; f] ->
     reads sv = S k /\ traceID (context sv) = t
     /\ length (logFields sv) = 3%nat
     /\ (forall fld, fld ∈ logFields sv -> zap.Key fld ∉ parent_keys))
  /\ ((exists fld, fld ∈ logFields sv /\ zap.Key fld ∈ parent_keys)
      <-> parentSpanID (context sv) <> "")
  /\ (parentSpanID (context sv) <> "" ->
      length (logFields sv) = 4%nat
      /\ logFields sv !! 3%nat
         = Some (zap.String (parent_key (vocabulary st))
                   (parentSpanID (context sv)))).
Proof.
  intros sv.
  pose proof (ServeHTTP_logFields st w r next R k) as L. fold sv in L.
  unfold map_fields in L.
  destruct (base_keys_not_parent _ (vocabulary_cases st)) as (K1 & K2 & K3 & K4).
  assert (parentSpanID (context sv) = "" ->
          length (logFields sv) = 3%nat
          /\ (forall fld, fld ∈ logFields sv -> zap.Key fld ∉ parent_keys)) as E.
  { intros P. rewrite (bool_decide_eq_true_2 _ P) in L. rewrite L.
    split; [reflexivity|]. intros fld. cbn [app].
    rewrite !elem_of_cons, elem_of_nil.
    intros [->|[->|[->|[]]]]; assumption. }
  split_and!.
  - intros t f H.
    destruct (ServeHTTP_adopts st w r next R k t "" f H) as [C K].
    fold sv in C, K.
    assert (parentSpanID (context sv) = "") as P by now rewrite C.
    destruct (E P) as [E1 E2]. rewrite C at 1. auto.
  - split.
    + intros (fld & I & KP) P. destruct (E P) as [_ E2].
      exact (E2 fld I KP).
    + intros P. rewrite (bool_decide_eq_false_2 _ P) in L.
      exists (zap.String (parent_key (vocabulary st)) (parentSpanID (context sv))).
      split; [|exact K4]. rewrite L. cbn [app].
      rewrite !elem_of_cons. auto.
  - intros P. rewrite (bool_decide_eq_false_2 _ P) in L. rewrite L.
    split; reflexivity.
Qed.

(** C10, witness: the header ["00-abc--01"] under the [ecs] format. *)
Lemma C10_parent_field_iff_nonempty_witness :
  let sv := ServeHTTP {| Format := "ecs"; ProjectID := "" |} tt
              (request_with "00-abc--01") next_ok no_entropy 0 in
  reads sv = 1%nat /\ traceID (context sv) = "abc"
  /\ length (logFields sv) = 3%nat
  /\ (forall fld, fld ∈ logFields sv -> zap.Key fld ∉ parent_keys).
Proof.
  intros sv.
  exact (proj1 (C10_parent_field_iff_nonempty {| Format := "ecs"; ProjectID := "" |}
                  tt (request_with "00-abc--01") next_ok no_entropy 0)
           "abc" "01" eq_refl).
Defined.

(** ** Configuration: [UnmarshalCaddyfile] returns *)

Ltac ds :=
  cbn [fst snd negb caddyfile.tokens caddyfile.cursor caddyfile.nesting
       caddyfile.move caddyfile.nest].

Tactic Notation "ds" "in" hyp(H) :=
  cbn [fst snd negb caddyfile.tokens caddyfile.cursor caddyfile.nesting
       caddyfile.move caddyfile.nest] in H.

Tactic Notation "ds" "in" "*" :=
  cbn [fst snd negb caddyfile.tokens caddyfile.cursor caddyfile.nesting
       caddyfile.move caddyfile.nest] in *.

Lemma moved_on_len (n : Z) (d d' : caddyfile.Dispenser) :
  moved_on n d d' -> caddyfile.len d' = caddyfile.len d.
Proof. intros [T _]. unfold caddyfile.len. now rewrite T. Qed.

Lemma moved_on_trans (n m : Z) (d d' d'' : caddyfile.Dispenser) :
  moved_on n d d' -> moved_on m d' d'' -> moved_on (n + m) d d''.
Proof.
  intros H1 H2. pose proof (moved_on_len _ _ _ H1) as L.
  destruct H1 as [T1 C1], H2 as [T2 C2]. split; [congruence|].
  rewrite L in C2. lia.
Qed.

Lemma moved_on_weaken (n m : Z) (d d' : caddyfile.Dispenser) :
  (m <= n)%Z -> moved_on n d d' -> moved_on m d d'.
Proof. intros L [T C]. split; [exact T | lia]. Qed.

Lemma moved_on_token (n : Z) (d d' : caddyfile.Dispenser) :
  (0 <= n)%Z -> on_token d -> moved_on n d d' -> on_token d'.
Proof.
  intros N B M. pose proof (moved_on_len _ _ _ M) as L.
  destruct M as [_ C]. unfold on_token in *. rewrite L. lia.
Qed.

Lemma Next_moves (d : caddyfile.Dispenser) :
  on_token d ->
  moved_on (if (caddyfile.Next d).1 then 1 else 0) d (caddyfile.Next d).2.
Proof.
  unfold on_token, moved_on, caddyfile.Next. intros B.
  destruct (caddyfile.cursor d <? caddyfile.len d - 1)%Z eqn:E; ds.
  - apply Z.ltb_lt in E. split; [reflexivity | lia].
  - split; [reflexivity | lia].
Qed.

Lemma nextOnSameLine_moves (d : caddyfile.Dispenser) :
  on_token d ->
  moved_on (if (caddyfile.nextOnSameLine d).1 then 1 else 0) d
    (caddyfile.nextOnSameLine d).2.
Proof.
  unfold on_token, moved_on, caddyfile.nextOnSameLine. intros B.
  destruct (caddyfile.cursor d <? 0)%Z eqn:E0; [apply Z.ltb_lt in E0; lia|].
  destruct (caddyfile.len d - 1 <=? caddyfile.cursor d)%Z eqn:E1; ds.
  - split; [reflexivity | lia].
  - apply Z.leb_gt in E1.
    destruct (caddyfile.at_ d (caddyfile.cursor d)) as [curr|];
      [|ds; split; [reflexivity | lia]].
    destruct (caddyfile.at_ d (caddyfile.cursor d + 1)) as [next|];
      [|ds; split; [reflexivity | lia]].
    destruct (caddyfile.isNextOnNewLine curr next); ds;
      (split; [reflexivity | lia]).
Qed.

Lemma val_at_line_end_moves (d : caddyfile.Dispenser) (tok : string) :
  on_token d -> moved_on 0 d (caddyfile.val_at_line_end d tok).2.
Proof.
  intros B. unfold caddyfile.val_at_line_end.
  destruct (String.eqb (caddyfile.Val d) tok); [|ds; split; [reflexivity | unfold on_token in B; lia]].
  pose proof (nextOnSameLine_moves d B) as M.
  destruct (caddyfile.nextOnSameLine d) as [same d1]. ds in *.
  eapply moved_on_weaken; [|exact M]. destruct same; lia.
Qed.

Lemma NextArg_moves (d : caddyfile.Dispenser) :
  on_token d -> moved_on 0 d (caddyfile.NextArg d).2.
Proof.
  intros B. unfold caddyfile.NextArg.
  pose proof (nextOnSameLine_moves d B) as M.
  destruct (caddyfile.nextOnSameLine d) as [same d1]. ds in M.
  destruct same; ds in *.
  - destruct (String.eqb (caddyfile.Val d1) "{"); ds.
    + destruct M as [T C]. split; [exact T | ds; lia].
    + eapply moved_on_weaken; [|exact M]. lia.
  - exact M.
Qed.

Lemma NextBlock_moves (d : caddyfile.Dispenser) (level : Z) :
  on_token d ->
  moved_on (if (caddyfile.NextBlock d level).1 then 1 else 0) d
    (caddyfile.NextBlock d level).2.
Proof.
  intros B. unfold caddyfile.NextBlock.
  destruct (level <? caddyfile.nesting d)%Z.
  - pose proof (Next_moves d B) as M.
    destruct (caddyfile.Next d) as [more d1]. ds in M.
    destruct more; ds in *; [|exact M].
    assert (on_token d1) as B1 by (eapply moved_on_token; [|exact B|exact M]; lia).
    pose proof (val_at_line_end_moves d1 "}" B1) as M1.
    destruct (caddyfile.val_at_line_end d1 "}") as [closing d2]. ds in M1.
    assert (on_token d2) as B2 by (eapply moved_on_token; [|exact B1|exact M1]; lia).
    pose proof (val_at_line_end_moves d2 "{" B2) as M2.
    destruct (caddyfile.val_at_line_end d2 "{") as [opening d3]. ds in M2.
    pose proof (moved_on_trans _ _ _ _ _ M M1) as M01.
    pose proof (moved_on_trans _ _ _ _ _ M01 M2) as M02.
    assert (moved_on 1 d (if closing then caddyfile.nest d2 (-1)
                          else if opening then caddyfile.nest d3 1 else d3)) as F
      by (destruct closing, opening; assumption).
    ds. eapply moved_on_weaken; [|exact F].
    destruct (_ <? _)%Z; lia.
  - pose proof (nextOnSameLine_moves d B) as M.
    destruct (caddyfile.nextOnSameLine d) as [same d1]. ds in M.
    destruct same; ds in *; [|exact M].
    assert (on_token d1) as B1 by (eapply moved_on_token; [|exact B|exact M]; lia).
    destruct (String.eqb (caddyfile.Val d1) "{"); ds.
    + pose proof (Next_moves d1 B1) as M1.
      apply (moved_on_weaken _ 0) in M1; [|destruct (caddyfile.Next d1).1; lia].
      pose proof (moved_on_trans _ _ _ _ _ M M1) as M01.
      destruct (String.eqb (caddyfile.Val (caddyfile.Next d1).2) "}"); ds.
      * eapply moved_on_weaken; [|exact M01]. lia.
      * exact M01.
    + destruct M as [T C]. split; [exact T | ds; lia].
Qed.

(** The inner loop returns when the fuel is above the number of tokens
    left, and leaves the cursor on a token, no further back. *)
Lemma for_NextBlock_returns (fuel : nat) :
  forall (st : SimpleTrace) (d : caddyfile.Dispenser),
  on_token d ->
  (caddyfile.len d - 1 - caddyfile.cursor d < Z.of_nat fuel)%Z ->
  exists st' d' e,
    for_NextBlock fuel st d = Some (st', d', e) /\ moved_on 0 d d'.
Proof.
  induction fuel as [|fuel IH]; intros st d B F.
  { unfold on_token in B. lia. }
  cbn [for_NextBlock].
  pose proof (NextBlock_moves d 0 B) as M.
  destruct (caddyfile.NextBlock d 0) as [inside d1]. ds in M.
  destruct inside; ds in *; [|now eauto].
  assert (on_token d1) as B1 by (eapply moved_on_token; [|exact B|exact M]; lia).
  pose proof (NextArg_moves d1 B1) as A.
  pose proof (moved_on_trans _ _ _ _ _ M A) as MA.
  assert (forall st1, exists st' d' e,
            for_NextBlock fuel st1 (caddyfile.NextArg d1).2 = Some (st', d', e)
            /\ moved_on 0 d d') as Rec.
  { intros st1.
    assert (on_token (caddyfile.NextArg d1).2) as B2
      by (eapply moved_on_token; [|exact B1|exact A]; lia).
    destruct (IH st1 _ B2) as (st' & d' & e & E & M').
    - rewrite (moved_on_len _ _ _ MA). destruct MA as [_ C]. lia.
    - exists st', d', e. split; [exact E|].
      eapply moved_on_weaken; [|exact (moved_on_trans _ _ _ _ _ MA M')]. lia. }
  apply (moved_on_weaken _ 0) in MA; [|lia].
  apply (moved_on_weaken _ 0) in M; [|lia].
  destruct (caddyfile.NextArg d1) as [arg d2]. ds in *.
  destruct (String.eqb (caddyfile.Val d1) "format").
  { destruct arg; ds; [apply Rec | eauto 6]. }
  destruct (String.eqb (caddyfile.Val d1) "project_id").
  { destruct arg; ds; [apply Rec | eauto 6]. }
  eauto 6.
Qed.

(** The outer loop returns as well. *)
Lemma for_Next_returns (fuel : nat) :
  forall (st : SimpleTrace) (d : caddyfile.Dispenser),
  (-1 <= caddyfile.cursor d <= caddyfile.len d - 1)%Z ->
  (caddyfile.len d - 1 - caddyfile.cursor d < Z.of_nat fuel)%Z ->
  exists res, for_Next fuel st d = Some res.
Proof.
  induction fuel as [|fuel IH]; intros st d B F; [lia|].
  cbn [for_Next]. unfold caddyfile.Next.
  destruct (caddyfile.cursor d <? caddyfile.len d - 1)%Z eqn:E; ds; [|eauto].
  apply Z.ltb_lt in E.
  assert (on_token (caddyfile.move d 1)) as B1
    by (unfold on_token, caddyfile.len; ds; unfold caddyfile.len in *; lia).
  destruct (for_NextBlock_returns (S (length (caddyfile.tokens d))) st
              (caddyfile.move d 1) B1) as (st' & d' & e & R & M).
  { unfold caddyfile.len in *. ds. lia. }
  rewrite R. destruct e as [|err]; [|eauto].
  pose proof (moved_on_len _ _ _ M) as L. destruct M as [_ C].
  unfold caddyfile.len in *. ds in *.
  apply IH; unfold caddyfile.len; lia.
Qed.

(** [UnmarshalCaddyfile] returns on every dispenser whose cursor is
    before the first token or on a token; the fuel of the model is never
    used up. *)
Lemma UnmarshalCaddyfile_returns (st : SimpleTrace) (d : caddyfile.Dispenser) :
  (-1 <= caddyfile.cursor d <= caddyfile.len d - 1)%Z ->
  exists st' d' err, UnmarshalCaddyfile st d = Some (st', d', err).
Proof.
  intros B. unfold UnmarshalCaddyfile.
  destruct (for_Next_returns (S (length (caddyfile.tokens d))) st d B)
    as ([[st' d'] err] & E).
  - unfold caddyfile.len in *. lia.
  - now exists st', d', err.
Qed.

(** [parseCaddyfile] returns on the tokens of every directive. *)
Lemma parseCaddyfile_returns (toks : list caddyfile.Token) :
  exists st err, parseCaddyfile (caddyfile.NewDispenser toks) = Some (st, err).
Proof.
  unfold parseCaddyfile.
  destruct (UnmarshalCaddyfile_returns {| Format := ""; ProjectID := "" |}
              (caddyfile.NewDispenser toks)) as (st & d & err & E).
  - unfold caddyfile.len. cbn. lia.
  - rewrite E. now exists st, err.
Qed.

(** ** Configuration: what is accepted and what is not *)

(** The [format] case: the argument is stored as it is. *)
Lemma for_NextBlock_format (fuel : nat) (st : SimpleTrace)
    (d d1 d2 : caddyfile.Dispenser) :
  caddyfile.NextBlock d 0 = (true, d1) ->
  caddyfile.Val d1 = "format" ->
  caddyfile.NextArg d1 = (true, d2) ->
  for_NextBlock (S fuel) st d
  = for_NextBlock fuel
      {| Format := caddyfile.Val d2; ProjectID := ProjectID st |} d2.
Proof.
  intros H1 H2 H3. cbn [for_NextBlock]. rewrite H1. cbn [negb].
  rewrite H2. cbn [String.eqb Ascii.eqb Bool.eqb]. rewrite H3. reflexivity.
Qed.

(** The end of the block. *)
Lemma for_NextBlock_done (fuel : nat) (st : SimpleTrace)
    (d d1 : caddyfile.Dispenser) :
  caddyfile.NextBlock d 0 = (false, d1) ->
  for_NextBlock (S fuel) st d = Some (st, d1, LoopDone).
Proof. intros H1. cbn [for_NextBlock]. now rewrite H1. Qed.

(** The [default] case: any other key is an error. *)
Lemma for_NextBlock_unknown (fuel : nat) (st : SimpleTrace)
    (d d1 : caddyfile.Dispenser) :
  caddyfile.NextBlock d 0 = (true, d1) ->
  caddyfile.Val d1 <> "format" -> caddyfile.Val d1 <> "project_id" ->
  for_NextBlock (S fuel) st d
  = Some (st, d1,
          Return (Some ("unknown subdirective: " +:+ caddyfile.Val d1))).
Proof.
  intros H1 H2 H3. cbn [for_NextBlock]. rewrite H1. cbn [negb].
  apply String.eqb_neq in H2, H3. now rewrite H2, H3.
Qed.

(** [format <name>] in the block of the directive: whatever the name, it
    becomes the format and no error is returned. *)
Lemma parseCaddyfile_format (name : string) :
  name <> "{" ->
  parseCaddyfile (caddyfile.NewDispenser (directive "format" name))
  = Some ({| Format := name; ProjectID := "" |}, None).
Proof.
  intros NB. set (toks := directive "format" name).
  assert (caddyfile.NextArg (dispenser_at toks 2 1)
          = (true, dispenser_at toks 3 1)) as A.
  { unfold caddyfile.NextArg.
    change (caddyfile.nextOnSameLine (dispenser_at toks 2 1))
      with (true, dispenser_at toks 3 1).
    cbn [negb]. change (caddyfile.Val (dispenser_at toks 3 1)) with name.
    apply String.eqb_neq in NB. now rewrite NB. }
  unfold parseCaddyfile, UnmarshalCaddyfile.
  change (caddyfile.NewDispenser toks) with (dispenser_at toks (-1) 0).
  change (length (caddyfile.tokens (dispenser_at toks (-1) 0))) with 5%nat.
  cbn [for_Next].
  change (caddyfile.Next (dispenser_at toks (-1) 0))
    with (true, dispenser_at toks 0 0).
  cbn [negb].
  change (length (caddyfile.tokens (dispenser_at toks 0 0))) with 5%nat.
  rewrite (for_NextBlock_format _ _ (dispenser_at toks 0 0)
             (dispenser_at toks 2 1) (dispenser_at toks 3 1)
             eq_refl eq_refl A).
  rewrite (for_NextBlock_done _ _ (dispenser_at toks 3 1)
             (dispenser_at toks 4 0) eq_refl).
  reflexivity.
Qed.

(** A key that is neither [format] nor [project_id] is a configuration
    error. *)
Lemma parseCaddyfile_unknown_key (key value : string) :
  key <> "format" -> key <> "project_id" -> key <> "}" ->
  parseCaddyfile (caddyfile.NewDispenser (directive key value))
  = Some ({| Format := ""; ProjectID := "" |},
          Some ("unknown subdirective: " +:+ key)).
Proof.
  intros N1 N2 N3. set (toks := directive key value).
  assert (caddyfile.NextBlock (dispenser_at toks 0 0) 0
          = (true, dispenser_at toks 2 1)) as B.
  { unfold caddyfile.NextBlock.
    change (0 <? caddyfile.nesting (dispenser_at toks 0 0))%Z with false.
    cbv iota.
    change (caddyfile.nextOnSameLine (dispenser_at toks 0 0))
      with (true, dispenser_at toks 1 0).
    cbn [negb].
    change (caddyfile.Val (dispenser_at toks 1 0)) with "{".
    cbn [String.eqb Ascii.eqb Bool.eqb negb].
    change (caddyfile.Next (dispenser_at toks 1 0)).2
      with (dispenser_at toks 2 0).
    change (caddyfile.Val (dispenser_at toks 2 0)) with key.
    apply String.eqb_neq in N3. rewrite N3. reflexivity. }
  unfold parseCaddyfile, UnmarshalCaddyfile.
  change (caddyfile.NewDispenser toks) with (dispenser_at toks (-1) 0).
  change (length (caddyfile.tokens (dispenser_at toks (-1) 0))) with 5%nat.
  cbn [for_Next].
  change (caddyfile.Next (dispenser_at toks (-1) 0))
    with (true, dispenser_at toks 0 0).
  cbn [negb].
  change (length (caddyfile.tokens (dispenser_at toks 0 0))) with 5%nat.
  rewrite (for_NextBlock_unknown _ _ (dispenser_at toks 0 0)
             (dispenser_at toks 2 1) B N1 N2).
  reflexivity.
Qed.

(** [Provision] returns [nil] and leaves the format as it is. *)
Lemma Provision_nil (ReplaceAll : string -> string -> string) (st : SimpleTrace) :
  (Provision ReplaceAll st).2 = None
  /\ Format (Provision ReplaceAll st).1 = Format st.
Proof.
  unfold Provision. cbn [fst snd Format ProjectID].
  destruct (_ && _); split; reflexivity.
Qed.

(** C5, counterexample to the claim as stated: the unrecognized format
    name [bogus] goes through configuration parsing and provisioning with
    no error at all, and is resolved when a request is served, to the
    generic field names. *)
Lemma C5_unknown_format_not_rejected :
  let st := {| Format := "bogus"; ProjectID := "" |} in
  parseCaddyfile (caddyfile.NewDispenser (directive "format" "bogus"))
  = Some (st, None)
  /\ Provision ReplaceAll_no_env st = (st, None)
  /\ logFields (ServeHTTP st tt request_without next_ok no_entropy 0)
     = [ zap.String "trace_id" "00000000000000000000000000000000";
         zap.String "span_id" "0000000000000000";
         zap.Bool "trace_sampled" true ].
Proof. vm_compute. repeat split. Qed.

(** C5, as amended.  An unrecognized vocabulary (format) name in the
    configuration is not signaled as an error before requests are served:
    [UnmarshalCaddyfile] stores the argument of [format] as it is and
    returns [nil], [Provision] returns [nil] and keeps the name, and the
    name is resolved at request time, where it selects the generic
    vocabulary. *)
Theorem C5_format_name_resolved_at_request_time {ResponseWriter : Type}
    (ReplaceAll : string -> string -> string) (name : string)
    (w : ResponseWriter) (r : Request) (next : Handler ResponseWriter)
    (R : rand.Reader) (k : nat) :
  name <> "{" ->
  name ∉ cloud_names ++ vendor_names ->
  let st := {| Format := name; ProjectID := "" |} in
  let sv := ServeHTTP (Provision ReplaceAll st).1 w r next R k in
  parseCaddyfile (caddyfile.NewDispenser (directive "format" name))
  = Some (st, None)
  /\ (Provision ReplaceAll st).2 = None
  /\ Format (Provision ReplaceAll st).1 = name
  /\ logFields sv
     = [ zap.String "trace_id" (traceID (context sv));
         zap.String "span_id" (spanID (context sv));
         zap.Bool "trace_sampled" (sampled (context sv)) ]
       ++ (if bool_decide (parentSpanID (context sv) = "") then []
           else [zap.String "parent_span_id" (parentSpanID (context sv))]).
Proof.
  intros NB NK st sv.
  destruct (Provision_nil ReplaceAll st) as [P1 P2].
  split_and!; [now apply parseCaddyfile_format | exact P1 | exact P2 |].
  apply logFields_generic. now rewrite P2.
Qed.

(** C5, witness: the format name [jaeger]. *)
Lemma C5_format_name_resolved_at_request_time_witness :
  parseCaddyfile (caddyfile.NewDispenser (directive "format" "jaeger"))
  = Some ({| Format := "jaeger"; ProjectID := "" |}, None).
Proof.
  refine (proj1 (C5_format_name_resolved_at_request_time ReplaceAll_no_env
                   "jaeger" tt request_without next_ok no_entropy 0 _ _)).
  - discriminate.
  - apply names_decide. vm_compute. reflexivity.
Defined.

(** ** The scenarios of the specification *)

Example Split_examples :
  strings.Split "00-abc-def" dash = ["00"; "abc"; "def"]
  /\ strings.Split "" dash = [""]
  /\ strings.Split "00-abc--01" dash = ["00"; "abc"; ""; "01"]
  /\ strings.Split "-" dash = [""; ""].
Proof. repeat split. Qed.

Example Sscanf_x_examples :
  fmt.Sscanf_x 2 8 "ff" = Some 255 /\ fmt.Sscanf_x 2 8 "0F" = Some 15
  /\ fmt.Sscanf_x 2 8 "zz" = None /\ fmt.Sscanf_x 2 8 "  " = None
  /\ fmt.Sscanf_x 2 8 "1z" = Some 1 /\ fmt.Sscanf_x 2 8 "123" = Some 18.
Proof. vm_compute. repeat split. Qed.

Example Sprintf_0x_examples :
  fmt.Sprintf_0x 16 0 = "0000000000000000"
  /\ fmt.Sprintf_0x 5 0xabc = "00abc" /\ fmt.Sprintf_0x 2 0xabc = "abc".
Proof. vm_compute. repeat split. Qed.

(** Scenario 1: a valid header under the generic vocabulary. *)
Example scenario_1 :
  let sv := ServeHTTP {| Format := ""; ProjectID := "" |} tt
              (request_with "00-4bf92f3577b34da6a3ce929d0e0e4736-00f067aa0ba902b7-01")
              next_ok some_entropy 0 in
  logFields sv
  = [ zap.String "trace_id" "4bf92f3577b34da6a3ce929d0e0e4736";
      zap.String "span_id" "a1b2c3d4e5f60718";
      zap.Bool "trace_sampled" true;
      zap.String "parent_span_id" "00f067aa0ba902b7" ]
  /\ newTraceParent sv
     = "00-4bf92f3577b34da6a3ce929d0e0e4736-a1b2c3d4e5f60718-01".
Proof. vm_compute. split; reflexivity. Qed.

(** Scenario 2: no header, cloud-logging vocabulary, project
    [my-project]. *)
Example scenario_2 :
  let sv := ServeHTTP {| Format := "stackdriver"; ProjectID := "my-project" |} tt
              request_without next_ok some_entropy 0 in
  logFields sv
  = [ zap.String "logging.googleapis.com/trace"
        "projects/my-project/traces/a1b2c3d4e5f607180000000000000000";
      zap.String "logging.googleapis.com/spanId" "a1b2c3d4e5f60718";
      zap.Bool "logging.googleapis.com/trace_sampled" true ].
Proof. vm_compute. reflexivity. Qed.

(** Scenario 3: a header of three fields is as good as none. *)
Example scenario_3 :
  let st := {| Format := "stackdriver"; ProjectID := "my-project" |} in
  let sv := ServeHTTP st tt (request_with "00-abc-def") next_ok some_entropy 0 in
  context sv = context (ServeHTTP st tt request_without next_ok some_entropy 0)
  /\ logFields sv
     = logFields (ServeHTTP st tt request_without next_ok some_entropy 0)
  /\ newTraceParent sv
     = "00-a1b2c3d4e5f607180000000000000000-a1b2c3d4e5f60718-01".
Proof. vm_compute. repeat split. Qed.

(** * Further properties of the code *)

(** ** The trace context, whatever the header *)

Lemma generated_span_no_dash (R : rand.Reader) (k : nat) :
  no_dash (generateSpanID R k).1 = true.
Proof.
  pose proof (generateSpanID_shape R k) as H.
  apply fixed_width_spec in H as [_ H]. now apply lower_hex_no_dash.
Qed.

Lemma generated_trace_no_dash (R : rand.Reader) (k : nat) :
  no_dash (generateTraceID R k).1 = true.
Proof.
  pose proof (generateTraceID_shape R k) as H.
  apply fixed_width_spec in H as [_ H]. now apply lower_hex_no_dash.
Qed.

(** The two ways a trace context comes about. *)
Lemma context_cases {ResponseWriter : Type}
    (st : SimpleTrace) (w : ResponseWriter) (r : Request)
    (next : Handler ResponseWriter) (R : rand.Reader) (k : nat) :
  let sv := ServeHTTP st w r next R k in
  (exists t p f,
     strings.Split (http.Get (Header r) "traceparent") dash = ["00"; t; p; f]
     /\ context sv
        = {| traceID := t; spanID := (generateSpanID R k).1; parentSpanID := p;
             flags := f; sampled := parseSampledFlag f |}
     /\ reads sv = S k)
  \/ (~ well_formed (http.Get (Header r) "traceparent")
      /\ context sv
         = {| traceID := (generateTraceID R k).1;
              spanID := (generateSpanID R (S k)).1; parentSpanID := "";
              flags := "01"; sampled := true |}
      /\ reads sv = S (S k)).
Proof.
  intros sv.
  destruct (classic_well_formed (http.Get (Header r) "traceparent"))
    as [(t & p & f & H)|H].
  - left. exists t, p, f. split; [exact H|].
    exact (ServeHTTP_adopts st w r next R k t p f H).
  - right. split; [exact H|]. exact (ServeHTTP_generates st w r next R k H).
Qed.

Lemma context_no_dash {ResponseWriter : Type}
    (st : SimpleTrace) (w : ResponseWriter) (r : Request)
    (next : Handler ResponseWriter) (R : rand.Reader) (k : nat) :
  let c := context (ServeHTTP st w r next R k) in
  no_dash (traceID c) = true /\ no_dash (spanID c) = true
  /\ no_dash (flags c) = true.
Proof.
  intros c. subst c.
  destruct (context_cases st w r next R k)
    as [(t & p & f & H & -> & _)|(_ & -> & _)]; cbn [traceID spanID flags].
  - destruct (Split_four_inv _ _ _ _ _ H) as (_ & _ & Nt & _ & Nf).
    auto using generated_span_no_dash.
  - auto using generated_span_no_dash, generated_trace_no_dash.
Qed.

Lemma sampled_of_flags {ResponseWriter : Type}
    (st : SimpleTrace) (w : ResponseWriter) (r : Request)
    (next : Handler ResponseWriter) (R : rand.Reader) (k : nat) :
  let c := context (ServeHTTP st w r next R k) in
  sampled c = parseSampledFlag (flags c).
Proof.
  intros c. subst c.
  destruct (context_cases st w r next R k)
    as [(t & p & f & H & -> & _)|(_ & -> & _)]; reflexivity.
Qed.

Lemma outgoing_fields {ResponseWriter : Type}
    (st : SimpleTrace) (w : ResponseWriter) (r : Request)
    (next : Handler ResponseWriter) (R : rand.Reader) (k : nat) :
  let sv := ServeHTTP st w r next R k in
  strings.Split (newTraceParent sv) dash
  = ["00"; traceID (context sv); spanID (context sv); flags (context sv)].
Proof.
  intros sv. unfold sv. rewrite ServeHTTP_newTraceParent.
  destruct (context_no_dash st w r next R k) as (Nt & Ns & Nf).
  change ("00-" +:+ ?x) with ("00" +:+ "-" +:+ x).
  now apply Split_traceparent.
Qed.

(** What is handed on, when something is. *)
Lemma handed_on {ResponseWriter : Type}
    (st : SimpleTrace) (w : ResponseWriter) (r : Request)
    (next : Handler ResponseWriter) (R : rand.Reader) (k : nat)
    (r' : Request) (err : error) :
  let sv := ServeHTTP st w r next R k in
  returned sv = Some (r', err) ->
  exists extra,
    ExtraLogFields r = Some extra
    /\ r' = {| Header := http.Set_ (Header r) "traceparent" (newTraceParent sv);
               ExtraLogFields := Some (extra ++ logFields sv) |}
    /\ err = next w r'.
Proof.
  intros sv H. unfold sv in H. rewrite ServeHTTP_returned in H. fold sv in H.
  destruct (ExtraLogFields r) as [extra|]; [|discriminate].
  cbn zeta in H. injection H as <- <-. now exists extra.
Qed.

(** X1.  Propagation from hop to hop: the request one handler hands on is
    taken up by the next handler (of any configuration and entropy), which
    adopts the same trace id and the same flags, reports the same sampled
    decision, takes the first handler's span id as its parent span id, and
    generates a span id only. *)
Theorem X1_next_hop_continues_trace {ResponseWriter : Type}
    (st st' : SimpleTrace) (w w' : ResponseWriter) (r r1 : Request)
    (next next' : Handler ResponseWriter) (R R' : rand.Reader) (k k' : nat)
    (err : error) :
  let sv := ServeHTTP st w r next R k in
  returned sv = Some (r1, err) ->
  let sv' := ServeHTTP st' w' r1 next' R' k' in
  traceID (context sv') = traceID (context sv)
  /\ parentSpanID (context sv') = spanID (context sv)
  /\ flags (context sv') = flags (context sv)
  /\ sampled (context sv') = sampled (context sv)
  /\ spanID (context sv') = (generateSpanID R' k').1
  /\ reads sv' = S k'.
Proof.
  intros sv H sv'.
  destruct (handed_on st w r next R k r1 err H) as (extra & _ & E & _).
  fold sv in E.
  assert (http.Get (Header r1) "traceparent" = newTraceParent sv) as G
    by (rewrite E; cbn [Header]; apply Get_Set).
  pose proof (outgoing_fields st w r next R k) as S4.
  cbv zeta in S4. fold sv in S4. rewrite <- G in S4.
  destruct (ServeHTTP_adopts st' w' r1 next' R' k' _ _ _ S4) as [C K].
  fold sv' in C, K. rewrite C. cbn [traceID spanID parentSpanID flags sampled].
  split_and!; try reflexivity; [|exact K].
  symmetry. apply sampled_of_flags.
Qed.

(** X1, witness: two hops from a request without a header. *)
Lemma X1_next_hop_continues_trace_witness :
  let first := ServeHTTP {| Format := ""; ProjectID := "" |} tt request_without
                 next_ok some_entropy 0 in
  let r1 := match returned first with
            | Some (r1, _) => r1
            | None => request_without
            end in
  let second := ServeHTTP {| Format := "ecs"; ProjectID := "" |} tt r1
                  next_ok no_entropy 5 in
  traceID (context second) = "a1b2c3d4e5f607180000000000000000"
  /\ parentSpanID (context second) = "a1b2c3d4e5f60718"
  /\ spanID (context second) = "0000000000000000".
Proof.
  intros first r1 second.
  destruct (X1_next_hop_continues_trace
              {| Format := ""; ProjectID := "" |}
              {| Format := "ecs"; ProjectID := "" |}
              tt tt request_without r1 next_ok next_ok
              some_entropy no_entropy 0 5 None eq_refl)
    as (T & P & _ & _ & S & _).
  split_and!; [exact T | exact P | exact S].
Defined.

Lemma length_append (a b : string) :
  String.length (a +:+ b) = (String.length a + String.length b)%nat.
Proof.
  induction a as [|c a IH]; [reflexivity|].
  change (String c a +:+ b) with (String c (a +:+ b)).
  cbn [String.length Nat.add]. now rewrite IH.
Qed.

(** X2.  Whatever the incoming header, the outgoing header splits back
    into exactly the four fields ["00"], trace id, span id and flags of
    the run, and the span id is 16 lower-case hexadecimal characters: a
    handler downstream always finds a header it takes up. *)
Theorem X2_outgoing_header_parses_back {ResponseWriter : Type}
    (st : SimpleTrace) (w : ResponseWriter) (r : Request)
    (next : Handler ResponseWriter) (R : rand.Reader) (k : nat) :
  let sv := ServeHTTP st w r next R k in
  strings.Split (newTraceParent sv) dash
  = ["00"; traceID (context sv); spanID (context sv); flags (context sv)]
  /\ well_formed (newTraceParent sv)
  /\ fixed_width is_lower_hex 16 (spanID (context sv)) = true
  /\ String.length (newTraceParent sv)
     = (21 + String.length (traceID (context sv))
        + String.length (flags (context sv)))%nat.
Proof.
  intros sv. pose proof (outgoing_fields st w r next R k) as S4.
  cbv zeta in S4. fold sv in S4.
  assert (fixed_width is_lower_hex 16 (spanID (context sv)) = true) as W.
  { destruct (context_cases st w r next R k)
      as [(t & p & f & _ & C & _)|(_ & C & _)];
      fold sv in C; rewrite C; apply generateSpanID_shape. }
  split_and!; [exact S4 | eexists _, _, _; exact S4 | exact W |].
  unfold sv. rewrite ServeHTTP_newTraceParent. fold sv.
  apply fixed_width_spec in W as [L _].
  rewrite !length_append, L. cbn [String.length]. lia.
Qed.

(** X3.  The log and the wire never disagree on sampling: the sampled
    field of the log record, under the vocabulary's key, holds what
    [parseSampledFlag] makes of the flags put in the outgoing header. *)
Theorem X3_sampled_field_matches_flags {ResponseWriter : Type}
    (st : SimpleTrace) (w : ResponseWriter) (r : Request)
    (next : Handler ResponseWriter) (R : rand.Reader) (k : nat) :
  let sv := ServeHTTP st w r next R k in
  sampled (context sv) = parseSampledFlag (flags (context sv))
  /\ logFields sv !! 2%nat
     = Some (zap.Bool (sampled_key (vocabulary st))
               (parseSampledFlag (flags (context sv))))
  /\ nth 3 (strings.Split (newTraceParent sv) dash) "" = flags (context sv).
Proof.
  intros sv. pose proof (sampled_of_flags st w r next R k) as S.
  cbv zeta in S. fold sv in S.
  pose proof (outgoing_fields st w r next R k) as S4.
  cbv zeta in S4. fold sv in S4.
  split_and!; [exact S | | now rewrite S4].
  unfold sv. rewrite ServeHTTP_logFields. fold sv. now rewrite <- S.
Qed.

(** X4.  The handler goes on to [next] exactly when the request context
    holds its [ExtraLogFields]; the request handed on has the outgoing
    header under [traceparent], every other header as it was, and the log
    fields of the run appended, in order, to those already there; the
    error returned is the one [next] returns. *)
Theorem X4_request_handed_on {ResponseWriter : Type}
    (st : SimpleTrace) (w : ResponseWriter) (r : Request)
    (next : Handler ResponseWriter) (R : rand.Reader) (k : nat) :
  let sv := ServeHTTP st w r next R k in
  (returned sv = None <-> ExtraLogFields r = None)
  /\ (forall r' err, returned sv = Some (r', err) ->
      err = next w r'
      /\ http.Get (Header r') "traceparent" = newTraceParent sv
      /\ (forall key, key <> "Traceparent" -> Header r' !! key = Header r !! key)
      /\ (forall key, http.CanonicalMIMEHeaderKey key <> "Traceparent" ->
          http.Get (Header r') key = http.Get (Header r) key)
      /\ exists extra, ExtraLogFields r = Some extra
                       /\ ExtraLogFields r' = Some (extra ++ logFields sv)).
Proof.
  intros sv. split.
  - unfold sv. rewrite ServeHTTP_returned.
    destruct (ExtraLogFields r); split; intros H; try discriminate; reflexivity.
  - intros r' err H.
    destruct (handed_on st w r next R k r' err H) as (extra & E & -> & ->).
    fold sv. cbn [Header ExtraLogFields].
    split_and!; [reflexivity | apply Get_Set | | | now exists extra].
    + intros key N. unfold http.Set_.
      change (http.CanonicalMIMEHeaderKey "traceparent") with "Traceparent".
      now rewrite lookup_insert_ne.
    + intros key N. unfold http.Get, http.Set_.
      change (http.CanonicalMIMEHeaderKey "traceparent") with "Traceparent".
      now rewrite lookup_insert_ne.
Qed.

(** X4, witness: a request with another header and a log field of its
    own. *)
Lemma X4_request_handed_on_witness :
  let r := {| Header := {[ "Traceparent" := ["00-a-b-01"] ]}
                        ∪ {[ "Tracestate" := ["k=v"] ]};
              ExtraLogFields := Some [zap.String "user" "u1"] |} in
  let sv := ServeHTTP {| Format := ""; ProjectID := "" |} tt r next_ok no_entropy 0 in
  match returned sv with
  | Some (r', err) =>
      err = next_ok tt r'
      /\ http.Get (Header r') "tracestate" = "k=v"
      /\ ExtraLogFields r' = Some (zap.String "user" "u1" :: logFields sv)
  | None => False
  end.
Proof.
  intros r sv.
  pose proof (proj2 (X4_request_handed_on {| Format := ""; ProjectID := "" |}
                       tt r next_ok no_entropy 0)) as H.
  cbv zeta in H. fold sv in H.
  destruct (returned sv) as [[r' err]|] eqn:E; [|vm_compute in E; discriminate E].
  destruct (H r' err eq_refl) as (He & _ & _ & Hk & extra & Hx & Hx').
  split_and!; [exact He | | ].
  - rewrite (Hk "tracestate"); [reflexivity | vm_compute; discriminate].
  - rewrite Hx'. injection Hx as <-. reflexivity.
Defined.

(** ** The log fields, whatever the configuration *)

Lemma NoDup_decide (l : list string) : bool_decide (NoDup l) = true -> NoDup l.
Proof. apply bool_decide_eq_true_1. Qed.

(** The trace context and the outgoing header do not look at the
    configuration. *)
Lemma config_independent {ResponseWriter : Type}
    (st st' : SimpleTrace) (w : ResponseWriter) (r : Request)
    (next : Handler ResponseWriter) (R : rand.Reader) (k : nat) :
  context (ServeHTTP st w r next R k) = context (ServeHTTP st' w r next R k)
  /\ reads (ServeHTTP st w r next R k) = reads (ServeHTTP st' w r next R k)
  /\ newTraceParent (ServeHTTP st w r next R k)
     = newTraceParent (ServeHTTP st' w r next R k).
Proof.
  unfold ServeHTTP.
  match goal with |- context [let '(_, _) := ?X in _] => destruct X end.
  split_and!; reflexivity.
Qed.

(** Two configurations with the same log fields make the same run. *)
Lemma same_fields_same_run {ResponseWriter : Type}
    (st st' : SimpleTrace) (w : ResponseWriter) (r : Request)
    (next : Handler ResponseWriter) (R : rand.Reader) (k : nat) :
  vocabulary st = vocabulary st' ->
  (forall t, transform_of st t = transform_of st' t) ->
  ServeHTTP st w r next R k = ServeHTTP st' w r next R k.
Proof.
  intros V T.
  destruct (config_independent st st' w r next R k) as (C & K & N).
  pose proof (ServeHTTP_logFields st w r next R k) as L.
  pose proof (ServeHTTP_logFields st' w r next R k) as L'.
  pose proof (ServeHTTP_returned st w r next R k) as Ret.
  pose proof (ServeHTTP_returned st' w r next R k) as Ret'.
  assert (logFields (ServeHTTP st w r next R k)
          = logFields (ServeHTTP st' w r next R k)) as LL.
  { rewrite L, L', V, C. unfold map_fields. now rewrite T. }
  rewrite <- N, <- LL in Ret'. rewrite <- Ret' in Ret.
  destruct (ServeHTTP st w r next R k), (ServeHTTP st' w r next R k).
  cbn in *. congruence.
Qed.

(** X5.  The keys of the log fields of a run are pairwise distinct, under
    every vocabulary, and there are three or four fields. *)
Theorem X5_log_field_keys_distinct {ResponseWriter : Type}
    (st : SimpleTrace) (w : ResponseWriter) (r : Request)
    (next : Handler ResponseWriter) (R : rand.Reader) (k : nat) :
  let sv := ServeHTTP st w r next R k in
  NoDup (map zap.Key (logFields sv))
  /\ length (logFields sv)
     = (if bool_decide (parentSpanID (context sv) = "") then 3 else 4)%nat.
Proof.
  intros sv. unfold sv. rewrite ServeHTTP_logFields. fold sv.
  unfold map_fields.
  pose proof (vocabulary_cases st) as V.
  destruct (bool_decide (parentSpanID (context sv) = ""));
    (split; [|reflexivity]); cbn [app map zap.Key];
    repeat (apply elem_of_cons in V as [->|V]);
    try (now apply elem_of_nil in V);
    apply NoDup_decide; vm_compute; reflexivity.
Qed.

(** X6.  Format names that mean the same make the same run: [gcp] is
    [stackdriver], [dd] is [datadog], and the empty format, [otel] and
    every name the switch does not know are one and the same. *)
Theorem X6_format_aliases {ResponseWriter : Type}
    (st st' : SimpleTrace) (w : ResponseWriter) (r : Request)
    (next : Handler ResponseWriter) (R : rand.Reader) (k : nat) :
  ProjectID st = ProjectID st' ->
  (Format st ∈ cloud_names /\ Format st' ∈ cloud_names)
  \/ (Format st ∈ ["datadog"; "dd"] /\ Format st' ∈ ["datadog"; "dd"])
  \/ ((Format st ∉ cloud_names ++ vendor_names)
      /\ (Format st' ∉ cloud_names ++ vendor_names)) ->
  ServeHTTP st w r next R k = ServeHTTP st' w r next R k.
Proof.
  intros P [[H H']|[[H H']|[H H']]]; apply same_fields_same_run.
  - destruct (vocabulary_cloud st H) as [-> _].
    now destruct (vocabulary_cloud st' H') as [-> _].
  - intros t. destruct (vocabulary_cloud st H) as [_ ->].
    destruct (vocabulary_cloud st' H') as [_ ->]. now rewrite P.
  - unfold vocabulary, selected, cloud_names.
    rewrite !elem_of_cons, elem_of_nil in H, H'.
    destruct H as [->|[->|[]]], H' as [->|[->|[]]]; reflexivity.
  - intros t. rewrite !transform_other; [reflexivity| |];
      unfold cloud_names; rewrite !elem_of_cons, elem_of_nil in *;
      intros [E|[E|[]]]; rewrite E in *; intuition discriminate.
  - destruct (vocabulary_generic st H) as [-> _].
    now destruct (vocabulary_generic st' H') as [-> _].
  - intros t. destruct (vocabulary_generic st H) as [_ ->].
    now destruct (vocabulary_generic st' H') as [_ ->].
Qed.

(** X6, witness: [gcp] against [stackdriver], and an unknown name against
    the empty format. *)
Lemma X6_format_aliases_witness :
  ServeHTTP {| Format := "gcp"; ProjectID := "p" |} tt (request_with "00-a-b-01")
    next_ok some_entropy 0
  = ServeHTTP {| Format := "stackdriver"; ProjectID := "p" |} tt
      (request_with "00-a-b-01") next_ok some_entropy 0
  /\ ServeHTTP {| Format := "zipkin"; ProjectID := "p" |} tt request_without
       next_ok some_entropy 0
     = ServeHTTP {| Format := ""; ProjectID := "p" |} tt request_without
         next_ok some_entropy 0.
Proof.
  split.
  - apply X6_format_aliases; [reflexivity|]. left.
    split; apply list_elem_of_In; cbn; auto.
  - apply X6_format_aliases; [reflexivity|]. right. right.
    split; apply names_decide; vm_compute; reflexivity.
Defined.

(** X7.  The configuration decides the log fields and nothing else: the
    trace context, the entropy used and the outgoing header are the same
    under every configuration; and outside the cloud-logging vocabulary
    the project id changes nothing at all. *)
Theorem X7_configuration_only_names_fields {ResponseWriter : Type}
    (st st' : SimpleTrace) (w : ResponseWriter) (r : Request)
    (next : Handler ResponseWriter) (R : rand.Reader) (k : nat) :
  let sv := ServeHTTP st w r next R k in
  let sv' := ServeHTTP st' w r next R k in
  context sv = context sv' /\ reads sv = reads sv'
  /\ newTraceParent sv = newTraceParent sv'
  /\ (Format st = Format st' -> Format st ∉ cloud_names -> sv = sv').
Proof.
  intros sv sv'.
  destruct (config_independent st st' w r next R k) as (C & K & N).
  split_and!; [exact C | exact K | exact N |].
  intros E NC. apply same_fields_same_run.
    + unfold vocabulary. now rewrite E.
    + intros t. rewrite !transform_other; [reflexivity | now rewrite <- E | exact NC].
Qed.

(** X7, witness: [tempo] with two project ids. *)
Lemma X7_configuration_only_names_fields_witness :
  ServeHTTP {| Format := "tempo"; ProjectID := "p" |} tt request_without
    next_ok some_entropy 0
  = ServeHTTP {| Format := "tempo"; ProjectID := "q" |} tt request_without
      next_ok some_entropy 0.
Proof.
  refine (proj2 (proj2 (proj2
            (X7_configuration_only_names_fields
               {| Format := "tempo"; ProjectID := "p" |}
               {| Format := "tempo"; ProjectID := "q" |}
               tt request_without next_ok some_entropy 0))) eq_refl _).
  intros H. apply list_elem_of_In in H. cbn in H.
  destruct H as [H|[H|[]]]; discriminate H.
Defined.

Lemma vocabulary_of_name (st : SimpleTrace) (v : Vocabulary) :
  Format st <> "" -> selected (Format st) = v -> vocabulary st = v.
Proof.
  intros N S. unfold vocabulary. now rewrite (bool_decide_eq_false_2 _ N).
Qed.

(** X8.  The field names of the vendor vocabularies: [traceID], [spanID],
    [traceSampled], [parentSpanID] under [tempo]; [trace.id], [span.id],
    [trace.sampled], [span.parent_id] under [ecs]; [dd.trace_id],
    [dd.span_id], [dd.sampled], [dd.parent_id] under [datadog] and [dd];
    and under [stackdriver] and [gcp] the [logging.googleapis.com/] keys
    with the parent under the plain key [parent_span_id].  Span id,
    sampled and parent span id are never transformed. *)
Theorem X8_vendor_vocabularies {ResponseWriter : Type}
    (st : SimpleTrace) (w : ResponseWriter) (r : Request)
    (next : Handler ResponseWriter) (R : rand.Reader) (k : nat) :
  let sv := ServeHTTP st w r next R k in
  let c := context sv in
  let parent (key : string) :=
    if bool_decide (parentSpanID c = "") then []
    else [zap.String key (parentSpanID c)] in
  (Format st = "tempo" ->
   logFields sv
   = [ zap.String "traceID" (traceID c); zap.String "spanID" (spanID c);
       zap.Bool "traceSampled" (sampled c) ] ++ parent "parentSpanID")
  /\ (Format st = "ecs" ->
      logFields sv
      = [ zap.String "trace.id" (traceID c); zap.String "span.id" (spanID c);
          zap.Bool "trace.sampled" (sampled c) ] ++ parent "span.parent_id")
  /\ (Format st ∈ ["datadog"; "dd"] ->
      logFields sv
      = [ zap.String "dd.trace_id" (traceID c); zap.String "dd.span_id" (spanID c);
          zap.Bool "dd.sampled" (sampled c) ] ++ parent "dd.parent_id")
  /\ (Format st ∈ cloud_names ->
      logFields sv
      = [ zap.String "logging.googleapis.com/trace"
            (if bool_decide (ProjectID st = "") then traceID c
             else "projects/" +:+ ProjectID st +:+ "/traces/" +:+ traceID c);
          zap.String "logging.googleapis.com/spanId" (spanID c);
          zap.Bool "logging.googleapis.com/trace_sampled" (sampled c) ]
        ++ parent "parent_span_id").
Proof.
  intros sv c parent. unfold sv. rewrite ServeHTTP_logFields. fold sv c.
  unfold map_fields. fold (parent (parent_key (vocabulary st))).
  assert (forall name, name ∉ cloud_names -> Format st = name ->
          forall t, transform_of st t = t) as T
    by (intros name N E t; apply transform_other; now rewrite E).
  split_and!.
  - intros E.
    rewrite (vocabulary_of_name st tempo_style), (T "tempo");
      [reflexivity | | exact E | | ]; rewrite ?E; try discriminate;
      [| reflexivity].
    unfold cloud_names. rewrite !not_elem_of_cons. split_and!; try discriminate.
    apply not_elem_of_nil.
  - intros E.
    rewrite (vocabulary_of_name st common_schema), (T "ecs");
      [reflexivity | | exact E | | ]; rewrite ?E; try discriminate;
      [| reflexivity].
    unfold cloud_names. rewrite !not_elem_of_cons. split_and!; try discriminate.
    apply not_elem_of_nil.
  - intros H. rewrite !elem_of_cons, elem_of_nil in H.
    destruct H as [E|[E|[]]].
    + rewrite (vocabulary_of_name st vendor_agent), (T "datadog");
        [reflexivity | | exact E | | ]; rewrite ?E; try discriminate;
        [| reflexivity].
      unfold cloud_names. rewrite !not_elem_of_cons. split_and!; try discriminate.
      apply not_elem_of_nil.
    + rewrite (vocabulary_of_name st vendor_agent), (T "dd");
        [reflexivity | | exact E | | ]; rewrite ?E; try discriminate;
        [| reflexivity].
      unfold cloud_names. rewrite !not_elem_of_cons. split_and!; try discriminate.
      apply not_elem_of_nil.
  - intros H. destruct (vocabulary_cloud st H) as [-> ->]. reflexivity.
Qed.

(** X8, witness: [datadog] on a header with a parent. *)
Lemma X8_vendor_vocabularies_witness :
  logFields (ServeHTTP {| Format := "datadog"; ProjectID := "" |} tt
               (request_with "00-a-b-00") next_ok no_entropy 0)
  = [ zap.String "dd.trace_id" "a"; zap.String "dd.span_id" "0000000000000000";
      zap.Bool "dd.sampled" false; zap.String "dd.parent_id" "b" ].
Proof.
  refine (proj1 (proj2 (proj2 (X8_vendor_vocabularies
            {| Format := "datadog"; ProjectID := "" |} tt
            (request_with "00-a-b-00") next_ok no_entropy 0))) _).
  apply list_elem_of_In. cbn. auto.
Defined.

(** ** The identifiers *)

(** The two digits of a byte give the byte back. *)
Lemma encoded_byte_value (v : Byte.byte) :
  16 * fmt.hex_value (byte_of (hex.digit (N.shiftr (Byte.to_N v) 4)))
  + fmt.hex_value (byte_of (hex.digit (N.land (Byte.to_N v) 15)))
  = Byte.to_N v.
Proof. destruct v; vm_compute; reflexivity. Qed.

Lemma EncodeToString_inj (src src' : list Byte.byte) :
  hex.EncodeToString src = hex.EncodeToString src' -> src = src'.
Proof.
  revert src'. induction src as [|v src IH]; intros [|v' src'] H;
    try discriminate H; [reflexivity|].
  cbn [hex.EncodeToString] in H. injection H as H1 H2 H3.
  f_equal; [|now apply IH].
  pose proof (encoded_byte_value v) as V. rewrite H1, H2 in V.
  rewrite encoded_byte_value in V.
  pose proof (Byte.of_to_N v) as O. rewrite <- V, Byte.of_to_N in O.
  now injection O.
Qed.

Lemma eight_bytes (f g : nat -> Byte.byte) :
  map f (seq 0 8) = map g (seq 0 8) -> forall i, (i < 8)%nat -> f i = g i.
Proof.
  cbn. intros H i L. injection H as H0 H1 H2 H3 H4 H5 H6 H7.
  do 8 (destruct i as [|i]; [assumption|]). lia.
Qed.

Lemma sixteen_bytes (f g : nat -> Byte.byte) :
  map f (seq 0 16) = map g (seq 0 16) -> forall i, (i < 16)%nat -> f i = g i.
Proof.
  cbn. intros H i L.
  injection H as H0 H1 H2 H3 H4 H5 H6 H7 H8 H9 H10 H11 H12 H13 H14 H15.
  do 16 (destruct i as [|i]; [assumption|]). lia.
Qed.


(** X10.  The hexadecimal form loses nothing: two reads of the entropy
    source that succeed give the same span id (the same trace id) only if
    they delivered the same 8 (16) bytes; and a read that succeeds gives
    the all-zero fallback id only if all its bytes are zero. *)
Theorem X10_identifiers_determine_bytes (R R' : rand.Reader) (k k' : nat) :
  rand.fails R k = false -> rand.fails R' k' = false ->
  ((generateSpanID R k).1 = (generateSpanID R' k').1 ->
   forall i, (i < 8)%nat -> rand.byte_at R k i = rand.byte_at R' k' i)
  /\ ((generateTraceID R k).1 = (generateTraceID R' k').1 ->
      forall i, (i < 16)%nat -> rand.byte_at R k i = rand.byte_at R' k' i)
  /\ ((generateSpanID R k).1 = "0000000000000000" ->
      forall i, (i < 8)%nat -> rand.byte_at R k i = Byte.x00)
  /\ ((generateTraceID R k).1 = "00000000000000000000000000000000" ->
      forall i, (i < 16)%nat -> rand.byte_at R k i = Byte.x00).
Proof.
  intros F F'.
  rewrite (generateSpanID_random R k F), (generateSpanID_random R' k' F').
  rewrite (generateTraceID_random R k F), (generateTraceID_random R' k' F').
  cbn [fst]. split_and!.
  - intros H. apply eight_bytes. now apply EncodeToString_inj.
  - intros H. apply sixteen_bytes. now apply EncodeToString_inj.
  - intros H. apply (eight_bytes _ (fun _ => Byte.x00)).
    now apply EncodeToString_inj.
  - intros H. apply (sixteen_bytes _ (fun _ => Byte.x00)).
    now apply EncodeToString_inj.
Qed.

(** X10, witness: a source that delivers one byte more than another
    gives the same span id, and the same first eight bytes. *)
Lemma X10_identifiers_determine_bytes_witness :
  rand.byte_at some_entropy 0 2
  = rand.byte_at (entropy_of [Byte.xa1; Byte.xb2; Byte.xc3; Byte.xd4;
                              Byte.xe5; Byte.xf6; Byte.x07; Byte.x18;
                              Byte.xff]) 0 2.
Proof.
  refine (proj1 (X10_identifiers_determine_bytes some_entropy
                   (entropy_of [Byte.xa1; Byte.xb2; Byte.xc3; Byte.xd4;
                                Byte.xe5; Byte.xf6; Byte.x07; Byte.x18;
                                Byte.xff]) 0 0 eq_refl eq_refl) _ 2%nat _).
  - vm_compute. reflexivity.
  - lia.
Defined.

(** ** The sampled flag, exactly *)

(** X11.  [parseSampledFlag] is true for exactly these strings: two bytes,
    of which the first is a hexadecimal digit or a blank followed by a
    hexadecimal digit, and the value scanned (both digits, the first
    digit alone when the second byte is no digit, the digit after the
    blank) is odd.  Every other string, the empty one and those of any
    other length among them, gives false. *)
Theorem X11_parseSampledFlag_exact (flags : string) :
  parseSampledFlag flags = true <->
  exists c1 c2 v,
    flags = String c1 (String c2 EmptyString)
    /\ scanned_two c1 c2 = Some v /\ N.odd v = true.
Proof.
  assert (forall v, (N.land v 1 =? 1) = N.odd v) as B.
  { intros v. change 1 with (N.ones 1) at 1. rewrite N.land_ones.
    change (2 ^ 1) with 2. rewrite <- N.bit0_mod, N.bit0_odd.
    now destruct (N.odd v). }
  split.
  - intros H. destruct flags as [|c1 [|c2 [|c3 rest]]];
      try (rewrite parseSampledFlag_length in H; [discriminate H | cbn; lia]).
    rewrite parseSampledFlag_two in H.
    destruct (scanned_two c1 c2) as [v|] eqn:E; [|discriminate H].
    exists c1, c2, v. rewrite B in H. auto.
  - intros (c1 & c2 & v & -> & E & O).
    rewrite parseSampledFlag_two, E, B. exact O.
Qed.

(** X12.  On every byte written as [hex.EncodeToString] writes it, two
    lower-case digits, [parseSampledFlag] is bit 0 of the byte. *)
Theorem X12_parseSampledFlag_of_encoded_byte (v : Byte.byte) :
  parseSampledFlag (hex.EncodeToString [v]) = N.testbit (Byte.to_N v) 0.
Proof. destruct v; vm_compute; reflexivity. Qed.

(** X13.  On two hexadecimal digits of either case the result is the
    parity of the second digit: the first digit and the case of the
    letters make no difference. *)
Theorem X13_parseSampledFlag_last_digit (c1 c2 : ascii) :
  is_hex c1 = true -> is_hex c2 = true ->
  parseSampledFlag (String c1 (String c2 EmptyString))
  = N.odd (fmt.hex_value (byte_of c2))
  /\ parseSampledFlag (String c1 (String c2 EmptyString))
     = parseSampledFlag (String "0" (String (http.to_lower c2) EmptyString)).
Proof.
  intros H1 H2.
  assert (forall a b, N.testbit (16 * a + b) 0 = N.odd b) as P.
  { intros a b. rewrite N.bit0_odd, N.add_comm.
    replace (16 * a) with (2 * (8 * a)) by lia. apply N.odd_add_mul_2. }
  assert (is_hex (http.to_lower c2) = true
          /\ N.odd (fmt.hex_value (byte_of (http.to_lower c2)))
             = N.odd (fmt.hex_value (byte_of c2))) as [L2 V2].
  { assert (forallb (fun c => implb (is_hex c)
              (is_hex (http.to_lower c)
               && Bool.eqb (N.odd (fmt.hex_value (byte_of (http.to_lower c))))
                           (N.odd (fmt.hex_value (byte_of c))))) all_ascii
            = true) as A by (vm_compute; reflexivity).
    rewrite forallb_forall in A. specialize (A c2 (in_all_ascii c2)).
    rewrite H2 in A. cbn [implb] in A.
    apply andb_true_iff in A as [A1 A2]. apply Bool.eqb_prop in A2. auto. }
  rewrite (parseSampledFlag_hex_byte c1 c2 H1 H2), P.
  rewrite (parseSampledFlag_hex_byte "0" (http.to_lower c2) eq_refl L2), P.
  auto.
Qed.

(** X13, witness: [fF], [0f] and [0F]. *)
Lemma X13_parseSampledFlag_last_digit_witness :
  parseSampledFlag "fF" = true /\ parseSampledFlag "fF" = parseSampledFlag "0f".
Proof.
  exact (X13_parseSampledFlag_last_digit "f" "F" eq_refl eq_refl).
Defined.

(** ** Provisioning *)

(** X14.  [Provision] takes the project id from [GOOGLE_CLOUD_PROJECT]
    exactly when the format is [stackdriver] or [gcp] and the configured
    project id, placeholders replaced, is empty; the handler then puts
    that project in front of the trace id (no prefix when the variable
    gives nothing either).  In every other case the project id is the
    configured one with its placeholders replaced.  The format is never
    changed and no error is returned. *)
Theorem X14_project_id_from_environment {ResponseWriter : Type}
    (ReplaceAll : string -> string -> string) (st : SimpleTrace)
    (w : ResponseWriter) (r : Request) (next : Handler ResponseWriter)
    (R : rand.Reader) (k : nat) :
  let st' := (Provision ReplaceAll st).1 in
  let env := ReplaceAll "{env.GOOGLE_CLOUD_PROJECT}" "" in
  let sv := ServeHTTP st' w r next R k in
  (Provision ReplaceAll st).2 = None
  /\ Format st' = Format st
  /\ (Format st ∈ cloud_names -> ReplaceAll (ProjectID st) "" = "" ->
      ProjectID st' = env
      /\ logFields sv !! 0%nat
         = Some (zap.String "logging.googleapis.com/trace"
                   (if bool_decide (env = "") then traceID (context sv)
                    else "projects/" +:+ env +:+ "/traces/"
                         +:+ traceID (context sv))))
  /\ (Format st ∉ cloud_names \/ ReplaceAll (ProjectID st) "" <> "" ->
      ProjectID st' = ReplaceAll (ProjectID st) "").
Proof.
  intros st' env sv.
  destruct (Provision_nil ReplaceAll st) as [P1 P2]. fold st' in P2.
  assert (String.eqb (Format st) "stackdriver" || String.eqb (Format st) "gcp"
          = bool_decide (Format st ∈ cloud_names)) as C.
  { rewrite !eqb_decide. unfold cloud_names.
    destruct (decide (Format st = "stackdriver")) as [->|N1]; [now by_names|].
    destruct (decide (Format st = "gcp")) as [->|N2]; now by_names. }
  split_and!; [exact P1 | exact P2 | |].
  - intros H E.
    assert (ProjectID st' = env) as PE.
    { unfold st', Provision. cbn [fst Format ProjectID].
      rewrite C, (bool_decide_eq_true_2 _ H), E. reflexivity. }
    split; [exact PE|].
    assert (Format st' ∈ cloud_names) as H' by now rewrite P2.
    unfold sv. rewrite ServeHTTP_logFields. fold sv.
    destruct (vocabulary_cloud st' H') as [-> ->].
    unfold map_fields, resource_path. now rewrite PE.
  - intros H. unfold st', Provision. cbn [fst Format ProjectID]. rewrite C.
    destruct H as [H|H].
    + rewrite (bool_decide_eq_false_2 _ H), andb_false_r. reflexivity.
    + apply String.eqb_neq in H. rewrite H. reflexivity.
Qed.

(** X14, witness: [gcp] without a project id, [GOOGLE_CLOUD_PROJECT] set
    to [acme]. *)
Lemma X14_project_id_from_environment_witness :
  let st' := (Provision (ReplaceAll_env "acme")
                {| Format := "gcp"; ProjectID := "" |}).1 in
  ProjectID st' = "acme"
  /\ logFields (ServeHTTP st' tt request_without next_ok no_entropy 0) !! 0%nat
     = Some (zap.String "logging.googleapis.com/trace"
               "projects/acme/traces/00000000000000000000000000000000").
Proof.
  refine (proj1 (proj2 (proj2 (X14_project_id_from_environment
            (ReplaceAll_env "acme") {| Format := "gcp"; ProjectID := "" |}
            tt request_without next_ok no_entropy 0))) _ eq_refl).
  apply list_elem_of_In. cbn. auto.
Defined.

(** ** Parsing blocks of any length *)

Lemma at_nat (toks : list caddyfile.Token) (c n : Z) (p : nat) :
  caddyfile.at_ (dispenser_at toks c n) (Z.of_nat p) = toks !! p.
Proof.
  unfold caddyfile.at_, dispenser_at. cbn [caddyfile.tokens].
  destruct (Z.ltb_spec (Z.of_nat p) 0); [lia|]. now rewrite Nat2Z.id.
Qed.

Lemma at_succ (toks : list caddyfile.Token) (c n : Z) (p : nat) :
  caddyfile.at_ (dispenser_at toks c n) (Z.of_nat p + 1) = toks !! S p.
Proof.
  replace (Z.of_nat p + 1)%Z with (Z.of_nat (S p)) by lia. apply at_nat.
Qed.

Lemma Val_at (toks : list caddyfile.Token) (p : nat) (n : Z) (K : caddyfile.Token) :
  toks !! p = Some K ->
  caddyfile.Val (dispenser_at toks (Z.of_nat p) n) = caddyfile.Text K.
Proof.
  intros H. unfold caddyfile.Val.
  change (caddyfile.cursor (dispenser_at toks (Z.of_nat p) n)) with (Z.of_nat p).
  now rewrite at_nat, H.
Qed.

Lemma move_at (toks : list caddyfile.Token) (p : nat) (n : Z) :
  caddyfile.move (dispenser_at toks (Z.of_nat p) n) 1
  = dispenser_at toks (Z.of_nat (S p)) n.
Proof.
  unfold caddyfile.move, dispenser_at. cbn. f_equal. lia.
Qed.

Lemma Next_at (toks : list caddyfile.Token) (p : nat) (n : Z) (K : caddyfile.Token) :
  toks !! S p = Some K ->
  caddyfile.Next (dispenser_at toks (Z.of_nat p) n)
  = (true, dispenser_at toks (Z.of_nat (S p)) n).
Proof.
  intros H. apply lookup_lt_Some in H. unfold caddyfile.Next, caddyfile.len.
  cbn [caddyfile.tokens caddyfile.cursor dispenser_at].
  destruct (Z.ltb_spec (Z.of_nat p) (Z.of_nat (length toks) - 1)); [|lia].
  now rewrite <- move_at.
Qed.

Lemma Next_end (toks : list caddyfile.Token) (p : nat) (n : Z) :
  length toks = S p ->
  caddyfile.Next (dispenser_at toks (Z.of_nat p) n)
  = (false, dispenser_at toks (Z.of_nat p) n).
Proof.
  intros H. unfold caddyfile.Next, caddyfile.len.
  cbn [caddyfile.tokens caddyfile.cursor dispenser_at]. rewrite H.
  destruct (Z.ltb_spec (Z.of_nat p) (Z.of_nat (S p) - 1)); [lia | reflexivity].
Qed.

Lemma nextOnSameLine_at (toks : list caddyfile.Token) (p : nat) (n : Z)
    (K V : caddyfile.Token) :
  toks !! p = Some K -> toks !! S p = Some V ->
  caddyfile.nextOnSameLine (dispenser_at toks (Z.of_nat p) n)
  = if caddyfile.isNextOnNewLine K V
    then (false, dispenser_at toks (Z.of_nat p) n)
    else (true, dispenser_at toks (Z.of_nat (S p)) n).
Proof.
  intros HK HV. pose proof (lookup_lt_Some _ _ _ HV) as L.
  unfold caddyfile.nextOnSameLine, caddyfile.len.
  change (caddyfile.cursor (dispenser_at toks (Z.of_nat p) n)) with (Z.of_nat p).
  change (caddyfile.tokens (dispenser_at toks (Z.of_nat p) n)) with toks.
  destruct (Z.ltb_spec (Z.of_nat p) 0); [lia|].
  destruct (Z.leb_spec (Z.of_nat (length toks) - 1) (Z.of_nat p)); [lia|].
  rewrite at_nat, at_succ, HK, HV, move_at. reflexivity.
Qed.

Lemma nextOnSameLine_end (toks : list caddyfile.Token) (p : nat) (n : Z) :
  length toks = S p ->
  caddyfile.nextOnSameLine (dispenser_at toks (Z.of_nat p) n)
  = (false, dispenser_at toks (Z.of_nat p) n).
Proof.
  intros H. unfold caddyfile.nextOnSameLine, caddyfile.len.
  change (caddyfile.cursor (dispenser_at toks (Z.of_nat p) n)) with (Z.of_nat p).
  change (caddyfile.tokens (dispenser_at toks (Z.of_nat p) n)) with toks.
  destruct (Z.ltb_spec (Z.of_nat p) 0); [lia|]. rewrite H.
  destruct (Z.leb_spec (Z.of_nat (S p) - 1) (Z.of_nat p)); [reflexivity | lia].
Qed.

(** Inside the block, a token that is no brace is loaded and the loop
    goes on. *)
Lemma NextBlock_key (toks : list caddyfile.Token) (p : nat) (K : caddyfile.Token) :
  toks !! S p = Some K ->
  caddyfile.Text K <> "}" -> caddyfile.Text K <> "{" ->
  caddyfile.NextBlock (dispenser_at toks (Z.of_nat p) 1) 0
  = (true, dispenser_at toks (Z.of_nat (S p)) 1).
Proof.
  intros HK N1 N2. unfold caddyfile.NextBlock.
  change (0 <? caddyfile.nesting (dispenser_at toks (Z.of_nat p) 1))%Z with true.
  cbv iota. rewrite (Next_at toks p 1 K HK). cbn [negb].
  unfold caddyfile.val_at_line_end. rewrite (Val_at toks (S p) 1 K HK).
  apply String.eqb_neq in N1, N2. rewrite N1. cbv beta iota.
  rewrite (Val_at toks (S p) 1 K HK), N2. reflexivity.
Qed.

(** The closing brace at the end of its line ends the block. *)
Lemma NextBlock_close (toks : list caddyfile.Token) (p : nat) (K : caddyfile.Token) :
  toks !! S p = Some K -> caddyfile.Text K = "}" ->
  length toks = S (S p) ->
  caddyfile.NextBlock (dispenser_at toks (Z.of_nat p) 1) 0
  = (false, dispenser_at toks (Z.of_nat (S p)) 0).
Proof.
  intros HK E L. unfold caddyfile.NextBlock.
  change (0 <? caddyfile.nesting (dispenser_at toks (Z.of_nat p) 1))%Z with true.
  cbv iota. rewrite (Next_at toks p 1 K HK). cbn [negb].
  unfold caddyfile.val_at_line_end. rewrite (Val_at toks (S p) 1 K HK), E.
  cbn [String.eqb Ascii.eqb Bool.eqb]. rewrite (nextOnSameLine_end toks (S p) 1 L).
  reflexivity.
Qed.

(** The first turn of the loop, on [simpletrace {], is the turn of a
    dispenser already inside the block on the brace. *)
Lemma NextBlock_open (rest : list caddyfile.Token) (K : caddyfile.Token) :
  caddyfile.Text K <> "}" -> caddyfile.Text K <> "{" ->
  let toks := tok "simpletrace" 1 :: tok "{" 1 :: K :: rest in
  caddyfile.NextBlock (dispenser_at toks 0 0) 0
  = caddyfile.NextBlock (dispenser_at toks 1 1) 0.
Proof.
  intros N1 N2 toks.
  change (dispenser_at toks 1 1) with (dispenser_at toks (Z.of_nat 1) 1).
  change (dispenser_at toks 0 0) with (dispenser_at toks (Z.of_nat 0) 0).
  rewrite (NextBlock_key toks 1 K eq_refl N1 N2).
  unfold caddyfile.NextBlock.
  change (0 <? caddyfile.nesting (dispenser_at toks (Z.of_nat 0) 0))%Z with false.
  cbv iota.
  rewrite (nextOnSameLine_at toks 0 0 (tok "simpletrace" 1) (tok "{" 1)
             eq_refl eq_refl).
  change (caddyfile.isNextOnNewLine (tok "simpletrace" 1) (tok "{" 1)) with false.
  cbv iota. cbn [negb].
  rewrite (Val_at toks 1 0 (tok "{" 1) eq_refl).
  cbn [caddyfile.Text tok String.eqb Ascii.eqb Bool.eqb negb].
  rewrite (Next_at toks 1 0 K eq_refl). cbn [snd].
  rewrite (Val_at toks 2 0 K eq_refl).
  apply String.eqb_neq in N1. rewrite N1. reflexivity.
Qed.

Lemma for_NextBlock_same_turn (fuel : nat) (st : SimpleTrace)
    (d d' : caddyfile.Dispenser) :
  caddyfile.NextBlock d 0 = caddyfile.NextBlock d' 0 ->
  for_NextBlock fuel st d = for_NextBlock fuel st d'.
Proof. intros H. destruct fuel; [reflexivity|]. cbn [for_NextBlock]. now rewrite H. Qed.

Lemma NextArg_value (toks : list caddyfile.Token) (p : nat) (n : Z)
    (K V : caddyfile.Token) :
  toks !! p = Some K -> toks !! S p = Some V ->
  caddyfile.isNextOnNewLine K V = false -> caddyfile.Text V <> "{" ->
  caddyfile.NextArg (dispenser_at toks (Z.of_nat p) n)
  = (true, dispenser_at toks (Z.of_nat (S p)) n).
Proof.
  intros HK HV SL N. unfold caddyfile.NextArg.
  rewrite (nextOnSameLine_at toks p n K V HK HV), SL. cbn [negb].
  rewrite (Val_at toks (S p) n V HV). apply String.eqb_neq in N. now rewrite N.
Qed.

Lemma NextArg_none (toks : list caddyfile.Token) (p : nat) (n : Z)
    (K : caddyfile.Token) :
  toks !! p = Some K ->
  match toks !! S p with
  | Some V => caddyfile.isNextOnNewLine K V = true
  | None => True
  end ->
  caddyfile.NextArg (dispenser_at toks (Z.of_nat p) n)
  = (false, dispenser_at toks (Z.of_nat p) n).
Proof.
  intros HK H. unfold caddyfile.NextArg.
  destruct (toks !! S p) as [V|] eqn:HV.
  - now rewrite (nextOnSameLine_at toks p n K V HK HV), H.
  - rewrite nextOnSameLine_end; [reflexivity|].
    apply lookup_ge_None in HV. apply lookup_lt_Some in HK. lia.
Qed.

Lemma key_same_line (key value : string) (ln : nat) :
  key = "format" \/ key = "project_id" ->
  caddyfile.isNextOnNewLine (tok key ln) (tok value ln) = false.
Proof.
  intros [->| ->]; unfold caddyfile.isNextOnNewLine;
    change (caddyfile.NumLineBreaks (tok _ ln)) with 0%nat;
    cbn [caddyfile.Line tok]; apply Nat.ltb_ge; lia.
Qed.

(** One good line: the value is stored and the loop goes on behind
    it. *)
Lemma line_step (toks : list caddyfile.Token) (p : nat) (key value : string)
    (ln fuel : nat) (st : SimpleTrace) :
  toks !! S p = Some (tok key ln) -> toks !! S (S p) = Some (tok value ln) ->
  good_line (key, value) ->
  for_NextBlock (S fuel) st (dispenser_at toks (Z.of_nat p) 1)
  = for_NextBlock fuel (assign st (key, value))
      (dispenser_at toks (Z.of_nat (S (S p))) 1).
Proof.
  intros HK HV [G NV]. cbn [fst snd] in G, NV.
  assert (key <> "}" /\ key <> "{") as [N1 N2]
    by (destruct G as [->| ->]; split; discriminate).
  pose proof (NextArg_value toks (S p) 1 _ _ HK HV (key_same_line key value ln G) NV)
    as A.
  pose proof (Val_at toks (S (S p)) 1 _ HV) as VV. cbn [caddyfile.Text tok] in VV.
  destruct G as [->| ->].
  - rewrite (for_NextBlock_format fuel st _ _ _
               (NextBlock_key toks p _ HK N1 N2) (Val_at toks (S p) 1 _ HK) A).
    now rewrite VV.
  - cbn [for_NextBlock]. rewrite (NextBlock_key toks p _ HK N1 N2). cbn [negb].
    rewrite (Val_at toks (S p) 1 _ HK). cbn [caddyfile.Text tok].
    change (String.eqb "project_id" "format") with false.
    change (String.eqb "project_id" "project_id") with true.
    cbv iota. rewrite A. cbn [negb]. now rewrite VV.
Qed.

(** The good lines of a block, one turn each. *)
Lemma run_lines (lines : list (string * string)) :
  forall (pre post : list caddyfile.Token) (ln : nat) (st : SimpleTrace)
         (fuel p : nat),
  length pre = S p -> Forall good_line lines ->
  for_NextBlock (length lines + fuel) st
    (dispenser_at (pre ++ line_tokens ln lines ++ post) (Z.of_nat p) 1)
  = for_NextBlock fuel (fold_left assign lines st)
      (dispenser_at (pre ++ line_tokens ln lines ++ post)
         (Z.of_nat (p + 2 * length lines)) 1).
Proof.
  induction lines as [|[key value] lines IH]; intros pre post ln st fuel p L G.
  - cbn. now rewrite Nat.add_0_r.
  - inversion G as [|? ? G1 G2]; subst.
    cbn [line_tokens length fold_left Nat.add].
    set (toks := pre ++ _).
    assert (toks = (pre ++ [tok key ln; tok value ln])
                   ++ line_tokens (S ln) lines ++ post) as E
      by (unfold toks; now rewrite <- app_assoc).
    assert (toks !! S p = Some (tok key ln)) as HK
      by (unfold toks; rewrite <- L; apply list_lookup_middle; reflexivity).
    assert (toks !! S (S p) = Some (tok value ln)) as HV.
    { assert (toks = (pre ++ [tok key ln])
                     ++ tok value ln :: line_tokens (S ln) lines ++ post) as E'
        by (unfold toks; now rewrite <- app_assoc).
      rewrite E'. apply list_lookup_middle.
      rewrite length_app, L. cbn. lia. }
    rewrite (line_step toks p key value ln _ st HK HV G1).
    rewrite E. rewrite (IH _ post (S ln) _ fuel (S (S p))); [|rewrite length_app, L; cbn; lia | exact G2].
    do 2 f_equal. f_equal. lia.
Qed.

Lemma length_line_tokens (ln : nat) (lines : list (string * string)) :
  length (line_tokens ln lines) = (2 * length lines)%nat.
Proof.
  revert ln. induction lines as [|[key value] lines IH]; intros ln; cbn;
    [reflexivity | rewrite IH; lia].
Qed.

Lemma Next_start (toks : list caddyfile.Token) :
  toks <> [] ->
  caddyfile.Next (caddyfile.NewDispenser toks) = (true, dispenser_at toks 0 0).
Proof.
  intros N. destruct toks as [|K toks]; [congruence|].
  unfold caddyfile.Next, caddyfile.NewDispenser, caddyfile.len.
  cbn [caddyfile.tokens caddyfile.cursor length].
  destruct (Z.ltb_spec (-1) (Z.of_nat (S (length toks)) - 1)); [reflexivity | lia].
Qed.

(** The run of the inner loop over the good lines of a block, from the
    directive's name on. *)
Lemma block_lines_run (lines : list (string * string))
    (closing : list caddyfile.Token) (K : caddyfile.Token)
    (rest : list caddyfile.Token) (st : SimpleTrace) (fuel : nat) :
  Forall good_line lines ->
  line_tokens 2 lines ++ closing = K :: rest ->
  caddyfile.Text K <> "}" -> caddyfile.Text K <> "{" ->
  for_NextBlock (length lines + S fuel) st (dispenser_at (block lines closing) 0 0)
  = for_NextBlock (S fuel) (fold_left assign lines st)
      (dispenser_at (block lines closing) (Z.of_nat (1 + 2 * length lines)) 1).
Proof.
  intros G E N1 N2.
  rewrite (for_NextBlock_same_turn _ st _ (dispenser_at (block lines closing) 1 1)).
  - change (dispenser_at (block lines closing) 1 1)
      with (dispenser_at ([tok "simpletrace" 1; tok "{" 1]
                          ++ line_tokens 2 lines ++ closing) (Z.of_nat 1) 1).
    change (block lines closing)
      with ([tok "simpletrace" 1; tok "{" 1] ++ line_tokens 2 lines ++ closing).
    now apply run_lines.
  - unfold block. rewrite E. now apply NextBlock_open.
Qed.

(** From the inner loop to [parseCaddyfile]. *)
Lemma parse_returns_error (toks : list caddyfile.Token)
    (st : SimpleTrace) (d : caddyfile.Dispenser) (err : error) :
  toks <> [] ->
  for_NextBlock (S (length toks)) {| Format := ""; ProjectID := "" |}
    (dispenser_at toks 0 0) = Some (st, d, Return err) ->
  parseCaddyfile (caddyfile.NewDispenser toks) = Some (st, err).
Proof.
  intros N H. unfold parseCaddyfile, UnmarshalCaddyfile.
  change (caddyfile.tokens (caddyfile.NewDispenser toks)) with toks.
  cbn [for_Next]. rewrite (Next_start toks N). cbn [negb].
  change (caddyfile.tokens (dispenser_at toks 0 0)) with toks.
  now rewrite H.
Qed.

Lemma parse_returns_nil (toks : list caddyfile.Token)
    (st : SimpleTrace) (p : nat) (n : Z) :
  length toks = S p ->
  for_NextBlock (S (length toks)) {| Format := ""; ProjectID := "" |}
    (dispenser_at toks 0 0)
  = Some (st, dispenser_at toks (Z.of_nat p) n, LoopDone) ->
  parseCaddyfile (caddyfile.NewDispenser toks) = Some (st, None).
Proof.
  intros L H. unfold parseCaddyfile, UnmarshalCaddyfile.
  change (caddyfile.tokens (caddyfile.NewDispenser toks)) with toks.
  cbn [for_Next]. rewrite (Next_start toks) by (intros ->; discriminate L).
  cbn [negb].
  change (caddyfile.tokens (dispenser_at toks 0 0)) with toks.
  rewrite H. rewrite L. cbn [for_Next]. now rewrite (Next_end _ p n L).
Qed.

Lemma good_key_no_brace (line : string * string) :
  good_line line -> line.1 <> "}" /\ line.1 <> "{".
Proof. intros [[E|E] _]; rewrite E; split; discriminate. Qed.

(** The first token of the lines of a block, if there is a line. *)
Lemma first_line (lines : list (string * string))
    (closing : list caddyfile.Token) :
  Forall good_line lines ->
  lines = []
  \/ exists K rest, line_tokens 2 lines ++ closing = K :: rest
                    /\ caddyfile.Text K <> "}" /\ caddyfile.Text K <> "{".
Proof.
  intros G. destruct lines as [|[key value] lines]; [now left | right].
  inversion G as [|? ? G1 _]; subst.
  destruct (good_key_no_brace _ G1) as [N1 N2].
  now exists (tok key 2), (tok value 2 :: line_tokens 3 lines ++ closing).
Qed.

(** The token behind the lines of a block. *)
Lemma closing_lookup (lines : list (string * string)) (K : caddyfile.Token)
    (rest : list caddyfile.Token) :
  block lines (K :: rest) !! S (1 + 2 * length lines)%nat = Some K.
Proof.
  unfold block.
  change (tok "simpletrace" 1 :: tok "{" 1 :: ?x)
    with ([tok "simpletrace" 1; tok "{" 1] ++ x).
  rewrite app_assoc. apply list_lookup_middle.
  rewrite length_app, length_line_tokens. cbn [length]. lia.
Qed.

(** X15.  A block of any number of lines [format <value>] and
    [project_id <value>], closed by the brace that ends the directive, is
    parsed without error, each line stored in turn: the last [format] and
    the last [project_id] win, and a key that does not occur leaves its
    field empty.  (A value may be anything but an opening brace.) *)
Theorem X15_block_of_lines (lines : list (string * string)) (ln : nat) :
  Forall good_line lines ->
  parseCaddyfile (caddyfile.NewDispenser (block lines [tok "}" ln]))
  = Some (fold_left assign lines {| Format := ""; ProjectID := "" |}, None).
Proof.
  intros G.
  destruct (first_line lines [tok "}" ln] G)
    as [->|(K & rest & E & N1 & N2)]; [reflexivity|].
  assert (length (block lines [tok "}" ln]) = S (S (1 + 2 * length lines))%nat) as L
    by (unfold block; cbn [length]; rewrite length_app, length_line_tokens;
        cbn [length]; lia).
  apply (parse_returns_nil _ _ (S (1 + 2 * length lines))%nat 0 L).
  replace (S (length (block lines [tok "}" ln])))
    with (length lines + S (3 + length lines))%nat by (rewrite L; lia).
  rewrite (block_lines_run lines _ K rest _ _ G E N1 N2).
  apply for_NextBlock_done.
  apply (NextBlock_close _ _ (tok "}" ln)); [|reflexivity|exact L].
  apply closing_lookup.
Qed.

(** X15, witness: the later [format] wins. *)
Lemma X15_block_of_lines_witness :
  parseCaddyfile (caddyfile.NewDispenser
    (block [("format", "ecs"); ("project_id", "p"); ("format", "tempo")]
           [tok "}" 5]))
  = Some ({| Format := "tempo"; ProjectID := "p" |}, None).
Proof.
  apply (X15_block_of_lines
           [("format", "ecs"); ("project_id", "p"); ("format", "tempo")] 5).
  repeat constructor; cbn; auto; discriminate.
Defined.

Lemma block_not_nil (lines : list (string * string))
    (closing : list caddyfile.Token) : block lines closing <> [].
Proof. discriminate. Qed.

Lemma length_block (lines : list (string * string))
    (closing : list caddyfile.Token) :
  length (block lines closing)
  = (length lines + S (S (length lines) + length closing))%nat.
Proof.
  unfold block. cbn [length]. rewrite length_app, length_line_tokens. lia.
Qed.

(** The run up to the token behind the good lines, for a block whose
    lines are followed by a token that is no brace. *)
Lemma block_then (lines : list (string * string)) (K : caddyfile.Token)
    (rest : list caddyfile.Token) (st : SimpleTrace) :
  Forall good_line lines ->
  caddyfile.Text K <> "}" -> caddyfile.Text K <> "{" ->
  exists fuel,
    for_NextBlock (S (length (block lines (K :: rest)))) st
      (dispenser_at (block lines (K :: rest)) 0 0)
    = for_NextBlock (S fuel) (fold_left assign lines st)
        (dispenser_at (block lines (K :: rest))
           (Z.of_nat (1 + 2 * length lines)) 1).
Proof.
  intros G N1 N2.
  exists (3 + length lines + length rest)%nat.
  replace (S (length (block lines (K :: rest))))
    with (length lines + S (3 + length lines + length rest))%nat
    by (rewrite length_block; cbn [length]; lia).
  destruct (first_line lines (K :: rest) G) as [->|(K' & rest' & E & N1' & N2')].
  - exact (block_lines_run [] (K :: rest) K rest st _ G eq_refl N1 N2).
  - exact (block_lines_run lines (K :: rest) K' rest' st _ G E N1' N2').
Qed.

(** X16.  A key that is neither [format] nor [project_id], wherever it
    stands in the block, ends the parse with the error
    [unknown subdirective: <key>]; the lines before it have been stored,
    what follows it is not looked at. *)
Theorem X16_unknown_subdirective (lines : list (string * string))
    (key : string) (ln : nat) (rest : list caddyfile.Token) :
  Forall good_line lines ->
  key ∉ ["format"; "project_id"; "{"; "}"] ->
  parseCaddyfile (caddyfile.NewDispenser (block lines (tok key ln :: rest)))
  = Some (fold_left assign lines {| Format := ""; ProjectID := "" |},
          Some ("unknown subdirective: " +:+ key)).
Proof.
  intros G N. rewrite !not_elem_of_cons in N.
  destruct N as (N1 & N2 & N3 & N4 & _).
  set (toks := block lines (tok key ln :: rest)).
  destruct (block_then lines (tok key ln) rest {| Format := ""; ProjectID := "" |}
              G N4 N3) as [fuel E].
  pose proof (closing_lookup lines (tok key ln) rest) as HK.
  apply (parse_returns_error toks _
           (dispenser_at toks (Z.of_nat (S (1 + 2 * length lines))) 1) _
           (block_not_nil _ _)).
  fold toks in E, HK. rewrite E.
  rewrite (for_NextBlock_unknown fuel _ _ _ (NextBlock_key toks _ _ HK N4 N3));
    rewrite (Val_at toks _ 1 _ HK); [reflexivity | exact N1 | exact N2].
Qed.

(** X16, witness: the subdirective of the earlier revision, behind a good
    line. *)
Lemma X16_unknown_subdirective_witness :
  parseCaddyfile (caddyfile.NewDispenser
    (block [("format", "ecs")] [tok "stackdriver" 3; tok "my-project" 3; tok "}" 4]))
  = Some ({| Format := "ecs"; ProjectID := "" |},
          Some "unknown subdirective: stackdriver").
Proof.
  apply (X16_unknown_subdirective [("format", "ecs")] "stackdriver" 3
           [tok "my-project" 3; tok "}" 4]).
  - repeat constructor; cbn; auto; discriminate.
  - rewrite !not_elem_of_cons. split_and!; try discriminate. apply not_elem_of_nil.
Defined.

(** X17.  [format] or [project_id] with nothing behind it on its line
    (the end of the tokens, or a token on a later line) ends the parse
    with the argument error naming the key; the lines before it have been
    stored. *)
Theorem X17_missing_argument (lines : list (string * string))
    (key : string) (ln : nat) (rest : list caddyfile.Token) :
  Forall good_line lines ->
  key = "format" \/ key = "project_id" ->
  match rest with
  | [] => True
  | V :: _ => (ln < caddyfile.Line V)%nat
  end ->
  parseCaddyfile (caddyfile.NewDispenser (block lines (tok key ln :: rest)))
  = Some (fold_left assign lines {| Format := ""; ProjectID := "" |},
          Some ("wrong argument count or unexpected line ending after '"
                +:+ key +:+ "'")).
Proof.
  intros G GK Later.
  assert (key <> "}" /\ key <> "{" /\ caddyfile.NumLineBreaks (tok key ln) = 0%nat)
    as (N1 & N2 & NL)
    by (destruct GK as [->| ->]; split_and!; try discriminate; reflexivity).
  set (toks := block lines (tok key ln :: rest)).
  destruct (block_then lines (tok key ln) rest {| Format := ""; ProjectID := "" |}
              G N1 N2) as [fuel E].
  pose proof (closing_lookup lines (tok key ln) rest) as HK.
  fold toks in E, HK.
  apply (parse_returns_error toks _
           (dispenser_at toks (Z.of_nat (S (1 + 2 * length lines))) 1) _
           (block_not_nil _ _)).
  rewrite E. cbn [for_NextBlock].
  rewrite (NextBlock_key toks _ _ HK N1 N2). cbn [negb].
  remember (S (1 + 2 * length lines))%nat as p eqn:Hp.
  assert (caddyfile.NextArg (dispenser_at toks (Z.of_nat p) 1)
          = (false, dispenser_at toks (Z.of_nat p) 1)) as A.
  { apply (NextArg_none toks p 1 _ HK).
    destruct (toks !! S p) as [V|] eqn:HV; [|exact I].
    assert (rest !! 0%nat = Some V) as HR.
    { unfold toks, block in HV.
      change (tok "simpletrace" 1 :: tok "{" 1 :: ?x)
        with ([tok "simpletrace" 1; tok "{" 1] ++ x) in HV.
      rewrite app_assoc in HV.
      change (tok key ln :: rest) with ([tok key ln] ++ rest) in HV.
      rewrite app_assoc in HV.
      rewrite lookup_app_r in HV
        by (rewrite !length_app, length_line_tokens; cbn [length]; lia).
      replace (S p - _)%nat with 0%nat in HV
        by (rewrite !length_app, length_line_tokens; cbn [length]; lia).
      exact HV. }
    destruct rest as [|V' rest']; [discriminate HR|].
    injection HR as ->. unfold caddyfile.isNextOnNewLine. rewrite NL.
    cbn [caddyfile.Line tok]. apply Nat.ltb_lt. lia. }
  rewrite (Val_at toks p 1 _ HK). cbn [caddyfile.Text tok].
  unfold caddyfile.ArgErr.
  destruct GK as [->| ->].
  - change (String.eqb "format" "format") with true. cbv iota.
    rewrite A. cbn [negb]. rewrite (Val_at toks p 1 _ HK). reflexivity.
  - change (String.eqb "project_id" "format") with false.
    change (String.eqb "project_id" "project_id") with true. cbv iota.
    rewrite A. cbn [negb]. rewrite (Val_at toks p 1 _ HK). reflexivity.
Qed.

(** X17, witness: [project_id] alone on its line. *)
Lemma X17_missing_argument_witness :
  parseCaddyfile (caddyfile.NewDispenser
    (block [("format", "gcp")] [tok "project_id" 3; tok "}" 4]))
  = Some ({| Format := "gcp"; ProjectID := "" |},
          Some "wrong argument count or unexpected line ending after 'project_id'").
Proof.
  apply (X17_missing_argument [("format", "gcp")] "project_id" 3 [tok "}" 4]).
  - repeat constructor; cbn; auto; discriminate.
  - now right.
  - cbn. lia.
Defined.

(** ** No block, no configuration *)

(** A turn of the inner loop outside a block, when no opening brace
    follows: the loop ends where it began. *)
Lemma NextBlock_no_block (toks : list caddyfile.Token) (p : nat) :
  (p < length toks)%nat ->
  (forall V, toks !! S p = Some V -> caddyfile.Text V <> "{") ->
  caddyfile.NextBlock (dispenser_at toks (Z.of_nat p) 0) 0
  = (false, dispenser_at toks (Z.of_nat p) 0).
Proof.
  intros L NB. unfold caddyfile.NextBlock.
  change (0 <? caddyfile.nesting (dispenser_at toks (Z.of_nat p) 0))%Z with false.
  cbv iota.
  destruct (lookup_lt_is_Some_2 toks p L) as [K HK].
  destruct (toks !! S p) as [V|] eqn:HV.
  - rewrite (nextOnSameLine_at toks p 0 K V HK HV).
    destruct (caddyfile.isNextOnNewLine K V); [reflexivity|]. cbn [negb].
    rewrite (Val_at toks (S p) 0 V HV).
    specialize (NB V eq_refl). apply String.eqb_neq in NB. rewrite NB.
    cbn [negb]. unfold caddyfile.move, dispenser_at. cbn. do 2 f_equal. lia.
  - rewrite nextOnSameLine_end; [reflexivity|].
    apply lookup_ge_None in HV. lia.
Qed.

Lemma for_Next_turn (fuel : nat) (st : SimpleTrace) (d d1 d2 : caddyfile.Dispenser) :
  caddyfile.Next d = (true, d1) ->
  for_NextBlock (S (length (caddyfile.tokens d1))) st d1 = Some (st, d2, LoopDone) ->
  for_Next (S fuel) st d = for_Next fuel st d2.
Proof. intros H1 H2. cbn [for_Next]. rewrite H1. cbn [negb]. now rewrite H2. Qed.

Lemma for_Next_no_block (toks : list caddyfile.Token) (st : SimpleTrace) :
  (forall i V, toks !! S i = Some V -> caddyfile.Text V <> "{") ->
  forall m p fuel,
  length toks = S (p + m) -> (m <= fuel)%nat ->
  for_Next (S fuel) st (dispenser_at toks (Z.of_nat p) 0)
  = Some (st, dispenser_at toks (Z.of_nat (p + m)) 0, None).
Proof.
  intros NB. induction m as [|m IH]; intros p fuel L F.
  - cbn [for_Next]. rewrite Next_end by lia. cbn [negb].
    now rewrite Nat.add_0_r.
  - destruct fuel as [|fuel]; [lia|].
    destruct (lookup_lt_is_Some_2 toks (S p) ltac:(lia)) as [K HK].
    rewrite (for_Next_turn _ st _ _ (dispenser_at toks (Z.of_nat (S p)) 0)
               (Next_at toks p 0 K HK)).
    + rewrite (IH (S p) fuel) by lia.
      now replace (S p + m)%nat with (p + S m)%nat by lia.
    + apply for_NextBlock_done.
      apply NextBlock_no_block; [lia | intros V; apply NB].
Qed.

(** X18.  Without an opening brace nothing is configured and nothing is
    an error: whatever stands behind the directive's name, on its line or
    on later ones, is passed over, and the configuration stays as it
    was. *)
Theorem X18_no_block_no_configuration (toks : list caddyfile.Token)
    (st : SimpleTrace) :
  Forall (fun V => caddyfile.Text V <> "{") (tail toks) ->
  exists d, UnmarshalCaddyfile st (caddyfile.NewDispenser toks) = Some (st, d, None).
Proof.
  intros NB. destruct toks as [|K toks]; [now eexists|].
  cbn [tail] in NB. rewrite Forall_lookup in NB.
  eexists. unfold UnmarshalCaddyfile.
  change (caddyfile.tokens (caddyfile.NewDispenser (K :: toks))) with (K :: toks).
  rewrite (for_Next_turn _ st _ _ (dispenser_at (K :: toks) (Z.of_nat 0) 0)
             (Next_start (K :: toks) ltac:(discriminate))).
  - cbn [length].
    apply (for_Next_no_block (K :: toks) st
             ltac:(intros i V HV; exact (NB i V HV)) (length toks) 0%nat);
      cbn [length]; lia.
  - apply for_NextBlock_done.
    apply (NextBlock_no_block (K :: toks) 0);
      [cbn [length]; lia | intros V HV; exact (NB 0%nat V HV)].
Qed.

(** X18, witness: the directive with stray arguments. *)
Lemma X18_no_block_no_configuration_witness :
  exists d,
    UnmarshalCaddyfile {| Format := "ecs"; ProjectID := "p" |}
      (caddyfile.NewDispenser
         [tok "simpletrace" 1; tok "format" 1; tok "tempo" 1])
    = Some ({| Format := "ecs"; ProjectID := "p" |}, d, None).
Proof.
  apply X18_no_block_no_configuration.
  repeat constructor; discriminate.
Defined.

(** ** The earlier revision *)

(** X19.  The present handler under format [stackdriver] is the earlier
    handler with [UseStackdriverFormat] set, and under the empty format
    the earlier handler without it: the same trace context, outgoing
    header, log fields, entropy use and request handed on, for every
    request and project id. *)
Theorem X19_earlier_revision_agrees {ResponseWriter : Type}
    (st : v1.SimpleTrace) (w : ResponseWriter) (r : Request)
    (next : Handler ResponseWriter) (R : rand.Reader) (k : nat) :
  v1.ServeHTTP st w r next R k = ServeHTTP (upgrade st) w r next R k.
Proof.
  unfold v1.ServeHTTP, ServeHTTP, upgrade.
  match goal with |- context [let '(_, _) := ?X in _] => destruct X as [c k'] end.
  cbn [Format ProjectID].
  destruct (v1.UseStackdriverFormat st); reflexivity.
Qed.

Lemma v1_for_NextBlock_done (fuel : nat) (st : v1.SimpleTrace)
    (d d1 : caddyfile.Dispenser) :
  caddyfile.NextBlock d 0 = (false, d1) ->
  v1.for_NextBlock (S fuel) st d = Some (st, d1, LoopDone).
Proof. intros H1. cbn [v1.for_NextBlock]. now rewrite H1. Qed.

Lemma v1_parse_returns_nil (toks : list caddyfile.Token)
    (st : v1.SimpleTrace) (p : nat) (n : Z) :
  length toks = S p ->
  v1.for_NextBlock (S (length toks))
    {| v1.UseStackdriverFormat := false; v1.ProjectID := "" |}
    (dispenser_at toks 0 0)
  = Some (st, dispenser_at toks (Z.of_nat p) n, LoopDone) ->
  v1.parseCaddyfile (caddyfile.NewDispenser toks) = Some (st, None).
Proof.
  intros L H. unfold v1.parseCaddyfile, v1.UnmarshalCaddyfile.
  change (caddyfile.tokens (caddyfile.NewDispenser toks)) with toks.
  cbn [v1.for_Next]. rewrite (Next_start toks) by (intros ->; discriminate L).
  cbn [negb].
  change (caddyfile.tokens (dispenser_at toks 0 0)) with toks.
  rewrite H. rewrite L. cbn [v1.for_Next]. now rewrite (Next_end _ p n L).
Qed.

(** X20.  The configuration syntax of the earlier revision and what has
    become of it: [stackdriver <project>] in the block set the switch and
    the project id, [stackdriver] alone set the switch and was no error;
    the present [UnmarshalCaddyfile] rejects both as an unknown
    subdirective. *)
Theorem X20_earlier_syntax (project : string) :
  project <> "{" ->
  v1.parseCaddyfile (caddyfile.NewDispenser (directive "stackdriver" project))
  = Some ({| v1.UseStackdriverFormat := true; v1.ProjectID := project |}, None)
  /\ v1.parseCaddyfile (caddyfile.NewDispenser
       [tok "simpletrace" 1; tok "{" 1; tok "stackdriver" 2; tok "}" 3])
     = Some ({| v1.UseStackdriverFormat := true; v1.ProjectID := "" |}, None)
  /\ parseCaddyfile (caddyfile.NewDispenser (directive "stackdriver" project))
     = Some ({| Format := ""; ProjectID := "" |},
             Some "unknown subdirective: stackdriver")
  /\ parseCaddyfile (caddyfile.NewDispenser
       [tok "simpletrace" 1; tok "{" 1; tok "stackdriver" 2; tok "}" 3])
     = Some ({| Format := ""; ProjectID := "" |},
             Some "unknown subdirective: stackdriver").
Proof.
  intros NB. split_and!; [| reflexivity | | reflexivity].
  - set (toks := directive "stackdriver" project).
    assert (caddyfile.NextArg (dispenser_at toks 2 1)
            = (true, dispenser_at toks 3 1)) as A.
    { unfold caddyfile.NextArg.
      change (caddyfile.nextOnSameLine (dispenser_at toks 2 1))
        with (true, dispenser_at toks 3 1).
      cbn [negb]. change (caddyfile.Val (dispenser_at toks 3 1)) with project.
      apply String.eqb_neq in NB. now rewrite NB. }
    apply (v1_parse_returns_nil toks _ 4 0 eq_refl).
    change (S (length toks)) with 6%nat.
    cbn [v1.for_NextBlock].
    change (caddyfile.NextBlock (dispenser_at toks 0 0) 0)
      with (true, dispenser_at toks 2 1).
    cbn [negb].
    change (caddyfile.Val (dispenser_at toks 2 1)) with "stackdriver".
    cbn [String.eqb Ascii.eqb Bool.eqb]. rewrite A.
    change (caddyfile.Val (dispenser_at toks 3 1)) with project.
    change (caddyfile.NextBlock (dispenser_at toks 3 1) 0)
      with (false, dispenser_at toks 4 0).
    reflexivity.
  - apply parseCaddyfile_unknown_key; intros E; discriminate E.
Qed.

Lemma X20_earlier_syntax_witness :
  v1.parseCaddyfile (caddyfile.NewDispenser (directive "stackdriver" "my-project"))
  = Some ({| v1.UseStackdriverFormat := true; v1.ProjectID := "my-project" |}, None).
Proof.
  refine (proj1 (X20_earlier_syntax "my-project" _)). intros E; discriminate E.
Defined.

(** ** Every configuration: what [UnmarshalCaddyfile] can return *)

Lemma Val_on_token (d : caddyfile.Dispenser) :
  on_token d ->
  exists t, t ∈ caddyfile.tokens d /\ caddyfile.Val d = caddyfile.Text t.
Proof.
  unfold on_token, caddyfile.len, caddyfile.Val, caddyfile.at_. intros B.
  destruct (Z.ltb_spec (caddyfile.cursor d) 0); [lia|].
  destruct (lookup_lt_is_Some_2 (caddyfile.tokens d)
              (Z.to_nat (caddyfile.cursor d))) as [t E]; [lia|].
  rewrite E. exists t. split; [|reflexivity].
  now apply list_elem_of_lookup_2 in E.
Qed.

(** [NextArg] leaves the value of a key that has no argument. *)
Lemma NextArg_false_Val (d : caddyfile.Dispenser) :
  on_token d -> (caddyfile.NextArg d).1 = false ->
  caddyfile.Val (caddyfile.NextArg d).2 = caddyfile.Val d.
Proof.
  intros B. unfold caddyfile.NextArg, caddyfile.nextOnSameLine.
  destruct (Z.ltb_spec (caddyfile.cursor d) 0);
    [unfold on_token in B; lia|].
  destruct (caddyfile.len d - 1 <=? caddyfile.cursor d)%Z; [reflexivity|].
  destruct (caddyfile.at_ d (caddyfile.cursor d)) as [curr|]; [|reflexivity].
  destruct (caddyfile.at_ d (caddyfile.cursor d + 1)) as [next|]; [|reflexivity].
  destruct (caddyfile.isNextOnNewLine curr next); [reflexivity|].
  cbn [negb].
  destruct (String.eqb (caddyfile.Val (caddyfile.move d 1)) "{");
    [|discriminate].
  intros _. cbn [snd]. unfold caddyfile.Val, caddyfile.at_, caddyfile.move.
  cbn [caddyfile.cursor caddyfile.tokens].
  now replace (caddyfile.cursor d + 1 + -1)%Z with (caddyfile.cursor d) by lia.
Qed.

Lemma from_tokens_trans (toks : list caddyfile.Token) (a b c : string) :
  (b = a \/ exists t, t ∈ toks /\ b = caddyfile.Text t) ->
  from_tokens toks b c -> from_tokens toks a c.
Proof.
  unfold from_tokens. intros [->|H] [->|H']; eauto.
Qed.

Lemma for_NextBlock_values (fuel : nat) :
  forall (st st' : SimpleTrace) (d d' : caddyfile.Dispenser) (e : loop_exit),
  on_token d ->
  for_NextBlock fuel st d = Some (st', d', e) ->
  moved_on 0 d d'
  /\ from_tokens (caddyfile.tokens d) (Format st) (Format st')
  /\ from_tokens (caddyfile.tokens d) (ProjectID st) (ProjectID st')
  /\ match e with
     | LoopDone => True
     | Return err => err <> None /\ config_error (caddyfile.tokens d) err
     end.
Proof.
  induction fuel as [|fuel IH]; intros st st' d d' e B E; [discriminate E|].
  cbn [for_NextBlock] in E.
  pose proof (NextBlock_moves d 0 B) as M.
  destruct (caddyfile.NextBlock d 0) as [inside d1]. cbn [fst snd] in M.
  destruct inside; cbn [negb] in E;
    [|injection E as <- <- <-; refine (conj _ (conj _ (conj _ _))); [exact M|now left|now left|exact I]].
  assert (on_token d1) as B1 by (eapply moved_on_token; [|exact B|exact M]; lia).
  assert (moved_on 0 d d1) as M0 by (eapply moved_on_weaken; [|exact M]; lia).
  pose proof (proj1 M) as T1.
  destruct (Val_on_token d1 B1) as (t1 & I1 & V1). rewrite T1 in I1.
  pose proof (NextArg_moves d1 B1) as MA.
  pose proof (NextArg_false_Val d1 B1) as VA.
  assert (forall d2, moved_on 0 d1 d2 -> on_token d2 /\
            exists t, t ∈ caddyfile.tokens d /\ caddyfile.Val d2 = caddyfile.Text t)
    as after.
  { intros d2 M2.
    assert (on_token d2) as B2 by (eapply moved_on_token; [|exact B1|exact M2]; lia).
    split; [exact B2|].
    destruct (Val_on_token d2 B2) as (t & It & Vt).
    rewrite (proj1 M2), T1 in It. eauto. }
  destruct (String.eqb_spec (caddyfile.Val d1) "format") as [K|NF].
  - destruct (caddyfile.NextArg d1) as [arg d2]. cbn [fst snd] in MA, VA.
    destruct (after d2 MA) as (B2 & t & It & Vt).
    pose proof (moved_on_trans _ _ _ _ _ M0 MA) as M02.
    destruct arg; cbn [negb] in E.
    + destruct (IH _ _ _ _ _ B2 E) as (M' & F' & P' & R').
      rewrite (proj1 MA), T1 in F', P', R'. cbn [Format ProjectID] in F', P'.
      refine (conj _ (conj _ (conj _ _))); [exact (moved_on_trans _ _ _ _ _ M02 M')| |exact P'|exact R'].
      apply (from_tokens_trans _ _ (caddyfile.Val d2)); [eauto|exact F'].
    + injection E as <- <- <-.
      refine (conj _ (conj _ (conj _ _))); [exact M02|now left|now left|].
      unfold caddyfile.ArgErr. rewrite (VA eq_refl), K.
      cbn [String.eqb Ascii.eqb Bool.eqb]. split; [discriminate|].
      right. left. reflexivity.
  - destruct (String.eqb_spec (caddyfile.Val d1) "project_id") as [K|NP].
    + destruct (caddyfile.NextArg d1) as [arg d2]. cbn [fst snd] in MA, VA.
      destruct (after d2 MA) as (B2 & t & It & Vt).
      pose proof (moved_on_trans _ _ _ _ _ M0 MA) as M02.
      destruct arg; cbn [negb] in E.
      * destruct (IH _ _ _ _ _ B2 E) as (M' & F' & P' & R').
        rewrite (proj1 MA), T1 in F', P', R'. cbn [Format ProjectID] in F', P'.
        refine (conj _ (conj _ (conj _ _))); [exact (moved_on_trans _ _ _ _ _ M02 M')|exact F'| |exact R'].
        apply (from_tokens_trans _ _ (caddyfile.Val d2)); [eauto|exact P'].
      * injection E as <- <- <-.
        refine (conj _ (conj _ (conj _ _))); [exact M02|now left|now left|].
        unfold caddyfile.ArgErr. rewrite (VA eq_refl), K.
        cbn [String.eqb Ascii.eqb Bool.eqb]. split; [discriminate|].
        right. right. left. reflexivity.
    + injection E as <- <- <-.
      refine (conj _ (conj _ (conj _ _))); [exact M0|now left|now left|].
      unfold caddyfile.Errf. split; [discriminate|].
      right. right. right. exists t1. rewrite <- V1. now split_and!.
Qed.

Lemma for_Next_values (fuel : nat) :
  forall (st st' : SimpleTrace) (d d' : caddyfile.Dispenser) (err : error),
  (-1 <= caddyfile.cursor d <= caddyfile.len d - 1)%Z ->
  for_Next fuel st d = Some (st', d', err) ->
  caddyfile.tokens d' = caddyfile.tokens d
  /\ (caddyfile.cursor d <= caddyfile.cursor d' <= caddyfile.len d - 1)%Z
  /\ from_tokens (caddyfile.tokens d) (Format st) (Format st')
  /\ from_tokens (caddyfile.tokens d) (ProjectID st) (ProjectID st')
  /\ config_error (caddyfile.tokens d) err.
Proof.
  induction fuel as [|fuel IH]; intros st st' d d' err B E; [discriminate E|].
  cbn [for_Next] in E. unfold caddyfile.Next in E.
  destruct (Z.ltb_spec (caddyfile.cursor d) (caddyfile.len d - 1)); cbn [negb] in E.
  - assert (on_token (caddyfile.move d 1)) as B1
      by (unfold on_token, caddyfile.len in *; cbn; lia).
    change (caddyfile.tokens (caddyfile.move d 1)) with (caddyfile.tokens d) in E.
    destruct (for_NextBlock (S (length (caddyfile.tokens d))) st (caddyfile.move d 1))
      as [[[st1 d1] e]|] eqn:E1; [|discriminate E].
    destruct (for_NextBlock_values _ _ _ _ _ _ B1 E1) as ([T1 C1] & F1 & P1 & R1).
    change (caddyfile.tokens (caddyfile.move d 1)) with (caddyfile.tokens d) in *.
    change (caddyfile.len (caddyfile.move d 1)) with (caddyfile.len d) in C1.
    change (caddyfile.cursor (caddyfile.move d 1)) with (caddyfile.cursor d + 1)%Z in C1.
    destruct e as [|err1].
    + assert (caddyfile.len d1 = caddyfile.len d) as L1
        by (unfold caddyfile.len; now rewrite T1).
      destruct (IH _ _ _ _ _ ltac:(rewrite L1; lia) E) as (T' & C' & F' & P' & R').
      rewrite T1 in T', F', P', R'. rewrite L1 in C'.
      refine (conj _ (conj _ (conj _ (conj _ _)))); [exact T'|lia| | |exact R'].
      * destruct F1 as [F1|F1]; [now rewrite F1 in F'|].
        now apply (from_tokens_trans _ _ (Format st1)); [right|].
      * destruct P1 as [P1|P1]; [now rewrite P1 in P'|].
        now apply (from_tokens_trans _ _ (ProjectID st1)); [right|].
    + injection E as <- <- <-. refine (conj _ (conj _ (conj _ (conj _ _)))); [exact T1|lia|exact F1|exact P1|apply R1].
  - injection E as <- <- <-. refine (conj _ (conj _ (conj _ (conj _ _)))); [reflexivity|lia|now left|now left|now left].
Qed.

(** X21.  On every token sequence [UnmarshalCaddyfile] returns: the
    tokens are left as they were and the cursor stays within them; the
    format and the project id are what they were before or the text of
    one of the tokens; the error is nil, a missing argument after
    [format] or [project_id], or an unknown subdirective named by one of
    the tokens that is neither of the two. *)
Theorem X21_UnmarshalCaddyfile_outcomes (toks : list caddyfile.Token)
    (st : SimpleTrace) :
  exists st' d' err,
    UnmarshalCaddyfile st (caddyfile.NewDispenser toks) = Some (st', d', err)
    /\ caddyfile.tokens d' = toks
    /\ (-1 <= caddyfile.cursor d' <= Z.of_nat (length toks) - 1)%Z
    /\ from_tokens toks (Format st) (Format st')
    /\ from_tokens toks (ProjectID st) (ProjectID st')
    /\ config_error toks err.
Proof.
  assert (-1 <= caddyfile.cursor (caddyfile.NewDispenser toks)
          <= caddyfile.len (caddyfile.NewDispenser toks) - 1)%Z as B
    by (unfold caddyfile.len; cbn; lia).
  destruct (UnmarshalCaddyfile_returns st _ B) as (st' & d' & err & E).
  exists st', d', err. split; [exact E|].
  destruct (for_Next_values _ _ _ _ _ _ B E) as (T & C & F & P & R).
  refine (conj T (conj _ (conj F (conj P R)))).
  unfold caddyfile.len in C. cbn in C. lia.
Qed.

(** ** Runs that return *)


